(** * nequip: the gradient-output wrapper and the metrics engine

  A shallow embedding of [nequip/nn/_grad_output.py] and
  [nequip/train/metrics.py].

  Python objects that are mutated in place and shared (tensors, the data
  dictionary) live in an explicit store and are named by locations;
  exceptions are values of [Py.exn]; code that both mutates and raises
  runs in a state-and-exception monad whose state survives a [Raise]. *)

From Stdlib Require Import ZArith List Floats Lia.
From Stdlib Require Import Strings.String DecimalString.
From stdpp Require Import base gmap strings list.

(** ** Python results *)

Module Py.

(** The exception classes the two files raise or let through.  The spec's
    names map onto them as follows: [InvalidConfiguration] is the
    [AssertionError] of the sign check and the [ValueError] of
    [Metrics.parse]; [ConfigurationMismatch] is the [AssertionError] of the
    length check; [GradientUnavailable] is the [RuntimeError] of
    [forward]. *)
Inductive exn :=
| AssertionError (msg : string)
| ValueError (msg : string)
| RuntimeError (msg : string)
| KeyError (key : string)
| IndexError (msg : string)
| TypeError (msg : string)
| AttributeError (msg : string)
| OverflowError (msg : string)
| NameError (msg : string)
| SystemError (msg : string).

Inductive result (A : Type) :=
| Ok (a : A)
| Raise (e : exn).
Arguments Ok {A} a.
Arguments Raise {A} e.

#[global] Instance result_ret : MRet result := fun A a => Ok a.
#[global] Instance result_bind : MBind result :=
  fun A B f m => match m with Ok a => f a | Raise e => Raise e end.

(** State and exceptions: the state is returned on both outcomes, as a
    Python object mutated before a [raise] stays mutated. *)
Definition stateE (S A : Type) : Type := S -> result A * S.

#[global] Instance stateE_ret {S} : MRet (stateE S) := fun A a s => (Ok a, s).
#[global] Instance stateE_bind {S} : MBind (stateE S) :=
  fun A B f m s =>
    match m s with
    | (Ok a, s') => f a s'
    | (Raise e, s') => (Raise e, s')
    end.

Definition raise {S A} (e : exn) : stateE S A := fun s => (Raise e, s).
Definition lift {S A} (r : result A) : stateE S A := fun s => (r, s).
Definition gets {S A} (f : S -> A) : stateE S A := fun s => (Ok (f s), s).
Definition modify {S} (f : S -> S) : stateE S unit := fun s => (Ok tt, f s).

(** [str(n)] for a non-negative integer. *)
Definition str_nat (n : nat) : string := NilEmpty.string_of_uint (Nat.to_uint n).

(** [float(x)], here [to_float x], for the numbers a caller passes as
    [sign]. An [int] is rounded to the nearest double, ties to even; one that is too large
    raises [OverflowError]. *)
Inductive num :=
| Int (z : Z)
| Float (f : float).

Definition float_of_Z (z : Z) : float :=
  SF2Prim (binary_normalize prec emax z 0 false).

Definition to_float (x : num) : result float :=
  match x with
  | Float f => Ok f
  | Int z =>
      let f := float_of_Z z in
      if PrimFloat.is_infinity f
      then Raise (OverflowError "int too large to convert to float")
      else Ok f
  end.

End Py.
Import Py.

(** ** Tensors and the object store *)

Module Torch.

Definition loc := nat.

(** A tensor object: the differentiability flag the wrapper toggles, and
    its contents in row-major order. *)
Record Tensor := mkTensor {
  requires_grad : bool;
  shape : list nat;
  values : list float;
}.

(** [c * t] for a Python float [c]. *)
Definition mul_scalar (c : float) (t : Tensor) : Tensor :=
  {| requires_grad := requires_grad t;
     shape := shape t;
     values := map (PrimFloat.mul c) (values t) |}.

(** Two tensor objects with the same contents. *)
Definition same_data (a b : Tensor) : Prop :=
  shape a = shape b /\ values a = values b.

(** Tensor objects and dictionary objects, each by identity. A data
    dictionary maps field names to tensor objects. *)
Record store := mkStore {
  tensors : gmap loc Tensor;
  dicts : gmap loc (gmap string loc);
}.

Definition dangling {A} : stateE store A :=
  raise (SystemError "dangling reference").

(** [data[k]] *)
Definition getitem (data : loc) (k : string) : stateE store loc :=
  fun s =>
    match dicts s !! data with
    | None => dangling s
    | Some m =>
        match m !! k with
        | Some t => (Ok t, s)
        | None => (Raise (KeyError k), s)
        end
    end.

(** [data[k] = t] *)
Definition setitem (data : loc) (k : string) (t : loc) : stateE store unit :=
  fun s =>
    match dicts s !! data with
    | None => dangling s
    | Some m =>
        (Ok tt, {| tensors := tensors s; dicts := <[data := <[k := t]> m]> (dicts s) |})
    end.

(** [t.requires_grad] *)
Definition get_requires_grad (t : loc) : stateE store bool :=
  fun s =>
    match tensors s !! t with
    | None => dangling s
    | Some x => (Ok (requires_grad x), s)
    end.

(** [t.requires_grad_(b)] *)
Definition requires_grad_ (t : loc) (b : bool) : stateE store unit :=
  fun s =>
    match tensors s !! t with
    | None => dangling s
    | Some x =>
        (Ok tt,
         {| tensors := <[t := {| requires_grad := b; shape := shape x; values := values x |}]> (tensors s);
            dicts := dicts s |})
    end.

(** A new tensor object. *)
Definition new_tensor (x : Tensor) : stateE store loc :=
  fun s =>
    let t := fresh (dom (tensors s)) in
    (Ok t, {| tensors := <[t := x]> (tensors s); dicts := dicts s |}).

(** The flag of the tensor object at [t], if there is one. *)
Definition flag (s : store) (t : loc) : option bool :=
  requires_grad <$> tensors s !! t.

(** The dictionary object [data] seen as a map. *)
Definition fields (s : store) (data : loc) : gmap string loc :=
  default ∅ (dicts s !! data).

(** Every tensor object of [s] is still there in [s'], with the same shape
    and values; its flag may differ. *)
Definition keeps_data (s s' : store) : Prop :=
  forall x t, tensors s !! x = Some t -> exists t', tensors s' !! x = Some t' /\ same_data t' t.

End Torch.
Import Torch.

(** ** Irreps and graph modules (collaborators of the wrapper) *)

Module E3nn.

(** An irreducible representation with its multiplicity: [mul x l p],
    [parity = true] for even. [Irreps] is compared by equality only. *)
Record Irrep := mkIrrep {
  mul : nat;
  l : nat;
  parity : bool;
}.

Definition Irreps := list Irrep.

(** [Irreps("0e")] *)
Definition Irreps_0e : Irreps := [ {| mul := 1; l := 0; parity := true |} ].

(** [Irreps("1o")] *)
Definition Irreps_1o : Irreps := [ {| mul := 1; l := 1; parity := false |} ].

End E3nn.
Import E3nn.

Module GraphModuleMixin.

(** What the wrapper reads of the model it wraps: the declared types of its
    input and output fields (a field that carries no irreps is declared
    [None]) and its call, which may mutate any object, return the
    dictionary it was given or another one, and raise. *)
Record t := mk {
  irreps_in : gmap string (option Irreps);
  irreps_out : gmap string (option Irreps);
  call : loc -> stateE store loc;
}.

End GraphModuleMixin.

(** The key names of [nequip.data.AtomicDataDict]. *)
Module AtomicDataDict.

(** Modelled from the spec: the constants [TOTAL_ENERGY_KEY], [POSITIONS_KEY],
    [FORCE_KEY] and [SPECIES_INDEX_KEY] of [nequip/data/AtomicDataDict.py],
    which is not among the sources; the spec's external interface names the
    fields "total_energy", "positions", "force" and "species_index". *)
Definition TOTAL_ENERGY_KEY : string := "total_energy".
Definition POSITIONS_KEY : string := "positions".
Definition FORCE_KEY : string := "force".
Definition SPECIES_INDEX_KEY : string := "species_index".

End AtomicDataDict.

(** ** [GradientOutput] *)

Module GradientOutput.

(** [Union[str, List[str]]] *)
Inductive str_or_list :=
| Str (s : string)
| Strs (l : list string).

(** The field [of] is written [of_]. *)
Record t := mk {
  sign : float;
  of_ : string;
  wrt : list string;
  func : GraphModuleMixin.t;
  out_field : list string;
  irreps_in : gmap string (option Irreps);
  irreps_out : gmap string (option Irreps);
  training : bool;
}.

(** The error [forward] raises for an undefined gradient, the spec's
    [GradientUnavailable]. *)
Definition GradientUnavailable : exn :=
  RuntimeError "Something is wrong, gradient couldn't be computed".

(** [assert c, msg] *)
Definition assert (c : bool) (msg : string) : result unit :=
  if c then Ok tt else Raise (AssertionError msg).

(** [sign in (1.0, -1.0)]: membership by Python's [==] on floats. *)
Definition sign_in (sign : float) : bool :=
  PrimFloat.eqb sign 1%float || PrimFloat.eqb sign (-1)%float.

Definition normalize (x : str_or_list) : list string :=
  match x with
  | Str s => [s]
  | Strs l => l
  end.

(** [f"d({of})/d({e})"] *)
Definition default_out_field (of_ e : string) : string :=
  ("d(" ++ of_ ++ ")/d(" ++ e ++ ")")%string.

(** [{f: self.irreps_in[wrt] for f, wrt in zip(self.out_field, self.wrt)}],
    as the list of its insertions. *)
Fixpoint gradient_irreps (irreps_in : gmap string (option Irreps))
    (pairs : list (string * string)) : result (list (string * option Irreps)) :=
  match pairs with
  | [] => Ok []
  | (f, w) :: pairs' =>
      match irreps_in !! w with
      | None => Raise (KeyError w)
      | Some ty =>
          rest ← gradient_irreps irreps_in pairs';
          Ok ((f, ty) :: rest)
      end
  end.

(** [d.update(items)] *)
Definition update {V} (d : gmap string V) (items : list (string * V)) : gmap string V :=
  foldl (fun m kv => <[kv.1 := kv.2]> m) d items.

Section Wrapper.

(** The compatibility check of [GraphModuleMixin._init_irreps] (the "check"
    of the source's "check and init irreps"), which is not among the
    sources: a parameter. *)
Variable irreps_check : gmap string (option Irreps) -> gmap string (option Irreps) -> bool.

(** [torch.autograd.grad([y.sum()], inputs, create_graph=...)], the
    differentiation engine: a black box that reads the store and either
    raises or answers with one optional gradient per input. *)
Variable autograd_grad : store -> loc -> list loc -> bool -> result (list (option Tensor)).

(** Modelled from the spec: [GraphModuleMixin._init_irreps], which is not
    among the sources. By the spec the wrapper's input types are the wrapped
    model's, and its output types start as a copy of the wrapped model's
    output types. *)
Definition _init_irreps (irreps_in my_irreps_in irreps_out : gmap string (option Irreps))
  : result (gmap string (option Irreps) * gmap string (option Irreps)) :=
  if irreps_check irreps_in my_irreps_in
  then Ok (irreps_in, irreps_out)
  else Raise (ValueError "incompatible irreps").

Definition __init__ (func : GraphModuleMixin.t) (of_ : string) (wrt : str_or_list)
    (out_field : option str_or_list) (sign : num) : result t :=
  sign ← to_float sign;
  _ ← assert (sign_in sign) "";
  let wrt := normalize wrt in
  let out_field := normalize <$> out_field in
  out_field ←
    match out_field with
    | None => Ok (map (default_out_field of_) wrt)
    | Some out_field =>
        _ ← assert (length out_field =? length wrt)
              "Out field names must be given for all w.r.t tensors";
        Ok out_field
    end;
  '(irreps_in, irreps_out) ←
    _init_irreps (GraphModuleMixin.irreps_in func) {[ of_ := Some Irreps_0e ]}
                 (GraphModuleMixin.irreps_out func);
  grads ← gradient_irreps irreps_in (zip out_field wrt);
  Ok {| sign := sign; of_ := of_; wrt := wrt; func := func; out_field := out_field;
        irreps_in := irreps_in;
        irreps_out := update irreps_out grads;
        training := true |}.

(** The first loop of [forward]: record each flag, force it, collect the
    tensor. The source reads [data[k]] three times in one iteration; nothing
    changes the dictionary in between, so it is read once here. *)
Fixpoint set_requires_grad (data : loc) (wrt : list string)
    (wrt_tensors : list loc) (old_requires_grad : list bool)
  : stateE store (list loc * list bool) :=
  match wrt with
  | [] => mret (wrt_tensors, old_requires_grad)
  | k :: wrt' =>
      x ← getitem data k;
      b ← get_requires_grad x;
      _ ← requires_grad_ x true;
      set_requires_grad data wrt' (wrt_tensors ++ [x]) (old_requires_grad ++ [b])
  end.

(** The loop over [zip(self.out_field, grads)]. *)
Fixpoint store_grads (sign : float) (data : loc) (pairs : list (string * option Tensor))
  : stateE store unit :=
  match pairs with
  | [] => mret tt
  | (out, grad) :: pairs' =>
      match grad with
      | None => raise GradientUnavailable
      | Some grad =>
          x ← new_tensor (mul_scalar sign grad);
          _ ← setitem data out x;
          store_grads sign data pairs'
      end
  end.

(** The loop over [zip(old_requires_grad, self.wrt)]. *)
Fixpoint unset_requires_grad (data : loc) (pairs : list (bool * string)) : stateE store unit :=
  match pairs with
  | [] => mret tt
  | (req_grad, k) :: pairs' =>
      x ← getitem data k;
      _ ← requires_grad_ x req_grad;
      unset_requires_grad data pairs'
  end.

Definition forward (self : t) (data : loc) : stateE store loc :=
  '(wrt_tensors, old_requires_grad) ← set_requires_grad data (wrt self) [] [];
  data ← GraphModuleMixin.call (func self) data;
  y ← getitem data (of_ self);
  grads ← (fun s => (autograd_grad s y wrt_tensors (training self), s));
  _ ← store_grads (sign self) data (zip (out_field self) grads);
  _ ← unset_requires_grad data (zip old_requires_grad (wrt self));
  mret data.

(** [ForceOutput(energy_model)] *)
Definition ForceOutput (energy_model : GraphModuleMixin.t) : result t :=
  __init__ energy_model AtomicDataDict.TOTAL_ENERGY_KEY
           (Str AtomicDataDict.POSITIONS_KEY)
           (Some (Str AtomicDataDict.FORCE_KEY))
           (Int (-1)).

End Wrapper.

End GradientOutput.

(** ** Python values and insertion-ordered dictionaries *)

Module PyDict.

Section Dict.
Context {K V : Type} `{EqDecision K}.

(** A [dict] as the list of its items in insertion order; the operations
    below keep the keys distinct. *)
Fixpoint get (k : K) (d : list (K * V)) : option V :=
  match d with
  | [] => None
  | (k', v) :: d' => if decide (k = k') then Some v else get k d'
  end.

(** [k in d] *)
Definition contains (k : K) (d : list (K * V)) : bool :=
  match get k d with Some _ => true | None => false end.

(** [d[k] = v]: a present key keeps its place. *)
Fixpoint set (k : K) (v : V) (d : list (K * V)) : list (K * V) :=
  match d with
  | [] => [(k, v)]
  | (k', v') :: d' => if decide (k = k') then (k', v) :: d' else (k', v') :: set k v d'
  end.

Fixpoint remove (k : K) (d : list (K * V)) : list (K * V) :=
  match d with
  | [] => []
  | (k', v') :: d' => if decide (k = k') then remove k d' else (k', v') :: remove k d'
  end.

(** [d.pop(k, dflt)]: the value and the dictionary left. *)
Definition pop (k : K) (dflt : V) (d : list (K * V)) : V * list (K * V) :=
  (default dflt (get k d), remove k d).

(** [d.update(items)] *)
Definition update (d items : list (K * V)) : list (K * V) :=
  foldl (fun d kv => set kv.1 kv.2 d) d items.

(** [d[k]], raising [e] when [k] is missing. *)
Definition getitem (e : exn) (k : K) (d : list (K * V)) : result V :=
  match get k d with
  | Some v => Ok v
  | None => Raise e
  end.

End Dict.

End PyDict.

Module PyVal.

(** [torch_runstats.Reduction] *)
Inductive Reduction :=
| MEAN
| RMS.

(** The values that occur in a component spec and in the keyword arguments
    built from it. *)
#[warnings="-register-all"]
Inductive pyval :=
| PNone
| PBool (b : bool)
| PInt (z : Z)
| PStr (s : string)
| PTuple (items : list pyval)
| PDict (items : list (string * pyval))
| PReduction (r : Reduction).

(** Truth value testing. *)
Definition truthy (v : pyval) : bool :=
  match v with
  | PNone => false
  | PBool b => b
  | PInt z => negb (z =? 0)%Z
  | PStr s => negb (String.eqb s "")
  | PTuple items => negb (bool_decide (length items = 0))
  | PDict items => negb (bool_decide (length items = 0))
  | PReduction _ => true
  end.

(** Keys and reductions are strings by the declared type of [components]
    ([Tuple[str, str]] or [Tuple[str, str, dict]]); the engine's dictionaries
    are keyed by strings here, and a spec that breaks the declared type is
    answered with [TypeError] where its key or reduction is first used. *)
Definition as_str (v : pyval) : result string :=
  match v with
  | PStr s => Ok s
  | _ => Raise (TypeError "key and reduction must be str")
  end.

(** [str(x)] for a species label: an index or a name. *)
Inductive label :=
| LInt (z : Z)
| LStr (s : string).

Definition str_label (x : label) : string :=
  match x with
  | LInt z => NilZero.string_of_int (Z.to_int z)
  | LStr s => s
  end.

End PyVal.
Import PyVal.

(** ** Tensor operations used by the metrics engine *)

Module TensorOps.

Definition numel (dims : list nat) : nat := foldr Nat.mul 1 dims.

(** [t.flatten()] *)
Definition flatten (t : Tensor) : Tensor :=
  {| requires_grad := requires_grad t;
     shape := [length (values t)];
     values := values t |}.

(** [values] cut into [n] consecutive chunks of [size] elements. *)
Fixpoint chunks (n size : nat) (xs : list float) : list (list float) :=
  match n with
  | O => []
  | S n' => take size xs :: chunks n' size (drop size xs)
  end.

(** Iteration over the leading axis, [for v in t]. *)
Definition iter (t : Tensor) : result (list Tensor) :=
  match shape t with
  | [] => Raise (TypeError "iteration over a 0-d tensor")
  | n :: rest =>
      Ok (map (fun c => {| requires_grad := requires_grad t; shape := rest; values := c |})
              (chunks n (numel rest) (values t)))
  end.

(** [t.item()] *)
Definition item (t : Tensor) : result float :=
  match values t with
  | [x] => Ok x
  | _ => Raise (ValueError "only one element tensors can be converted to Python scalars")
  end.

(** [t.shape[0]] *)
Definition shape0 (t : Tensor) : result nat :=
  match shape t with
  | [] => Raise (IndexError "tuple index out of range")
  | n :: _ => Ok n
  end.

(** [enumerate(xs)] *)
Definition enumerate {A} (xs : list A) : list (nat * A) := imap (fun i x => (i, x)) xs.

End TensorOps.
Import TensorOps.

(** ** [Metrics] *)

Module Metrics.

(** What the engine consumes and does not define: the error-function
    registry of [nequip/train/_loss.py], the abbreviation table of
    [nequip/train/_key.py], [torch_runstats.RunningStats] and
    [Tensor.mean]. *)
Class Collaborators := {
  LossFn : Type;
  (** [find_loss_function(name, params)] *)
  find_loss_function : pyval -> list (string * pyval) -> result LossFn;
  (** [func(pred=pred, ref=ref, key=key, atomic_weight_on=False, mean=False)] *)
  call_loss : LossFn -> list (string * Tensor) -> list (string * Tensor) -> string -> result Tensor;
  RunningStats : Type;
  (** the constructor [RunningStats], called with the keyword arguments [kwargs] *)
  RunningStats_init : list (string * pyval) -> result RunningStats;
  (** [rs.to(device=error.device)] *)
  to_device : RunningStats -> Tensor -> RunningStats;
  (** [stat.dim] and [stat.output_dim], tuples *)
  dim : RunningStats -> list nat;
  output_dim : RunningStats -> list nat;
  (** [stat.accumulate_batch(batch, accumulate_by=...)]: the current
      aggregate and the statistic after the update *)
  accumulate_batch : RunningStats -> Tensor -> option Tensor -> result (Tensor * RunningStats);
  ABBREV : list (string * string);
  (** [value.mean()] *)
  mean : Tensor -> Tensor;
}.

(** A component spec: a bare key, or a tuple. *)
Inductive component :=
| CStr (key : string)
| CTuple (items : list pyval).

(** The calls the engine makes on [RunningStats], in order. *)
Inductive event `{Collaborators} :=
| Construct (key reduction : string) (kwargs : list (string * pyval))
| AccumulateBatch (key reduction : string) (stat : RunningStats) (batch : Tensor)
    (accumulate_by : option Tensor).

Record t `{Collaborators} := mk {
  running_stats : list (string * list (string * RunningStats));
  per_species : list (string * list (string * pyval));
  funcs : list (string * LossFn);
  kwargs : list (string * list (string * list (string * pyval)));
}.

Definition metrics_to_reduction : list (string * Reduction) :=
  [("mae", MEAN); ("rmse", RMS)].

(** [metrics_to_reduction.get(reduction, reduction)] *)
Definition to_reduction (reduction : string) : pyval :=
  match PyDict.get reduction metrics_to_reduction with
  | Some r => PReduction r
  | None => PStr reduction
  end.

(** [Metrics.parse]. The branches on [len(component)] are the shapes of the
    item list; [{k: deepcopy(v) for k, v in _params.items()}] rebuilds the
    dictionary item by item. *)
Definition parse (component : component)
  : result (pyval * pyval * list (string * pyval)) :=
  let reduction := PStr "mae" in
  let params := [] in
  match component with
  | CStr key => Ok (PStr key, reduction, params)
  | CTuple [key] => Ok (key, reduction, params)
  | CTuple [key; reduction] => Ok (key, reduction, params)
  | CTuple [key; reduction; _params] =>
      match _params with
      | PDict items => Ok (key, reduction, PyDict.update [] items)
      | _ => Raise (AttributeError "object has no attribute 'items'")
      end
  | CTuple items =>
      Raise (ValueError ("tuple should have a max length of 3 but "
                         ++ str_nat (length items) ++ " is given"))
  end.

(** The key a spec mentions and the error function it names: the key of the
    parsed spec, and its [functional] option or "L1Loss". *)
Definition mentions (component : component) : option string :=
  match parse component with
  | Ok (PStr key, _, _) => Some key
  | _ => None
  end.

Definition functional_of (component : component) : pyval :=
  match parse component with
  | Ok (_, _, params) => default (PStr "L1Loss") (PyDict.get "functional" params)
  | Raise _ => PStr "L1Loss"
  end.

(** The first spec of [components] that mentions [key]. *)
Fixpoint first_mention (key : string) (components : list component) : option component :=
  match components with
  | [] => None
  | component :: components' =>
      if decide (mentions component = Some key) then Some component
      else first_mention key components'
  end.

Section Engine.
Context `{Collaborators}.

Definition empty : t :=
  {| running_stats := []; per_species := []; funcs := []; kwargs := [] |}.

(** The four dictionaries of an engine have the same keys. *)
Definition aligned (self : t) : Prop :=
  forall k,
    PyDict.contains k (funcs self) = PyDict.contains k (running_stats self) /\
    PyDict.contains k (kwargs self) = PyDict.contains k (running_stats self) /\
    PyDict.contains k (per_species self) = PyDict.contains k (running_stats self).

(** The body of the loop of [__init__]. *)
Definition add_component (self : t) (component : component) : result t :=
  '(key, reduction, params) ← parse component;
  let '(functional, params) := PyDict.pop "functional" (PStr "L1Loss") params in
  let '(per_species_, params) := PyDict.pop "PerSpecies" (PBool false) params in
  key ← as_str key;
  reduction ← as_str reduction;
  self ←
    (if PyDict.contains key (running_stats self)
     then Ok self
     else
       f ← find_loss_function functional [];
       Ok {| running_stats := PyDict.set key [] (running_stats self);
             per_species := PyDict.set key [] (per_species self);
             funcs := PyDict.set key f (funcs self);
             kwargs := PyDict.set key [] (kwargs self) |});
  let kwargs_ := params in
  kw ← PyDict.getitem (KeyError key) key (kwargs self);
  ps ← PyDict.getitem (KeyError key) key (per_species self);
  let entry := PyDict.update [("reduction", to_reduction reduction)] kwargs_ in
  Ok {| running_stats := running_stats self;
        per_species := PyDict.set key (PyDict.set reduction per_species_ ps) (per_species self);
        funcs := funcs self;
        kwargs := PyDict.set key (PyDict.set reduction entry kw) (kwargs self) |}.

Fixpoint add_components (self : t) (components : list component) : result t :=
  match components with
  | [] => Ok self
  | component :: components' =>
      self ← add_component self component;
      add_components self components'
  end.

Definition __init__ (components : list component) : result t :=
  add_components empty components.

(** [error.shape[1:]] and [tuple(range(len(error.shape) - 1))] *)
Definition shape_tail (error : Tensor) : pyval :=
  PTuple (map (fun n => PInt (Z.of_nat n)) (tail (shape error))).

Definition leading_axes (error : Tensor) : pyval :=
  PTuple (map (fun n => PInt (Z.of_nat n)) (seq 0 (length (shape error) - 1))).

(** The keyword arguments [init_runstat] hands to [RunningStats]. *)
Definition runstat_kwargs (params : list (string * pyval)) (error : Tensor)
  : list (string * pyval) :=
  let kwargs := params in
  let kwargs :=
    if PyDict.contains "dim" kwargs then kwargs
    else PyDict.set "dim" (shape_tail error) kwargs in
  if PyDict.contains "reduce_dims" kwargs then kwargs
  else
    let '(report_per_component, kwargs) :=
      PyDict.pop "report_per_component" (PBool false) kwargs in
    if truthy report_per_component then kwargs
    else PyDict.set "reduce_dims" (leading_axes error) kwargs.

Definition init_runstat (params : list (string * pyval)) (error : Tensor)
  : result RunningStats :=
  rs ← RunningStats_init (runstat_kwargs params error);
  Ok (to_device rs error).

(** The state of one [__call__]: the engine, the [metrics] dictionary under
    construction, and the calls made on [RunningStats] so far. *)
Record world := mkWorld {
  self_ : t;
  metrics_ : list ((string * string) * Tensor);
  log : list event;
}.

Definition emit (e : event) : stateE world unit :=
  modify (fun w => {| self_ := self_ w; metrics_ := metrics_ w; log := log w ++ [e] |}).

(** [self.running_stats[key][reduction] = stat] *)
Definition set_stat (key reduction : string) (stat : RunningStats) : stateE world unit :=
  fun w =>
    match PyDict.get key (running_stats (self_ w)) with
    | None => (Raise (KeyError key), w)
    | Some stats =>
        (Ok tt,
         {| self_ :=
              {| running_stats :=
                   PyDict.set key (PyDict.set reduction stat stats) (running_stats (self_ w));
                 per_species := per_species (self_ w);
                 funcs := funcs (self_ w);
                 kwargs := kwargs (self_ w) |};
            metrics_ := metrics_ w;
            log := log w |})
    end.

(** [self.running_stats[key]] and [self.per_species[key][reduction]] *)
Definition get_stats (key : string) : stateE world (list (string * RunningStats)) :=
  fun w => (PyDict.getitem (KeyError key) key (running_stats (self_ w)), w).

Definition get_per_species (key reduction : string) : stateE world pyval :=
  fun w =>
    (ps ← PyDict.getitem (KeyError key) key (per_species (self_ w));
     PyDict.getitem (KeyError reduction) reduction ps, w).

(** The batch handed to [accumulate_batch]. *)
Definition batch_for (stat : RunningStats) (per_species_ : bool) (error : Tensor) : Tensor :=
  if bool_decide (dim stat = []) && negb per_species_ then flatten error else error.

(** The body of the inner loop of [__call__]. *)
Definition observe (pred : list (string * Tensor)) (key : string) (error : Tensor)
    (reduction : string) (kwargs_ : list (string * pyval)) : stateE world unit :=
  stats ← get_stats key;
  _ ← (if PyDict.contains reduction stats then mret tt
       else
         rs ← lift (init_runstat kwargs_ error);
         _ ← emit (Construct key reduction (runstat_kwargs kwargs_ error));
         set_stat key reduction rs);
  stats ← get_stats key;
  stat ← lift (PyDict.getitem (KeyError reduction) reduction stats);
  ps ← get_per_species key reduction;
  params ←
    (if truthy ps
     then
       by_ ← lift (PyDict.getitem (KeyError AtomicDataDict.SPECIES_INDEX_KEY)
                     AtomicDataDict.SPECIES_INDEX_KEY pred);
       mret (Some by_)
     else mret None);
  let batch := batch_for stat (truthy ps) error in
  _ ← emit (AccumulateBatch key reduction stat batch params);
  '(value, stat') ← lift (accumulate_batch stat batch params);
  _ ← set_stat key reduction stat';
  modify (fun w => {| self_ := self_ w;
                      metrics_ := PyDict.set (key, reduction) value (metrics_ w);
                      log := log w |}).

Fixpoint observe_all (pred : list (string * Tensor)) (key : string) (error : Tensor)
    (items : list (string * list (string * pyval))) : stateE world unit :=
  match items with
  | [] => mret tt
  | (reduction, kwargs_) :: items' =>
      _ ← observe pred key error reduction kwargs_;
      observe_all pred key error items'
  end.

(** The outer loop of [__call__], over [self.funcs.items()]. *)
Fixpoint call_keys (pred ref : list (string * Tensor)) (items : list (string * LossFn))
  : stateE world unit :=
  match items with
  | [] => mret tt
  | (key, func) :: items' =>
      error ← lift (call_loss func pred ref key);
      kw ← (fun w => (PyDict.getitem (KeyError key) key (kwargs (self_ w)), w));
      _ ← observe_all pred key error kw;
      call_keys pred ref items'
  end.

Definition __call__ (self : t) (pred ref : list (string * Tensor))
  : result (list ((string * string) * Tensor)) * world :=
  let w := {| self_ := self; metrics_ := []; log := [] |} in
  match call_keys pred ref (funcs self) w with
  | (Ok _, w') => (Ok (metrics_ w'), w')
  | (Raise e, w') => (Raise e, w')
  end.

(** The pair [(key, reduction)] has a statistic. *)
Definition has_stat (self : t) (key reduction : string) : Prop :=
  exists stats stat,
    PyDict.get key (running_stats self) = Some stats /\
    PyDict.get reduction stats = Some stat.

(** What a call on [RunningStats] made by [__call__] on [self], [pred] and
    [ref] must look like. *)
Definition expected (self : t) (pred ref : list (string * Tensor)) (ev : event) : Prop :=
  match ev with
  | Construct key reduction kw =>
      exists f error kws params,
        (key, f) ∈ funcs self /\ call_loss f pred ref key = Ok error /\
        PyDict.get key (kwargs self) = Some kws /\ (reduction, params) ∈ kws /\
        ~ has_stat self key reduction /\
        kw = runstat_kwargs params error
  | AccumulateBatch key reduction stat batch accumulate_by =>
      exists f error pss ps,
        (key, f) ∈ funcs self /\ call_loss f pred ref key = Ok error /\
        PyDict.get key (per_species self) = Some pss /\
        PyDict.get reduction pss = Some ps /\
        batch = batch_for stat (truthy ps) error
  end.

(** A state of [__call__] on [self0]: only statistics have been added, each
    addition is logged, and the log is as expected. *)
Definition stable (self0 : t) (pred ref : list (string * Tensor)) (w : world) : Prop :=
  funcs (self_ w) = funcs self0 /\
  kwargs (self_ w) = kwargs self0 /\
  per_species (self_ w) = per_species self0 /\
  (forall k r, has_stat self0 k r -> has_stat (self_ w) k r) /\
  (forall k r, has_stat (self_ w) k r ->
     has_stat self0 k r \/ exists kw, Construct k r kw ∈ log w) /\
  Forall (expected self0 pred ref) (log w).

(** [xs[i]] on a list *)
Definition index {A} (xs : list A) (i : nat) : result A :=
  match xs !! i with
  | Some x => Ok x
  | None => Raise (IndexError "list index out of range")
  end.

(** [f"{ele}_{item_name}"] and [f"{item_name}_{idx}"] *)
Definition prefixed (ele : label) (item_name : string) : string :=
  (str_label ele ++ "_" ++ item_name)%string.

Definition suffixed (item_name : string) (idx : nat) : string :=
  (item_name ++ "_" ++ str_nat idx)%string.

(** [for id_ele, v in enumerate(value)] of the scalar per-species branch. *)
Fixpoint flatten_species (element_names : list label) (item_name : string)
    (rows : list (nat * Tensor)) (flat_dict : list (string * float))
  : result (list (string * float)) :=
  match rows with
  | [] => Ok flat_dict
  | (id_ele, v) :: rows' =>
      x ← item v;
      ele ← index element_names id_ele;
      flatten_species element_names item_name rows'
        (PyDict.set (prefixed ele item_name) x flat_dict)
  end.

(** [for idx, v in enumerate(vec)] of the per-component per-species branch. *)
Fixpoint flatten_vec (ele : label) (item_name : string) (comps : list (nat * Tensor))
    (acc : list (string * float) * list string)
  : result (list (string * float) * list string) :=
  match comps with
  | [] => Ok acc
  | (idx, v) :: comps' =>
      let name := suffixed (prefixed ele item_name) idx in
      x ← item v;
      flatten_vec ele item_name comps' (PyDict.set name x acc.1, acc.2 ++ [name])
  end.

(** [for id_ele, vec in enumerate(value)] of that branch. *)
Fixpoint flatten_species_vec (element_names : list label) (item_name : string)
    (rows : list (nat * Tensor)) (acc : list (string * float) * list string)
  : result (list (string * float) * list string) :=
  match rows with
  | [] => Ok acc
  | (id_ele, vec) :: rows' =>
      ele ← index element_names id_ele;
      comps ← iter vec;
      acc ← flatten_vec ele item_name (enumerate comps) acc;
      flatten_species_vec element_names item_name rows' acc
  end.

(** [for idx, v in enumerate(value.flatten())] *)
Fixpoint flatten_components (item_name : string) (comps : list (nat * Tensor))
    (flat_dict : list (string * float)) : result (list (string * float)) :=
  match comps with
  | [] => Ok flat_dict
  | (idx, v) :: comps' =>
      x ← item v;
      flatten_components item_name comps' (PyDict.set (suffixed item_name idx) x flat_dict)
  end.

(** [short_name = ABBREV.get(key, key)] and
    [item_name = f"{short_name}_{reduction}"] *)
Definition item_name_of (key reduction : string) : string :=
  let short_name := default key (PyDict.get key ABBREV) in
  (short_name ++ "_" ++ reduction)%string.

(** The body of the loop of [flatten_metrics]. *)
Definition flatten_item (self : t) (allowed_species : option (list label))
    (k : string * string) (value : Tensor) (acc : list (string * float) * list string)
  : result (list (string * float) * list string) :=
  let '(key, reduction) := k in
  let item_name := item_name_of key reduction in
  stats ← PyDict.getitem (KeyError key) key (running_stats self);
  stat ← PyDict.getitem (KeyError reduction) reduction stats;
  ps ← PyDict.getitem (KeyError key) key (per_species self);
  per_species_ ← PyDict.getitem (KeyError reduction) reduction ps;
  if truthy per_species_ then
    element_names ←
      match allowed_species with
      | None => n ← shape0 value; Ok (map (fun i => LInt (Z.of_nat i)) (seq 0 n))
      | Some names => Ok names
      end;
    if bool_decide (output_dim stat = []) then
      rows ← iter value;
      flat_dict ← flatten_species element_names item_name (enumerate rows) acc.1;
      x ← item (mean value);
      Ok (PyDict.set ("all_" ++ item_name)%string x flat_dict, acc.2)
    else
      rows ← iter value;
      flatten_species_vec element_names item_name (enumerate rows) acc
  else
    if bool_decide (output_dim stat = []) then
      x ← item value;
      Ok (PyDict.set item_name x acc.1, acc.2)
    else
      comps ← iter (flatten value);
      flat_dict ← flatten_components item_name (enumerate comps) acc.1;
      Ok (flat_dict, acc.2).

Fixpoint flatten_items (self : t) (allowed_species : option (list label))
    (items : list ((string * string) * Tensor)) (acc : list (string * float) * list string)
  : result (list (string * float) * list string) :=
  match items with
  | [] => Ok acc
  | (k, value) :: items' =>
      acc ← flatten_item self allowed_species k value acc;
      flatten_items self allowed_species items' acc
  end.

(** The entries a per-species pair with aggregate [value] and statistic
    [stat] has in [flat_dict] and [skip_keys]: one per species, and the
    "all_" entry, for a scalar statistic; one per species and component,
    each also in [skip_keys], otherwise. *)
Definition per_species_entries (allowed_species : option (list label))
    (key reduction : string) (value : Tensor) (stat : RunningStats)
    (flat_dict : list (string * float)) (skip_keys : list string) : Prop :=
  exists element_names rows,
    iter value = Ok rows /\
    element_names =
      match allowed_species with
      | Some names => names
      | None => map (fun i => LInt (Z.of_nat i)) (seq 0 (length rows))
      end /\
    if bool_decide (output_dim stat = []) then
      (forall i v, rows !! i = Some v ->
         exists ele, element_names !! i = Some ele /\
           PyDict.contains (prefixed ele (item_name_of key reduction)) flat_dict = true) /\
      PyDict.contains ("all_" ++ item_name_of key reduction)%string flat_dict = true
    else
      forall i vec, rows !! i = Some vec ->
        exists ele comps, element_names !! i = Some ele /\ iter vec = Ok comps /\
          forall idx v, comps !! idx = Some v ->
            PyDict.contains (suffixed (prefixed ele (item_name_of key reduction)) idx)
                            flat_dict = true /\
            suffixed (prefixed ele (item_name_of key reduction)) idx ∈ skip_keys.

(** [flatten_metrics]: the pair [(flat_dict, skip_keys)]. *)
Definition flatten_metrics (self : t) (metrics : list ((string * string) * Tensor))
    (allowed_species : option (list label))
  : result (list (string * float) * list string) :=
  flatten_items self allowed_species metrics ([], []).

(** The pair [(key, reduction)] is configured: [key] has an error function
    and [reduction] is listed under it in [kwargs]. *)
Definition tracked (self : t) (key reduction : string) : Prop :=
  exists f kws,
    (key, f) ∈ funcs self /\ PyDict.get key (kwargs self) = Some kws /\
    PyDict.contains reduction kws = true.

(** The [accumulate_by] argument of a pair whose per-species option is
    [ps]: [pred["species_index"]] when the option is true, none otherwise. *)
Definition grouping (pred : list (string * Tensor)) (ps : pyval)
    (accumulate_by : option Tensor) : Prop :=
  if truthy ps
  then exists species,
         PyDict.get AtomicDataDict.SPECIES_INDEX_KEY pred = Some species /\
         accumulate_by = Some species
  else accumulate_by = None.

(** A state of [__call__] on [self0] and [pred]: every batch accumulated so
    far was grouped as its pair asks, and every entry of [metrics] is the
    answer of a logged [accumulate_batch]. *)
Definition accounted (self0 : t) (pred : list (string * Tensor)) (w : world) : Prop :=
  Forall (fun ev =>
            match ev with
            | AccumulateBatch key reduction stat batch by_ =>
                exists pss ps,
                  PyDict.get key (per_species self0) = Some pss /\
                  PyDict.get reduction pss = Some ps /\ grouping pred ps by_
            | Construct _ _ _ => True
            end) (log w) /\
  forall key reduction value, PyDict.get (key, reduction) (metrics_ w) = Some value ->
    exists stat batch by_ stat',
      AccumulateBatch key reduction stat batch by_ ∈ log w /\
      accumulate_batch stat batch by_ = Ok (value, stat').

(** The invariant of an engine: the four dictionaries have the same keys,
    [kwargs] and [per_species] list the same reductions under every key, a
    statistic exists only for a configured pair, and, as in any [dict], no
    key is listed twice in [running_stats]. *)
Definition consistent (self : t) : Prop :=
  aligned self /\
  (forall key kws, PyDict.get key (kwargs self) = Some kws ->
     exists pss, PyDict.get key (per_species self) = Some pss /\
                 forall reduction, PyDict.contains reduction pss = PyDict.contains reduction kws) /\
  (forall key reduction, has_stat self key reduction -> tracked self key reduction) /\
  NoDup (running_stats self).*1 /\
  (forall key stats, PyDict.get key (running_stats self) = Some stats -> NoDup stats.*1).

(** A step of [__call__] that keeps the property [I] of the engine,
    whatever its outcome. *)
Definition keeps {A} (I : t -> Prop) (m : stateE world A) : Prop :=
  forall w r w', I (self_ w) -> m w = (r, w') -> I (self_ w').

(** The engine in the course of a call on [self0]: consistent, with the
    configuration of [self0] and the keys of its [running_stats]. *)
Definition during (self0 self : t) : Prop :=
  consistent self /\ funcs self = funcs self0 /\ kwargs self = kwargs self0 /\
  per_species self = per_species self0 /\
  forall key, PyDict.contains key (running_stats self) = PyDict.contains key (running_stats self0).


(** The names [flatten_metrics] writes into [flat_dict] for the pair
    [(key, reduction)], by the branch the pair takes: with or without
    per-species grouping, for a scalar statistic or not. *)
Definition written_for (key reduction : string) (per_species_ scalar : bool) (n : string)
  : Prop :=
  let item_name := item_name_of key reduction in
  if per_species_ then
    if scalar
    then (exists ele, n = prefixed ele item_name) \/ n = ("all_" ++ item_name)%string
    else exists ele idx, n = suffixed (prefixed ele item_name) idx
  else
    if scalar then n = item_name
    else exists idx, n = suffixed item_name idx.

End Engine.

(** The methods of [RunningStats] that [reset], [to] and [current_result]
    call. As for [accumulate_batch], a method that raises leaves the
    statistic as it was. *)
Class Methods `{Collaborators} := {
  Device : Type;
  (** [stat.reset()] *)
  RunningStats_reset : RunningStats -> result RunningStats;
  (** [stat.to(device=device)] *)
  RunningStats_to : RunningStats -> Device -> result RunningStats;
  (** [stat.current_result()] *)
  RunningStats_current_result : RunningStats -> result Tensor;
}.

Section Maintenance.
Context `{Methods}.

(** [for stat in stats.values(): f(stat)], the statistics being updated in
    place: the outcome and the dictionary after the loop, which stops at
    the first statistic on which [f] raises. *)
Fixpoint each_stat (f : RunningStats -> result RunningStats)
    (stats : list (string * RunningStats)) : result unit * list (string * RunningStats) :=
  match stats with
  | [] => (Ok tt, [])
  | (reduction, stat) :: stats' =>
      match f stat with
      | Ok stat' =>
          let '(r, stats'') := each_stat f stats' in (r, (reduction, stat') :: stats'')
      | Raise e => (Raise e, (reduction, stat) :: stats')
      end
  end.

(** [for stats in self.running_stats.values(): ...] *)
Fixpoint each_key (f : RunningStats -> result RunningStats)
    (running_stats : list (string * list (string * RunningStats)))
  : result unit * list (string * list (string * RunningStats)) :=
  match running_stats with
  | [] => (Ok tt, [])
  | (key, stats) :: rest =>
      match each_stat f stats with
      | (Ok _, stats') =>
          let '(r, rest') := each_key f rest in (r, (key, stats') :: rest')
      | (Raise e, stats') => (Raise e, (key, stats') :: rest)
      end
  end.

(** The two nested loops that [reset] and [to] share. *)
Definition for_each_stat (f : RunningStats -> result RunningStats) : stateE t unit :=
  fun self =>
    let '(r, running_stats') := each_key f (running_stats self) in
    (r, {| running_stats := running_stats';
           per_species := per_species self;
           funcs := funcs self;
           kwargs := kwargs self |}).

Definition reset : stateE t unit := for_each_stat RunningStats_reset.

Definition to (device : Device) : stateE t unit :=
  for_each_stat (fun stat => RunningStats_to stat device).

(** The inner and the outer loop of [current_result]. *)
Fixpoint current_stats (key : string) (stats : list (string * RunningStats))
    (metrics : list ((string * string) * Tensor)) : result (list ((string * string) * Tensor)) :=
  match stats with
  | [] => Ok metrics
  | (reduction, stat) :: stats' =>
      value ← RunningStats_current_result stat;
      current_stats key stats' (PyDict.set (key, reduction) value metrics)
  end.

Fixpoint current_keys (running_stats : list (string * list (string * RunningStats)))
    (metrics : list ((string * string) * Tensor)) : result (list ((string * string) * Tensor)) :=
  match running_stats with
  | [] => Ok metrics
  | (key, stats) :: rest =>
      metrics ← current_stats key stats metrics;
      current_keys rest metrics
  end.

Definition current_result (self : t) : result (list ((string * string) * Tensor)) :=
  current_keys (running_stats self) [].

(** What [reset] and [to], which apply the method [f] to every statistic,
    leave of the engine [self] on the outcome [r]: the configuration and the
    pairs that have a statistic are as before, and every statistic is as
    [f] left it, or untouched when the loop stopped before it. *)
Definition maintained (f : RunningStats -> result RunningStats)
    (self : t) (r : result unit) (self' : t) : Prop :=
  funcs self' = funcs self /\ kwargs self' = kwargs self /\
  per_species self' = per_species self /\
  (forall key reduction, has_stat self' key reduction <-> has_stat self key reduction) /\
  (forall key reduction stats stat stats' stat',
     PyDict.get key (running_stats self) = Some stats -> PyDict.get reduction stats = Some stat ->
     PyDict.get key (running_stats self') = Some stats' ->
     PyDict.get reduction stats' = Some stat' ->
     (stat' = stat \/ f stat = Ok stat') /\ (r = Ok tt -> f stat = Ok stat')).

End Maintenance.

End Metrics.

(** ** Concrete models, engines and batches *)

Module Example.

Import GradientOutput.

(** No compatibility constraint on the irreps. *)
Definition accept (irreps_in my_irreps_in : gmap string (option Irreps)) : bool := true.

(** An engine that answers, for the [i]-th input, a gradient of the input's
    shape filled with [i + 1]. *)
Definition grad_by_index (s : store) (y : loc) (inputs : list loc) (create_graph : bool)
  : result (list (option Tensor)) :=
  Ok (imap (fun i x =>
              (fun t => {| requires_grad := create_graph;
                           shape := shape t;
                           values := map (fun _ => float_of_Z (Z.of_nat (S i))) (values t) |})
                <$> tensors s !! x)
           inputs).

(** An engine that reports no gradient for any input. *)
Definition grad_undefined (s : store) (y : loc) (inputs : list loc) (create_graph : bool)
  : result (list (option Tensor)) :=
  Ok (map (fun _ => None) inputs).

Definition energy : Tensor :=
  {| requires_grad := true; shape := [2; 1]; values := [1%float; 2%float] |}.

(** A model that writes the energy into the dictionary it is given and
    returns that dictionary. *)
Definition energy_call (data : loc) : stateE store loc :=
  e ← new_tensor energy;
  _ ← setitem data "total_energy" e;
  mret data.

Definition energy_model : GraphModuleMixin.t :=
  {| GraphModuleMixin.irreps_in := {[ "positions" := Some Irreps_1o ]};
     GraphModuleMixin.irreps_out :=
       <[ "total_energy" := Some Irreps_0e ]> {[ "positions" := Some Irreps_1o ]};
     GraphModuleMixin.call := energy_call |}.

Definition positions : Tensor :=
  {| requires_grad := false; shape := [2; 3];
     values := [1%float; 0%float; 0%float; 0%float; 2%float; 0%float] |}.

(** One batch: the dictionary object [0] holds the tensor object [0] under
    "positions". *)
Definition batch : store :=
  {| tensors := {[ 0 := positions ]};
     dicts := {[ 0 := {[ "positions" := 0 ]} ]} |}.

(** A model with two inputs, of different types. *)
Definition pair_model : GraphModuleMixin.t :=
  {| GraphModuleMixin.irreps_in :=
       <[ "b" := Some Irreps_0e ]> {[ "a" := Some Irreps_1o ]};
     GraphModuleMixin.irreps_out :=
       <[ "total_energy" := Some Irreps_0e ]>
         (<[ "b" := Some Irreps_0e ]> {[ "a" := Some Irreps_1o ]});
     GraphModuleMixin.call := energy_call |}.


(** A model that answers with a new dictionary holding the energy alone. *)
Definition fresh_dict_call (data : loc) : stateE store loc :=
  e ← new_tensor energy;
  ((fun s =>
      let d := fresh (dom (dicts s)) in
      (Ok d, {| tensors := tensors s; dicts := <[ d := {[ "total_energy" := e ]} ]> (dicts s) |}))
   : stateE store loc).

Definition fresh_dict_model : GraphModuleMixin.t :=
  {| GraphModuleMixin.irreps_in := {[ "positions" := Some Irreps_1o ]};
     GraphModuleMixin.irreps_out := {[ "total_energy" := Some Irreps_0e ]};
     GraphModuleMixin.call := fresh_dict_call |}.

(** A wrapper over [pair_model] whose two gradients are given one name. *)
Definition same_name : result GradientOutput.t :=
  __init__ accept pair_model "total_energy" (Strs ["a"; "b"]) (Some (Strs ["g"; "g"])) (Float 1%float).

(** A wrapper over [pair_model] with distinct names. *)
Definition two_names : result GradientOutput.t :=
  __init__ accept pair_model "total_energy" (Strs ["a"; "b"]) (Some (Strs ["ga"; "gb"])) (Float 1%float).

Definition force_output : result GradientOutput.t := ForceOutput accept energy_model.

(** A wrapper that names "positions" twice in [wrt]. *)
Definition repeated_wrt : result GradientOutput.t :=
  __init__ accept energy_model "total_energy" (Strs ["positions"; "positions"]) None
           (Float 1%float).

Definition fresh_dict_output : result GradientOutput.t := ForceOutput accept fresh_dict_model.



(** The store once the flags are forced, and once the wrapped model has
    run. *)
Definition prepared (self : GradientOutput.t) (data : loc) (s : store) : store :=
  (set_requires_grad data (wrt self) [] [] s).2.

Definition after_model (self : GradientOutput.t) (data : loc) (s : store) : store :=
  (GraphModuleMixin.call (func self) data (prepared self data s)).2.

(** The wrapper [r] built, or a wrapper with no fields to differentiate. *)
Definition built (r : result GradientOutput.t) : GradientOutput.t :=
  match r with
  | Ok w => w
  | Raise _ =>
      {| sign := 1%float; of_ := ""; wrt := []; func := energy_model; out_field := [];
         GradientOutput.irreps_in := ∅; GradientOutput.irreps_out := ∅; training := true |}
  end.

(** *** An engine over the absolute error and a last-batch statistic *)

Inductive loss := L1Loss | MSELoss.

Definition find_loss (name : pyval) (params : list (string * pyval)) : result loss :=
  match name with
  | PStr s =>
      if String.eqb s "L1Loss" then Ok L1Loss
      else if String.eqb s "MSELoss" then Ok MSELoss
      else Raise (NameError "unknown loss function")
  | _ => Raise (NameError "unknown loss function")
  end.

Definition elementwise (f : loss) (x y : float) : float :=
  match f with
  | L1Loss => PrimFloat.abs (x - y)
  | MSELoss => ((x - y) * (x - y))%float
  end.

Definition call (f : loss) (pred ref : list (string * Tensor)) (key : string) : result Tensor :=
  p ← PyDict.getitem (KeyError key) key pred;
  r ← PyDict.getitem (KeyError key) key ref;
  Ok {| requires_grad := false; shape := shape p;
        values := zip_with (elementwise f) (values p) (values r) |}.

(** A statistic that remembers its declared dimension, the dimension of its
    result and how many batches it has seen; its aggregate is the batch it
    saw last. *)
Record last_batch := mkLastBatch {
  declared : list nat;
  reported : list nat;
  seen : nat;
}.

Definition as_dims (v : pyval) : list nat :=
  match v with
  | PInt z => [Z.to_nat z]
  | PTuple items =>
      omap (fun x => match x with PInt z => Some (Z.to_nat z) | _ => None end) items
  | _ => []
  end.

Definition new_last_batch (kwargs : list (string * pyval)) : result last_batch :=
  if PyDict.contains "report_per_component" kwargs
  then Raise (TypeError "unexpected keyword argument 'report_per_component'")
  else
    let d := as_dims (default (PInt 1) (PyDict.get "dim" kwargs)) in
    let reduced := as_dims (default (PTuple []) (PyDict.get "reduce_dims" kwargs)) in
    Ok {| declared := d;
          reported := if bool_decide (reduced = []) then d else [];
          seen := 0 |}.

Definition see (stat : last_batch) (batch : Tensor) (accumulate_by : option Tensor)
  : result (Tensor * last_batch) :=
  Ok (batch, {| declared := declared stat; reported := reported stat; seen := S (seen stat) |}).

Definition average (t : Tensor) : Tensor :=
  {| requires_grad := false; shape := [];
     values := [(foldr PrimFloat.add 0%float (values t)
                 / float_of_Z (Z.of_nat (length (values t))))%float] |}.

Definition simple_engine : Metrics.Collaborators :=
  {| Metrics.LossFn := loss;
     Metrics.find_loss_function := find_loss;
     Metrics.call_loss := call;
     Metrics.RunningStats := last_batch;
     Metrics.RunningStats_init := new_last_batch;
     Metrics.to_device := fun rs _ => rs;
     Metrics.dim := declared;
     Metrics.output_dim := reported;
     Metrics.accumulate_batch := see;
     Metrics.ABBREV := [("forces", "f"); ("total_energy", "e")];
     Metrics.mean := average |}.

(** Forces of two atoms, of species 0 and 1, against zero references. *)
Definition forces : Tensor :=
  {| requires_grad := false; shape := [2; 3];
     values := [1%float; 0%float; 0%float; 0%float; 2%float; 0%float] |}.

Definition zeros : Tensor :=
  {| requires_grad := false; shape := [2; 3];
     values := [0%float; 0%float; 0%float; 0%float; 0%float; 0%float] |}.

Definition species : Tensor :=
  {| requires_grad := false; shape := [2]; values := [0%float; 1%float] |}.

Definition pred : list (string * Tensor) := [("forces", forces); ("species_index", species)].
Definition ref : list (string * Tensor) := [("forces", zeros)].

(** Per-species RMSE of the forces, component by component. *)
Definition per_species_components : list Metrics.component :=
  [Metrics.CTuple [PStr "forces"; PStr "rmse";
                   PDict [("PerSpecies", PBool true); ("report_per_component", PBool true)]]].

(** Per-species MAE of the forces, over all components. *)
Definition per_species_scalar : list Metrics.component :=
  [Metrics.CTuple [PStr "forces"; PStr "mae"; PDict [("PerSpecies", PBool true); ("dim", PTuple [])]]].

(** MAE and RMSE of the forces, the second naming another error function. *)
Definition two_reductions : list Metrics.component :=
  [Metrics.CTuple [PStr "forces"; PStr "mae"];
   Metrics.CTuple [PStr "forces"; PStr "rmse"; PDict [("functional", PStr "MSELoss")]]].

(** A per-species aggregate of a scalar statistic: one value per species. *)
Definition species_mae : list ((string * string) * Tensor) :=
  [(("forces", "mae"),
    {| requires_grad := false; shape := [2]; values := [0.5%float; 1%float] |})].

(** The report [r], or the empty report. *)
Definition report_of (r : result (list (string * float) * list string))
  : list (string * float) * list string :=
  match r with
  | Ok report => report
  | Raise _ => ([], [])
  end.

(** The engine built from [components], or the empty engine. *)
Definition engine (components : list Metrics.component) : @Metrics.t simple_engine :=
  match @Metrics.__init__ simple_engine components with
  | Ok m => m
  | Raise _ => @Metrics.empty simple_engine
  end.

(** The engine after one call on [pred] and [ref], and the metrics of that
    call. *)
Definition engine_after_call (components : list Metrics.component) : @Metrics.t simple_engine :=
  Metrics.self_ (@Metrics.__call__ simple_engine (engine components) pred ref).2.

Definition metrics_of_call (components : list Metrics.component)
  : list ((string * string) * Tensor) :=
  match (@Metrics.__call__ simple_engine (engine components) pred ref).1 with
  | Ok m => m
  | Raise _ => []
  end.

(** *** Further wrappers, batches and methods *)

(** Two fields to differentiate by and one name for the gradients. *)
Definition one_name_for_two : result GradientOutput.t :=
  __init__ accept pair_model "total_energy" (Strs ["a"; "b"]) (Some (Str "g")) (Float 1%float).

(** A wrapper over [pair_model] with the default names. *)
Definition default_names : result GradientOutput.t :=
  __init__ accept pair_model "total_energy" (Strs ["a"; "b"]) None (Float 1%float).

(** A batch that holds "a" and lacks "b". *)
Definition half_batch : store :=
  {| tensors := {[ 0 := positions ]}; dicts := {[ 0 := {[ "a" := 0 ]} ]} |}.

(** The other methods of the last-batch statistic: [reset] forgets the
    batches seen, [to] leaves the statistic as it is, and the current result
    is the number of batches seen. *)
Definition forget (stat : last_batch) : result last_batch :=
  Ok {| declared := declared stat; reported := reported stat; seen := 0 |}.

Definition move (stat : last_batch) (device : string) : result last_batch := Ok stat.

Definition batches_seen (stat : last_batch) : result Tensor :=
  Ok {| requires_grad := false; shape := [];
        values := [float_of_Z (Z.of_nat (seen stat))] |}.

Definition simple_methods : @Metrics.Methods simple_engine :=
  @Metrics.Build_Methods simple_engine string forget move batches_seen.

(** An aggregate of a scalar statistic over the whole batch. *)
Definition whole_mae : list ((string * string) * Tensor) :=
  [(("forces", "mae"), {| requires_grad := false; shape := []; values := [0.5%float] |})].

(** The current results [r], or none. *)
Definition results_of (r : result (list ((string * string) * Tensor)))
  : list ((string * string) * Tensor) :=
  match r with
  | Ok m => m
  | Raise _ => []
  end.

End Example.

(** * Proofs *)

(** ** The monads and the store *)

Module MonadFacts.

Lemma bind_Ok {S A B} (m : stateE S A) (f : A -> stateE S B) s b s' :
  (m ≫= f) s = (Ok b, s') ->
  exists a s1, m s = (Ok a, s1) /\ f a s1 = (Ok b, s').
Proof.
  unfold mbind, stateE_bind. destruct (m s) as [[a | e] s1]; [eauto | discriminate].
Qed.

Lemma bind_run {S A B} (m : stateE S A) (f : A -> stateE S B) s a s1 :
  m s = (Ok a, s1) -> (m ≫= f) s = f a s1.
Proof. unfold mbind, stateE_bind. intros ->. reflexivity. Qed.

Lemma bind_fail {S A B} (m : stateE S A) (f : A -> stateE S B) s e s1 :
  m s = (Raise e, s1) -> (m ≫= f) s = (Raise e, s1).
Proof. unfold mbind, stateE_bind. intros ->. reflexivity. Qed.

Lemma result_bind_Ok {A B} (m : result A) (f : A -> result B) b :
  m ≫= f = Ok b -> exists a, m = Ok a /\ f a = Ok b.
Proof. destruct m; [eauto | discriminate]. Qed.

End MonadFacts.
Import MonadFacts.

Module StoreFacts.

Lemma getitem_Ok d k s x s' :
  getitem d k s = (Ok x, s') -> s' = s /\ fields s d !! k = Some x.
Proof.
  unfold getitem, fields, dangling, raise.
  destruct (dicts s !! d) as [m|]; [|discriminate]. simpl.
  destruct (m !! k); [|discriminate]. intros [= -> ->]. done.
Qed.

Lemma getitem_fields d k s x :
  fields s d !! k = Some x -> getitem d k s = (Ok x, s).
Proof.
  unfold getitem, fields.
  destruct (dicts s !! d) as [m|]; simpl; [|by rewrite lookup_empty].
  by intros ->.
Qed.

Lemma requires_grad__Ok x b s s' :
  requires_grad_ x b s = (Ok tt, s') ->
  dicts s' = dicts s /\
  exists t, tensors s !! x = Some t /\
    tensors s' = <[x := {| requires_grad := b; shape := shape t; values := values t |}]> (tensors s).
Proof.
  unfold requires_grad_, dangling, raise.
  destruct (tensors s !! x) as [t|]; [|discriminate].
  intros [= <-]. simpl. eauto.
Qed.

Lemma requires_grad__run x b s t :
  tensors s !! x = Some t ->
  requires_grad_ x b s =
    (Ok tt, {| tensors := <[x := {| requires_grad := b; shape := shape t; values := values t |}]> (tensors s);
               dicts := dicts s |}).
Proof. unfold requires_grad_. by intros ->. Qed.

Lemma get_requires_grad_Ok x b s s' :
  get_requires_grad x s = (Ok b, s') -> s' = s /\ flag s x = Some b.
Proof.
  unfold get_requires_grad, flag, dangling, raise.
  destruct (tensors s !! x) as [t|]; [|discriminate].
  by intros [= <- <-].
Qed.

Lemma fields_dicts s d m : dicts s !! d = Some m -> fields s d = m.
Proof. unfold fields. by intros ->. Qed.

Lemma fields_lookup_dicts s d k x :
  fields s d !! k = Some x -> exists m, dicts s !! d = Some m.
Proof.
  unfold fields. destruct (dicts s !! d); simpl; [eauto | by rewrite lookup_empty].
Qed.

End StoreFacts.
Import StoreFacts.

(** ** The loops of [GradientOutput] *)

Module GradientOutputFacts.
Import GradientOutput.

Lemma update_cons {V} (m : gmap string V) k v kvs :
  update m ((k, v) :: kvs) = update (<[k := v]> m) kvs.
Proof. reflexivity. Qed.

Lemma update_lookup_notin {V} (kvs : list (string * V)) : forall (m : gmap string V) k,
  k ∉ kvs.*1 -> update m kvs !! k = m !! k.
Proof.
  induction kvs as [|[k' v] kvs IH]; intros m k Hk; [done|].
  rewrite update_cons. simpl in Hk. apply not_elem_of_cons in Hk as [Hne Hk].
  rewrite IH by done. by rewrite lookup_insert_ne.
Qed.

Lemma update_lookup_NoDup {V} (kvs : list (string * V)) : forall (m : gmap string V) i k v,
  NoDup kvs.*1 -> kvs !! i = Some (k, v) -> update m kvs !! k = Some v.
Proof.
  induction kvs as [|[k' v'] kvs IH]; intros m i k v Hnd Hi; [done|].
  rewrite update_cons. simpl in Hnd. apply NoDup_cons in Hnd as [Hnotin Hnd].
  destruct i as [|i]; simpl in Hi.
  - injection Hi as -> ->. rewrite update_lookup_notin by done. apply lookup_insert_eq.
  - by eapply IH.
Qed.



Lemma zip_fst_lookup {A B} (ks : list A) (vs : list B) i k :
  (zip ks vs).*1 !! i = Some k -> ks !! i = Some k.
Proof.
  rewrite list_lookup_fmap. destruct (zip ks vs !! i) as [[k' v]|] eqn:Hz; [|done].
  apply lookup_zip_with_Some in Hz as (? & ? & [= <- <-] & Hk & _). by intros [= <-].
Qed.


Lemma zip_fst_take {A B} (ks : list A) : forall (vs : list B),
  (zip ks vs).*1 = take (length vs) ks.
Proof.
  induction ks as [|k ks IH]; intros [|v vs]; simpl; try done.
  by rewrite <- IH.
Qed.

Section Loops.
Variable data : loc.

Lemma set_requires_grad_Ok wrt : forall ts bs s r s1,
  set_requires_grad data wrt ts bs s = (Ok r, s1) ->
  dicts s1 = dicts s /\
  exists xs olds, r = (ts ++ xs, bs ++ olds) /\
    Forall2 (fun k x => fields s data !! k = Some x) wrt xs /\
    length olds = length xs /\
    (NoDup xs -> Forall2 (fun x b => flag s x = Some b) xs olds).
Proof.
  induction wrt as [|k wrt IH]; intros ts bs s r s1 Hrun; simpl in Hrun.
  - injection Hrun as <- <-. split; [done|].
    exists [], []. rewrite !app_nil_r. repeat split; auto using Forall2_nil.
  - apply bind_Ok in Hrun as (x & s0 & Hget & Hrun).
    apply getitem_Ok in Hget as [-> Hx].
    apply bind_Ok in Hrun as (b & s0 & Hflag & Hrun).
    apply get_requires_grad_Ok in Hflag as [-> Hb].
    apply bind_Ok in Hrun as ([] & s0 & Hset & Hrun).
    apply requires_grad__Ok in Hset as (Hd & t & Ht & Hts).
    apply IH in Hrun as (Hd1 & xs & olds & -> & Hxs & Hlen & Hflags).
    split; [congruence|].
    exists (x :: xs), (b :: olds). rewrite <- !app_assoc. simpl.
    repeat split; [| lia |].
    + constructor; [done|].
      eapply Forall2_impl; [exact Hxs|]. intros k' x'. unfold fields. by rewrite Hd.
    + intros Hnd. apply NoDup_cons in Hnd as [Hnotin Hnd].
      constructor; [done|].
      specialize (Hflags Hnd).
      apply Forall2_same_length_lookup. split; [by apply Forall2_length in Hflags|].
      intros i x' b' Hx' Hb'.
      pose proof (Forall2_lookup_lr _ _ _ _ _ _ Hflags Hx' Hb') as Hf.
      unfold flag in *. rewrite Hts in Hf.
      rewrite lookup_insert_ne in Hf; [done|].
      intros ->. apply Hnotin. by eapply list_elem_of_lookup_2.
Qed.

Lemma unset_requires_grad_flags pairs : forall s s',
  unset_requires_grad data pairs s = (Ok tt, s') ->
  dicts s' = dicts s /\
  exists xs,
    Forall2 (fun p x => fields s data !! p.2 = Some x) pairs xs /\
    (forall y, y ∉ xs -> tensors s' !! y = tensors s !! y) /\
    (NoDup xs -> Forall2 (fun p x => flag s' x = Some p.1) pairs xs).
Proof.
  induction pairs as [|[b k] pairs IH]; intros s s' Hrun; simpl in Hrun.
  - injection Hrun as <-. split; [done|]. exists []. repeat split; auto using Forall2_nil.
  - apply bind_Ok in Hrun as (x & s0 & Hget & Hrun).
    apply getitem_Ok in Hget as [-> Hx].
    apply bind_Ok in Hrun as ([] & s0 & Hset & Hrun).
    apply requires_grad__Ok in Hset as (Hd & t & Ht & Hts).
    apply IH in Hrun as (Hd1 & xs & Hxs & Hother & Hflags).
    split; [congruence|].
    exists (x :: xs). repeat split.
    + constructor; [done|].
      eapply Forall2_impl; [exact Hxs|]. intros k' x'. unfold fields. by rewrite Hd.
    + intros y Hy. apply not_elem_of_cons in Hy as [Hne Hy].
      rewrite (Hother y Hy), Hts. by rewrite lookup_insert_ne.
    + intros Hnd. apply NoDup_cons in Hnd as [Hnotin Hnd].
      constructor; [|by apply Hflags].
      simpl. unfold flag. rewrite (Hother x Hnotin), Hts, lookup_insert_eq. done.
Qed.

End Loops.
Lemma store_grads_spec sign d pairs : forall s m,
  dicts s !! d = Some m ->
  exists s4 ps,
    length ps <= length pairs /\
    Forall2 (fun p pr => exists g, pr.2 = Some g /\ tensors s4 !! p = Some (mul_scalar sign g))
            ps (take (length ps) pairs) /\
    dicts s4 = <[d := update m (zip (pairs.*1) ps)]> (dicts s) /\
    (forall x t, tensors s !! x = Some t -> tensors s4 !! x = Some t) /\
    store_grads sign d pairs s =
      (if decide (length ps = length pairs) then Ok tt else Raise GradientUnavailable, s4) /\
    (length ps < length pairs -> exists o, pairs !! length ps = Some (o, None)).
Proof.
  induction pairs as [|[o [g|]] pairs IH]; intros s m Hd.
  - exists s, []. simpl. repeat split; auto using Forall2_nil; [|lia].
    by rewrite insert_id.
  - set (p := fresh (dom (tensors s))).
    set (sa := {| tensors := <[p := mul_scalar sign g]> (tensors s);
                  dicts := <[d := <[o := p]> m]> (dicts s) |}).
    assert (Hda : dicts sa !! d = Some (<[o := p]> m)) by apply lookup_insert_eq.
    destruct (IH sa _ Hda) as (s4 & ps & Hlen & Hps & Hd4 & Hkeep & Hrun & Hnone).
    assert (Hfresh : tensors s !! p = None).
    { apply not_elem_of_dom. apply is_fresh. }
    exists s4, (p :: ps). simpl. repeat split.
    + lia.
    + constructor; [|done]. exists g. split; [done|].
      apply Hkeep. apply lookup_insert_eq.
    + rewrite Hd4. simpl. by rewrite insert_insert_eq.
    + intros x t Hx. apply Hkeep. simpl. rewrite lookup_insert_ne; [done|].
      intros ->. congruence.
    + unfold mbind, stateE_bind, new_tensor, setitem. simpl. rewrite Hd.
      fold p. fold sa. rewrite Hrun.
      destruct (decide (length ps = length pairs)), (decide (S (length ps) = S (length pairs)));
        try done; lia.
    + intros Hlt. apply Hnone. lia.
  - exists s, []. simpl. split; [lia|]. split; [constructor|].
    split; [by rewrite insert_id|]. split; [done|]. split; [done|]. eauto.
Qed.


Lemma unset_requires_grad_data d pairs : forall s s',
  unset_requires_grad d pairs s = (Ok tt, s') ->
  dicts s' = dicts s /\
  forall x t, tensors s !! x = Some t -> exists t', tensors s' !! x = Some t' /\ same_data t' t.
Proof.
  induction pairs as [|[b k] pairs IH]; intros s s' Hrun; simpl in Hrun.
  - injection Hrun as <-. split; [done|]. intros x t Hx. exists t. by repeat split.
  - apply bind_Ok in Hrun as (x & s0 & Hget & Hrun).
    apply getitem_Ok in Hget as [-> Hx].
    apply bind_Ok in Hrun as ([] & s0 & Hset & Hrun).
    apply requires_grad__Ok in Hset as (Hd & t & Ht & Hts).
    apply IH in Hrun as (Hd1 & Hdata).
    split; [congruence|].
    intros x' t' Hx'. destruct (decide (x' = x)) as [->|Hne].
    + destruct (Hdata x {| requires_grad := b; shape := shape t; values := values t |})
        as (t'' & Ht'' & Hs1 & Hs2); [rewrite Hts; apply lookup_insert_eq|].
      exists t''. split; [done|]. assert (t' = t) as -> by congruence.
      split; [exact Hs1 | exact Hs2].
    + apply Hdata. rewrite Hts. by rewrite lookup_insert_ne.
Qed.

Lemma to_float_minus_one : to_float (Int (-1)) = Ok (-1)%float.
Proof. vm_compute. reflexivity. Qed.

Lemma assert_Ok c msg u : assert c msg = Ok u -> c = true.
Proof. by destruct c. Qed.

Lemma gradient_irreps_Ok irreps_in pairs : forall grads,
  gradient_irreps irreps_in pairs = Ok grads ->
  Forall2 (fun pr kv => kv.1 = pr.1 /\ irreps_in !! pr.2 = Some kv.2) pairs grads.
Proof.
  induction pairs as [|[f w] pairs IH]; intros grads Hrun; simpl in Hrun.
  - injection Hrun as <-. constructor.
  - destruct (irreps_in !! w) as [ty|] eqn:Hw; [|discriminate].
    apply result_bind_Ok in Hrun as (rest & Hrest & [= <-]).
    constructor; [done | by apply IH].
Qed.

Lemma gradient_irreps_Raise irreps_in pairs : forall e,
  gradient_irreps irreps_in pairs = Raise e -> exists w, e = KeyError w.
Proof.
  induction pairs as [|[f w] pairs IH]; intros e Hrun; simpl in Hrun; [discriminate|].
  destruct (irreps_in !! w) as [ty|]; [|injection Hrun as <-; eauto].
  destruct (gradient_irreps irreps_in pairs) as [rest|e']; simpl in Hrun; [discriminate|].
  injection Hrun as <-. by apply IH.
Qed.

Section Init.
Variable irreps_check : gmap string (option Irreps) -> gmap string (option Irreps) -> bool.

Lemma init_Ok func of0 wrt_ out x self :
  __init__ irreps_check func of0 wrt_ out x = Ok self ->
  exists f grads,
    to_float x = Ok f /\ sign_in f = true /\
    sign self = f /\ of_ self = of0 /\ wrt self = normalize wrt_ /\
    GradientOutput.func self = func /\
    out_field self =
      match out with
      | None => map (default_out_field of0) (normalize wrt_)
      | Some o => normalize o
      end /\
    length (out_field self) = length (wrt self) /\
    GradientOutput.irreps_in self = GraphModuleMixin.irreps_in func /\
    gradient_irreps (GraphModuleMixin.irreps_in func) (zip (out_field self) (wrt self)) = Ok grads /\
    GradientOutput.irreps_out self = update (GraphModuleMixin.irreps_out func) grads /\
    training self = true.
Proof.
  unfold __init__. intros Hrun.
  apply result_bind_Ok in Hrun as (f & Hf & Hrun).
  apply result_bind_Ok in Hrun as ([] & Hsign & Hrun). apply assert_Ok in Hsign.
  apply result_bind_Ok in Hrun as (outs & Houts & Hrun).
  apply result_bind_Ok in Hrun as ([iin iout] & Hirreps & Hrun).
  apply result_bind_Ok in Hrun as (grads & Hgrads & [= <-]).
  unfold _init_irreps in Hirreps.
  destruct (irreps_check _ _); [|discriminate]. injection Hirreps as <- <-.
  assert (Hout : outs = match out with
                        | None => map (default_out_field of0) (normalize wrt_)
                        | Some o => normalize o
                        end /\ length outs = length (normalize wrt_)).
  { destruct out as [o|]; simpl in Houts.
    - apply result_bind_Ok in Houts as ([] & Hlen & [= <-]). apply assert_Ok in Hlen.
      split; [done|]. by apply Nat.eqb_eq.
    - injection Houts as <-. split; [done|]. by rewrite length_map. }
  destruct Hout as [-> Hlen].
  exists f, grads. simpl. repeat split; try done.
Qed.

End Init.
Section Forward.
Variable autograd_grad : store -> loc -> list loc -> bool -> result (list (option Tensor)).

Lemma forward_until_grads (self : GradientOutput.t) data s xs olds s1 data' s2 y gs :
  set_requires_grad data (wrt self) [] [] s = (Ok (xs, olds), s1) ->
  GraphModuleMixin.call (func self) data s1 = (Ok data', s2) ->
  fields s2 data' !! of_ self = Some y ->
  autograd_grad s2 y xs (training self) = Ok gs ->
  forward autograd_grad self data s =
    (_ ← store_grads (sign self) data' (zip (out_field self) gs);
     _ ← unset_requires_grad data' (zip olds (wrt self));
     mret data') s2.
Proof.
  intros Hset Hcall Hy Hgrad. unfold forward.
  rewrite (bind_run _ _ _ _ _ Hset). cbn beta iota.
  rewrite (bind_run _ _ _ _ _ Hcall).
  rewrite (bind_run _ _ _ _ _ (getitem_fields _ _ _ _ Hy)).
  erewrite bind_run; [reflexivity|]. cbn beta. by rewrite Hgrad.
Qed.

End Forward.

End GradientOutputFacts.

(** ** [GradientOutput]: construction *)

Module GradientOutputSpec.
Import GradientOutput GradientOutputFacts Example.

Section Init.
Variable irreps_check : gmap string (option Irreps) -> gmap string (option Irreps) -> bool.

(** C7. Once [sign] is converted to a float [f], construction fails with the
    [AssertionError] of the sign check (the spec's [InvalidConfiguration])
    exactly when [f] equals neither [1.0] nor [-1.0]; the other failures of
    construction are different errors, so for [1.0] and [-1.0] construction
    does not fail on account of [sign], and a wrapper that is built holds
    [f]. *)
Theorem sign_must_be_plus_or_minus_one func of0 wrt_ out x f :
  to_float x = Ok f ->
  (__init__ irreps_check func of0 wrt_ out x = Raise (AssertionError "") <-> sign_in f = false) /\
  (forall self, __init__ irreps_check func of0 wrt_ out x = Ok self -> sign self = f).
Proof.
  intros Hf. split; [split|].
  - intros Hrun. destruct (sign_in f) eqn:Hs; [|done]. exfalso.
    unfold __init__ in Hrun. rewrite Hf in Hrun. simpl in Hrun. rewrite Hs in Hrun.
    simpl in Hrun.
    destruct out as [o|]; simpl in Hrun.
    + destruct (length (normalize o) =? length (normalize wrt_)); simpl in Hrun; [|discriminate].
      unfold _init_irreps in Hrun. destruct (irreps_check _ _); simpl in Hrun; [|discriminate].
      destruct (gradient_irreps _ _) as [grads|e] eqn:Hg; simpl in Hrun; [discriminate|].
      apply gradient_irreps_Raise in Hg as [w ->]. discriminate.
    + unfold _init_irreps in Hrun. destruct (irreps_check _ _); simpl in Hrun; [|discriminate].
      destruct (gradient_irreps _ _) as [grads|e] eqn:Hg; simpl in Hrun; [discriminate|].
      apply gradient_irreps_Raise in Hg as [w ->]. discriminate.
  - intros Hs. unfold __init__. rewrite Hf. simpl. by rewrite Hs.
  - intros self Hrun. apply init_Ok in Hrun as (f' & grads & Hf' & _ & Hsign & _). congruence.
Qed.


(** C9, amended. When the names in [out_field] are pairwise distinct, the
    declared output type of [out_field[i]] is the declared input type of
    [wrt[i]], and every other field has the output type of the wrapped
    model. *)
Theorem gradient_type_is_input_type func of0 wrt_ out x self :
  __init__ irreps_check func of0 wrt_ out x = Ok self ->
  NoDup (out_field self) ->
  (forall i f w, out_field self !! i = Some f -> wrt self !! i = Some w ->
     GradientOutput.irreps_out self !! f = GradientOutput.irreps_in self !! w /\
     is_Some (GradientOutput.irreps_in self !! w)) /\
  (forall k, k ∉ out_field self ->
     GradientOutput.irreps_out self !! k = GraphModuleMixin.irreps_out func !! k).
Proof.
  intros Hrun Hnd.
  apply init_Ok in Hrun as (f' & grads & _ & _ & _ & _ & _ & _ & _ & Hlen & Hin & Hgrads & Hout & _).
  apply gradient_irreps_Ok in Hgrads.
  assert (Hkeys : grads.*1 = out_field self).
  { apply list_eq_same_length with (length (out_field self)); [done| |].
    - apply Forall2_length in Hgrads. rewrite length_zip_with in Hgrads.
      rewrite length_fmap. lia.
    - intros i k k' _ Hk Hk'. rewrite list_lookup_fmap in Hk.
      destruct (grads !! i) as [kv|] eqn:Hkv; [|done]. injection Hk as <-.
      destruct (Forall2_lookup_r _ _ _ _ _ Hgrads Hkv) as ([f w] & Hzip & Hfst & _).
      apply lookup_zip_with_Some in Hzip as (? & ? & [= <- <-] & Hf & _).
      simpl in Hfst. congruence. }
  split.
  - intros i f w Hf Hw.
    assert (Hzip : zip (out_field self) (wrt self) !! i = Some (f, w)).
    { apply lookup_zip_with_Some. eauto. }
    destruct (Forall2_lookup_l _ _ _ _ _ Hgrads Hzip) as ([k ty] & Hkv & Hk & Hty).
    simpl in Hk, Hty. subst k. rewrite Hout, Hin, Hty. split; [|eauto].
    apply update_lookup_NoDup with i; [by rewrite Hkeys | done].
  - intros k Hk. rewrite Hout. apply update_lookup_notin. by rewrite Hkeys.
Qed.

End Init.

(** C7 at [sign = 0.5]. *)
Lemma sign_one_half_is_rejected :
  (__init__ accept energy_model "total_energy" (Str "positions") None (Float 0.5%float)
     = Raise (AssertionError "") <-> sign_in 0.5%float = false) /\
  (forall self,
     __init__ accept energy_model "total_energy" (Str "positions") None (Float 0.5%float) = Ok self ->
     sign self = 0.5%float).
Proof.
  apply (sign_must_be_plus_or_minus_one accept energy_model "total_energy"
           (Str "positions") None (Float 0.5%float) 0.5%float).
  reflexivity.
Defined.

(** C9, as stated, fails when two gradients are given one name: the type
    declared for the name is that of the last of them. *)
Lemma same_name_declares_last_type :
  same_name = Ok (built same_name) /\
  out_field (built same_name) !! 0 = Some "g" /\
  wrt (built same_name) !! 0 = Some "a" /\
  GradientOutput.irreps_out (built same_name) !! "g" = Some (Some Irreps_0e) /\
  GradientOutput.irreps_in (built same_name) !! "a" = Some (Some Irreps_1o) /\
  GradientOutput.irreps_out (built same_name) !! "g"
    <> GradientOutput.irreps_in (built same_name) !! "a".
Proof.
  assert (H1 : GradientOutput.irreps_out (built same_name) !! "g" = Some (Some Irreps_0e))
    by (vm_compute; reflexivity).
  assert (H2 : GradientOutput.irreps_in (built same_name) !! "a" = Some (Some Irreps_1o))
    by (vm_compute; reflexivity).
  repeat split; try (vm_compute; reflexivity).
  rewrite H1, H2. discriminate.
Qed.

(** C9 on a wrapper with two distinct names. *)
Lemma two_names_declare_input_types :
  (forall i f w, out_field (built two_names) !! i = Some f -> wrt (built two_names) !! i = Some w ->
     GradientOutput.irreps_out (built two_names) !! f = GradientOutput.irreps_in (built two_names) !! w /\
     is_Some (GradientOutput.irreps_in (built two_names) !! w)) /\
  (forall k, k ∉ out_field (built two_names) ->
     GradientOutput.irreps_out (built two_names) !! k = GraphModuleMixin.irreps_out pair_model !! k).
Proof.
  apply (gradient_type_is_input_type accept pair_model "total_energy"
           (Strs ["a"; "b"]) (Some (Strs ["ga"; "gb"])) (Float 1%float)).
  - reflexivity.
  - apply (bool_decide_unpack _). vm_compute. exact I.
Defined.


(** ** [GradientOutput]: the forward pass *)

Section Forward.
Variable autograd_grad : store -> loc -> list loc -> bool -> result (list (option Tensor)).

(** C1, amended. When [forward] returns normally, the fields named in [wrt]
    are pairwise distinct tensor objects and the dictionary returned still
    holds those objects under the [wrt] names, every such tensor has its
    [requires_grad] flag equal to its value before the call. *)
Theorem forward_restores_flags_on_return (self : GradientOutput.t) data s data' s' :
  forward autograd_grad self data s = (Ok data', s') ->
  NoDup ((fun k => fields s data !! k) <$> wrt self) ->
  (forall k, k ∈ wrt self -> fields s' data' !! k = fields s data !! k) ->
  forall k x, k ∈ wrt self -> fields s data !! k = Some x -> flag s' x = flag s x.
Proof.
  intros Hrun Hnd Hsame k x Hk Hx. unfold forward in Hrun.
  apply bind_Ok in Hrun as ([xs olds] & s1 & Hset & Hrun).
  apply set_requires_grad_Ok in Hset as (_ & xs' & olds' & [= -> ->] & Hxs & Hlen & Hold).
  apply bind_Ok in Hrun as (d' & s2 & _ & Hrun).
  apply bind_Ok in Hrun as (y & s3 & _ & Hrun).
  apply bind_Ok in Hrun as (gs & s4 & _ & Hrun).
  apply bind_Ok in Hrun as ([] & s5 & _ & Hrun).
  apply bind_Ok in Hrun as ([] & s6 & Hunset & Hret).
  injection Hret as -> ->.
  apply unset_requires_grad_flags in Hunset as (Hd & ys & Hys & _ & Hnew).
  assert (Hfields : fields s' data' = fields s5 data') by (unfold fields; by rewrite Hd).
  assert (Hlenx : length xs' = length (wrt self)) by (symmetry; by eapply Forall2_length).
  assert (Hmap : (fun k => fields s data !! k) <$> wrt self = Some <$> xs').
  { apply list_eq. intros i. rewrite !list_lookup_fmap.
    destruct (wrt self !! i) as [k'|] eqn:Hk'; simpl.
    - destruct (Forall2_lookup_l _ _ _ _ _ Hxs Hk') as (x' & -> & ->). done.
    - apply lookup_ge_None in Hk'. rewrite lookup_ge_None_2; [done | lia]. }
  rewrite Hmap in Hnd. apply (NoDup_fmap_1 Some) in Hnd.
  assert (ys = xs') as ->.
  { apply list_eq_same_length with (length xs'); [done| |].
    - apply Forall2_length in Hys. rewrite length_zip_with in Hys. lia.
    - intros i y' x' _ Hy' Hx'.
      destruct (Forall2_lookup_r _ _ _ _ _ Hys Hy') as ([b' k'] & Hzip & Hfy).
      apply lookup_zip_with_Some in Hzip as (b'' & k'' & [= <- <-] & _ & Hk').
      destruct (Forall2_lookup_l _ _ _ _ _ Hxs Hk') as (x'' & Hx'' & Hfx).
      simpl in Hfy. rewrite <- Hfields, Hsame in Hfy by (by eapply list_elem_of_lookup_2).
      congruence. }
  apply list_elem_of_lookup in Hk as [i Hi].
  destruct (Forall2_lookup_l _ _ _ _ _ Hxs Hi) as (x' & Hx' & Hfx).
  assert (x' = x) as -> by congruence.
  specialize (Hold Hnd). specialize (Hnew Hnd).
  destruct (Forall2_lookup_l _ _ _ _ _ Hold Hx') as (b & Hb & ->).
  destruct (Forall2_lookup_r _ _ _ _ _ Hnew Hx') as ([b' k'] & Hzip & ->).
  apply lookup_zip_with_Some in Hzip as (b'' & k'' & [= <- <-] & Hb' & _).
  simpl in *. congruence.
Qed.




(** C6. When the engine answers [None] for the [i]-th requested field,
    [forward] fails with [GradientUnavailable]; the output dictionary then
    holds new entries for the first [j <= i] names of [out_field] only, [j]
    being the first undefined gradient, so that nothing is stored for the
    [i]-th field (its name is untouched unless an earlier field has the
    same name). *)
Theorem forward_fails_on_undefined_gradient
    (self : GradientOutput.t) data s xs olds s1 data' s2 y gs i out :
  set_requires_grad data (wrt self) [] [] s = (Ok (xs, olds), s1) ->
  GraphModuleMixin.call (func self) data s1 = (Ok data', s2) ->
  fields s2 data' !! of_ self = Some y ->
  autograd_grad s2 y xs (training self) = Ok gs ->
  gs !! i = Some None ->
  out_field self !! i = Some out ->
  exists s' j ps,
    forward autograd_grad self data s = (Raise GradientUnavailable, s') /\
    j <= i /\ gs !! j = Some None /\ length ps = j /\
    fields s' data' = update (fields s2 data') (zip (out_field self) ps) /\
    (out ∉ take i (out_field self) -> fields s' data' !! out = fields s2 data' !! out).
Proof.
  intros Hset Hcall Hy Hgrad Hnone Hout.
  rewrite (forward_until_grads autograd_grad self data s xs olds s1 data' s2 y _ Hset Hcall Hy Hgrad).
  destruct (fields_lookup_dicts _ _ _ _ Hy) as [m Hm].
  set (pairs := zip (out_field self) gs).
  destruct (store_grads_spec (sign self) data' pairs s2 m Hm)
    as (s4 & ps & Hlen & Hps & Hd4 & Hkeep & Hrun & Hstop).
  assert (Hpair : pairs !! i = Some (out, None)).
  { unfold pairs. apply lookup_zip_with_Some. eauto. }
  assert (Hj : length ps <= i).
  { destruct (decide (length ps <= i)) as [|Hgt]; [done|].
    assert (Hi : i < length ps) by lia.
    destruct (lookup_lt_is_Some_2 ps i Hi) as [p Hp].
    destruct (Forall2_lookup_l _ _ _ _ _ Hps Hp) as (pr & Hpr & g & Hg & _).
    rewrite lookup_take_lt, Hpair in Hpr by done. by injection Hpr as <-. }
  assert (Hlt : length ps < length pairs).
  { apply lookup_lt_Some in Hpair. lia. }
  rewrite decide_False in Hrun by lia.
  destruct (Hstop Hlt) as [o Ho].
  assert (Hzip : zip (pairs.*1) ps = zip (out_field self) ps).
  { unfold pairs. rewrite zip_fst_take. apply zip_with_take_l'.
    unfold pairs in Hlen. rewrite length_zip_with in Hlen. lia. }
  assert (Hf4 : fields s4 data' = update (fields s2 data') (zip (out_field self) ps)).
  { rewrite <- Hzip, (fields_dicts _ _ _ Hm). apply fields_dicts.
    rewrite Hd4. apply lookup_insert_eq. }
  exists s4, (length ps), ps. split; [|split; [done|split; [|split; [done|split; [done|]]]]].
  - by rewrite (bind_fail _ _ _ _ _ Hrun).
  - unfold pairs in Ho. by apply lookup_zip_with_Some in Ho as (? & ? & [= _ <-] & _ & ?).
  - intros Hnotin. rewrite Hf4. apply update_lookup_notin.
    intros Hin. apply Hnotin.
    apply list_elem_of_lookup in Hin as [i' Hi'].
    assert (Hi'lt : i' < length ps).
    { apply lookup_lt_Some in Hi'. rewrite length_fmap, length_zip_with in Hi'. lia. }
    apply zip_fst_lookup in Hi'.
    apply list_elem_of_lookup. exists i'. rewrite lookup_take_lt by lia. done.
Qed.

End Forward.

Section Force.
Variable irreps_check : gmap string (option Irreps) -> gmap string (option Irreps) -> bool.
Variable autograd_grad : store -> loc -> list loc -> bool -> result (list (option Tensor)).

(** C4. [ForceOutput(M)] is a [GradientOutput] with [of = "total_energy"],
    [wrt = "positions"], [out_field = "force"] and [sign = -1]; on an input
    on which [M] succeeds, the "force" field of the output of [forward] is
    [-1] times the gradient the engine answers for the sum of the
    "total_energy" output of [M] with respect to "positions". The engine
    answers one gradient per input. *)
Theorem force_is_negative_energy_gradient
    (energy_model : GraphModuleMixin.t) self data s xs olds s1 data' s2 out s' :
  (forall s y inputs create_graph gs,
     autograd_grad s y inputs create_graph = Ok gs -> length gs = length inputs) ->
  ForceOutput irreps_check energy_model = Ok self ->
  set_requires_grad data (wrt self) [] [] s = (Ok (xs, olds), s1) ->
  GraphModuleMixin.call energy_model data s1 = (Ok data', s2) ->
  forward autograd_grad self data s = (Ok out, s') ->
  (of_ self = "total_energy" /\ wrt self = ["positions"] /\ out_field self = ["force"] /\
   sign self = (-1)%float /\ func self = energy_model) /\
  out = data' /\
  exists x y g p t,
    xs = [x] /\ fields s data !! "positions" = Some x /\
    fields s2 data' !! "total_energy" = Some y /\
    autograd_grad s2 y [x] (training self) = Ok [Some g] /\
    fields s' out !! "force" = Some p /\ tensors s' !! p = Some t /\
    same_data t (mul_scalar (-1)%float g).
Proof.
  intros Hcontract Hinit Hset Hcall Hfw.
  unfold ForceOutput in Hinit.
  apply init_Ok in Hinit as (f & grads & Hf & _ & Hsign & Hof & Hwrt & Hfunc & Hout & _).
  rewrite to_float_minus_one in Hf. injection Hf as <-.
  simpl in Hwrt, Hout.
  unfold AtomicDataDict.TOTAL_ENERGY_KEY in Hof.
  unfold AtomicDataDict.POSITIONS_KEY in Hwrt.
  unfold AtomicDataDict.FORCE_KEY in Hout.
  split; [done|].
  unfold forward in Hfw. rewrite (bind_run _ _ _ _ _ Hset) in Hfw. cbn beta iota in Hfw.
  rewrite Hfunc, (bind_run _ _ _ _ _ Hcall) in Hfw.
  apply bind_Ok in Hfw as (y & s3 & Hy & Hfw). apply getitem_Ok in Hy as [-> Hy].
  apply bind_Ok in Hfw as (gs & s3 & Hgrad & Hfw).
  injection Hgrad as Hgrad <-.
  apply bind_Ok in Hfw as ([] & s4 & Hstore & Hfw).
  apply bind_Ok in Hfw as ([] & s5 & Hunset & Hret).
  injection Hret as <- <-. split; [done|].
  apply set_requires_grad_Ok in Hset as (_ & xs' & olds' & [= -> ->] & Hxs & _).
  rewrite Hwrt in Hxs. apply Forall2_cons_inv_l in Hxs as (x & rest & Hx & Hnil & ->).
  apply Forall2_nil_inv_l in Hnil as ->.
  pose proof (Hcontract _ _ _ _ _ Hgrad) as Hlen. simpl in Hlen.
  destruct gs as [|go [|? ?]]; try discriminate. clear Hlen.
  destruct (fields_lookup_dicts _ _ _ _ Hy) as [m Hm].
  destruct (store_grads_spec (sign self) data' (zip (out_field self) [go]) s2 m Hm)
    as (s4' & ps & Hlen & Hps & Hd4 & _ & Hrun & _).
  rewrite Hstore, Hout in Hrun. simpl in Hrun.
  destruct (decide (length ps = 1)) as [Hone|]; [|discriminate].
  injection Hrun as <-.
  destruct ps as [|p [|? ?]]; try discriminate.
  rewrite Hout in Hps. simpl in Hps.
  apply Forall2_cons_1 in Hps as [(g & Hg & Ht) _]. simpl in Hg. subst go.
  apply unset_requires_grad_data in Hunset as (Hd5 & Hdata).
  destruct (Hdata _ _ Ht) as (t' & Ht' & Hsame).
  exists x, y, g, p, t'. rewrite Hof in *. rewrite Hsign in *.
  repeat split; try done; try apply Hsame.
  unfold fields. rewrite Hd5, Hd4, lookup_insert_eq, Hout. simpl.
  unfold update. simpl. apply lookup_insert_eq.
Qed.

End Force.

(** C1, as stated, fails on the error path: after [GradientUnavailable] the
    flag of "positions", [False] before the call, is left [True]. *)
Lemma forward_failure_leaves_flag_set :
  wrt (built force_output) = ["positions"] /\
  fields batch 0 !! "positions" = Some 0 /\
  (forward grad_undefined (built force_output) 0 batch).1 = Raise GradientUnavailable /\
  flag batch 0 = Some false /\
  flag (forward grad_undefined (built force_output) 0 batch).2 0 = Some true /\
  flag (forward grad_undefined (built force_output) 0 batch).2 0 <> flag batch 0.
Proof.
  assert (H1 : flag batch 0 = Some false) by (vm_compute; reflexivity).
  assert (H2 : flag (forward grad_undefined (built force_output) 0 batch).2 0 = Some true)
    by (vm_compute; reflexivity).
  repeat split; try (vm_compute; reflexivity).
  rewrite H1, H2. discriminate.
Qed.

(** C1 on a call that returns. *)
Lemma forward_restores_positions_flag :
  flag (forward grad_by_index (built force_output) 0 batch).2 0 = flag batch 0.
Proof.
  apply (forward_restores_flags_on_return grad_by_index (built force_output) 0 batch 0
           (forward grad_by_index (built force_output) 0 batch).2) with (k := "positions").
  - vm_compute. reflexivity.
  - apply (bool_decide_unpack _). vm_compute. exact I.
  - intros k Hk. apply list_elem_of_singleton in Hk as ->. vm_compute. reflexivity.
  - apply list_elem_of_singleton. reflexivity.
  - vm_compute. reflexivity.
Defined.



(** The output dictionary must keep the [wrt] names: a wrapped model that
    answers with a new dictionary without "positions" succeeds, the gradient
    exists, and [forward] raises [KeyError] when it restores the flags. *)
Lemma dropped_field_breaks_forward :
  GraphModuleMixin.call (func (built fresh_dict_output)) 0 (prepared (built fresh_dict_output) 0 batch)
    = (Ok 1, after_model (built fresh_dict_output) 0 batch) /\
  (exists g, grad_by_index (after_model (built fresh_dict_output) 0 batch) 1 [0]
               (training (built fresh_dict_output)) = Ok [Some g]) /\
  (forward grad_by_index (built fresh_dict_output) 0 batch).1 = Raise (KeyError "positions").
Proof.
  split; [vm_compute; reflexivity|]. split; [|vm_compute; reflexivity].
  eexists. vm_compute. reflexivity.
Qed.


(** C6 on an engine that reports no gradient. *)
Lemma undefined_force_gradient_fails :
  exists s' j ps,
    forward grad_undefined (built force_output) 0 batch = (Raise GradientUnavailable, s') /\
    j <= 0 /\ [None] !! j = Some (@None Tensor) /\ length ps = j /\
    fields s' 0 = update (fields (after_model (built force_output) 0 batch) 0)
                         (zip (out_field (built force_output)) ps) /\
    ("force" ∉ take 0 (out_field (built force_output)) ->
     fields s' 0 !! "force" = fields (after_model (built force_output) 0 batch) 0 !! "force").
Proof.
  apply (forward_fails_on_undefined_gradient grad_undefined (built force_output) 0 batch
           [0] [false] (prepared (built force_output) 0 batch) 0
           (after_model (built force_output) 0 batch) 1 [None] 0 "force").
  - vm_compute. reflexivity.
  - vm_compute. reflexivity.
  - vm_compute. reflexivity.
  - vm_compute. reflexivity.
  - reflexivity.
  - vm_compute. reflexivity.
Defined.

(** C4 on the energy model. *)
Lemma energy_model_force :
  (of_ (built force_output) = "total_energy" /\ wrt (built force_output) = ["positions"] /\
   out_field (built force_output) = ["force"] /\ sign (built force_output) = (-1)%float /\
   func (built force_output) = energy_model) /\
  0 = 0 /\
  exists x y g p t,
    [0] = [x] /\ fields batch 0 !! "positions" = Some x /\
    fields (after_model (built force_output) 0 batch) 0 !! "total_energy" = Some y /\
    grad_by_index (after_model (built force_output) 0 batch) y [x] (training (built force_output))
      = Ok [Some g] /\
    fields (forward grad_by_index (built force_output) 0 batch).2 0 !! "force" = Some p /\
    tensors (forward grad_by_index (built force_output) 0 batch).2 !! p = Some t /\
    same_data t (mul_scalar (-1)%float g).
Proof.
  apply (force_is_negative_energy_gradient accept grad_by_index energy_model
           (built force_output) 0 batch [0] [false] (prepared (built force_output) 0 batch)
           0 (after_model (built force_output) 0 batch) 0
           (forward grad_by_index (built force_output) 0 batch).2).
  - intros s y inputs create_graph gs [= <-]. apply length_imap.
  - reflexivity.
  - vm_compute. reflexivity.
  - vm_compute. reflexivity.
  - vm_compute. reflexivity.
Defined.

(** Restoration needs distinct tensors: with "positions" named twice in
    [wrt] the second recorded flag is the forced one, and a call that
    returns leaves the flag, [False] before the call, [True]. *)
Lemma repeated_wrt_leaves_flag_set :
  wrt (built repeated_wrt) = ["positions"; "positions"] /\
  (forward grad_by_index (built repeated_wrt) 0 batch).1 = Ok 0 /\
  flag batch 0 = Some false /\
  flag (forward grad_by_index (built repeated_wrt) 0 batch).2 0 = Some true.
Proof. repeat split; vm_compute; reflexivity. Qed.

End GradientOutputSpec.

(** ** Dictionaries *)

Module PyDictFacts.

Section Dict.
Context {K V : Type} `{EqDecision K}.
Implicit Types (d : list (K * V)) (k : K) (v : V).

Lemma get_set_eq k v d : PyDict.get k (PyDict.set k v d) = Some v.
Proof.
  induction d as [|[k' v'] d IH]; simpl.
  - by rewrite decide_True.
  - destruct (decide (k = k')) as [->|Hne]; simpl.
    + by rewrite decide_True.
    + by rewrite decide_False.
Qed.

Lemma get_set_ne k k' v d : k <> k' -> PyDict.get k (PyDict.set k' v d) = PyDict.get k d.
Proof.
  intros Hne. induction d as [|[k'' v''] d IH]; simpl.
  - by rewrite decide_False.
  - destruct (decide (k' = k'')) as [->|Hne']; simpl.
    + by rewrite !decide_False.
    + destruct (decide (k = k'')); [done | exact IH].
Qed.

Lemma get_remove_ne k k' d : k <> k' -> PyDict.get k (PyDict.remove k' d) = PyDict.get k d.
Proof.
  intros Hne. induction d as [|[k'' v''] d IH]; simpl; [done|].
  destruct (decide (k' = k'')) as [->|Hne']; simpl.
  - rewrite decide_False by done. exact IH.
  - destruct (decide (k = k'')); [done | exact IH].
Qed.

Lemma contains_true k d : PyDict.contains k d = true <-> is_Some (PyDict.get k d).
Proof.
  unfold PyDict.contains. destruct (PyDict.get k d); split; eauto; try done.
Qed.

Lemma contains_false k d : PyDict.contains k d = false <-> PyDict.get k d = None.
Proof. unfold PyDict.contains. by destruct (PyDict.get k d). Qed.

Lemma contains_set k k' v d :
  PyDict.contains k (PyDict.set k' v d) = bool_decide (k = k') || PyDict.contains k d.
Proof.
  unfold PyDict.contains. destruct (decide (k = k')) as [->|Hne].
  - by rewrite get_set_eq, bool_decide_eq_true_2.
  - by rewrite get_set_ne, bool_decide_eq_false_2.
Qed.

Lemma get_elem_of k v d : PyDict.get k d = Some v -> (k, v) ∈ d.
Proof.
  induction d as [|[k' v'] d IH]; simpl; [done|].
  destruct (decide (k = k')) as [->|Hne].
  - intros [= ->]. left.
  - intros Hget. right. by apply IH.
Qed.

Lemma elem_of_contains k v d : (k, v) ∈ d -> PyDict.contains k d = true.
Proof.
  intros Hin. apply contains_true.
  induction d as [|[k' v'] d IH]; [by apply elem_of_nil in Hin|]. simpl.
  destruct (decide (k = k')); [eauto|].
  apply elem_of_cons in Hin as [[= ? ?]|Hin]; [done | by apply IH].
Qed.

Lemma dict_getitem_Ok e k d v : PyDict.getitem e k d = Ok v <-> PyDict.get k d = Some v.
Proof. unfold PyDict.getitem. destruct (PyDict.get k d); split; congruence. Qed.

End Dict.
End PyDictFacts.
Import PyDictFacts.

(** ** [Metrics]: configuration *)

Module MetricsConfigFacts.
Import Metrics.

Section Engine.
Context `{Collaborators}.

Lemma as_str_Ok v s : as_str v = Ok s -> v = PStr s.
Proof. destruct v; simpl; congruence. Qed.

Lemma add_component_Ok self c self' :
  add_component self c = Ok self' ->
  exists key red params,
    parse c = Ok (PStr key, PStr red, params) /\
    (if PyDict.contains key (running_stats self) then funcs self' = funcs self
     else exists f, find_loss_function (functional_of c) [] = Ok f /\
                    funcs self' = PyDict.set key f (funcs self)) /\
    (aligned self -> aligned self' /\
       forall k, PyDict.contains k (running_stats self')
                 = bool_decide (k = key) || PyDict.contains k (running_stats self)).
Proof.
  unfold add_component. intros Hrun.
  apply result_bind_Ok in Hrun as ([[key0 red0] params] & Hparse & Hrun).
  unfold PyDict.pop in Hrun. cbn beta iota zeta in Hrun.
  apply result_bind_Ok in Hrun as (key & Hkey & Hrun). apply as_str_Ok in Hkey as ->.
  apply result_bind_Ok in Hrun as (red & Hred & Hrun). apply as_str_Ok in Hred as ->.
  apply result_bind_Ok in Hrun as (mid & Hmid & Hrun).
  apply result_bind_Ok in Hrun as (kw & Hkw & Hrun).
  apply result_bind_Ok in Hrun as (ps & Hps & [= <-]).
  exists key, red, params. split; [done|]. simpl.
  assert (Hfun : functional_of c = default (PStr "L1Loss") (PyDict.get "functional" params)).
  { unfold functional_of. by rewrite Hparse. }
  destruct (PyDict.contains key (running_stats self)) eqn:Hin.
  - injection Hmid as <-. split; [done|]. intros Hal. split.
    + intros k. destruct (Hal k) as (H1 & H2 & H3). simpl.
      split; [done|]. split.
      * rewrite contains_set, H2. destruct (decide (k = key)) as [->|Hne];
          [rewrite Hin; by rewrite bool_decide_eq_true_2 | by rewrite bool_decide_eq_false_2].
      * rewrite contains_set, H3. destruct (decide (k = key)) as [->|Hne];
          [rewrite Hin; by rewrite bool_decide_eq_true_2 | by rewrite bool_decide_eq_false_2].
    + intros k. simpl. destruct (decide (k = key)) as [->|Hne].
      * rewrite Hin. by rewrite bool_decide_eq_true_2.
      * by rewrite bool_decide_eq_false_2.
  - apply result_bind_Ok in Hmid as (f & Hf & [= <-]). simpl in *.
    split; [exists f; by rewrite Hfun|]. intros Hal. split.
    + intros k. destruct (Hal k) as (H1 & H2 & H3). simpl.
      split; [|split].
      * rewrite contains_set. rewrite contains_set. by rewrite H1.
      * rewrite !contains_set. rewrite H2.
        by destruct (bool_decide (k = key)), (PyDict.contains k (running_stats self)).
      * rewrite !contains_set. rewrite H3.
        by destruct (bool_decide (k = key)), (PyDict.contains k (running_stats self)).
    + intros k. simpl. by rewrite contains_set.
Qed.

Lemma aligned_empty : aligned empty.
Proof. intros k. done. Qed.

Lemma mentions_parse c key red params :
  parse c = Ok (PStr key, red, params) -> mentions c = Some key.
Proof. unfold mentions. by intros ->. Qed.

Lemma add_components_funcs cs : forall self self',
  add_components self cs = Ok self' ->
  aligned self ->
  aligned self' /\
  (forall key, PyDict.contains key (funcs self) = true -> PyDict.contains key (funcs self') = true) /\
  forall key f, PyDict.get key (funcs self') = Some f ->
    PyDict.get key (funcs self) = Some f \/
    (PyDict.get key (funcs self) = None /\
     exists c, first_mention key cs = Some c /\ find_loss_function (functional_of c) [] = Ok f).
Proof.
  induction cs as [|c cs IH]; intros self self' Hrun Hal; simpl in Hrun.
  - injection Hrun as <-. split; [done|]. split; [done|]. by left.
  - apply result_bind_Ok in Hrun as (self1 & Hadd & Hrun).
    apply add_component_Ok in Hadd as (key0 & red & params & Hparse & Hfuncs & Hal1).
    destruct (Hal1 Hal) as [Hal1' Hkeys]. clear Hal1.
    destruct (IH _ _ Hrun Hal1') as (Hal' & Hmono & Hchar).
    pose proof (mentions_parse _ _ _ _ Hparse) as Hm.
    assert (Hstep : forall key, PyDict.contains key (funcs self) = true ->
                                PyDict.contains key (funcs self1) = true).
    { intros key Hk. destruct (Hal1' key) as (-> & _). rewrite Hkeys.
      destruct (Hal key) as (<- & _). rewrite Hk. apply orb_true_r. }
    split; [done|]. split; [by auto|].
    intros key f Hget. simpl.
    destruct (Hchar key f Hget) as [Hold | [Hnone (c' & Hc' & Hf)]].
    + destruct (PyDict.contains key0 (running_stats self)) eqn:Hin.
      * left. by rewrite <- Hfuncs.
      * destruct Hfuncs as (f0 & Hf0 & Hset). rewrite Hset in Hold.
        destruct (decide (key = key0)) as [->|Hne].
        -- rewrite get_set_eq in Hold. injection Hold as ->. right.
           split.
           ++ apply contains_false. by destruct (Hal key0) as (-> & _).
           ++ exists c. rewrite decide_True by done. done.
        -- rewrite get_set_ne in Hold by done. by left.
    + right. split.
      * destruct (PyDict.get key (funcs self)) eqn:Hk; [|done].
        assert (PyDict.contains key (funcs self1) = true) as Hc.
        { apply Hstep. apply contains_true. eauto. }
        apply contains_true in Hc as [? Hc]. congruence.
      * exists c'. split; [|done].
        destruct (decide (mentions c = Some key)) as [Heq|]; [|done].
        rewrite Hm in Heq. injection Heq as ->.
        assert (PyDict.contains key (funcs self1) = true) as Hc.
        { destruct (Hal1' key) as (-> & _). rewrite Hkeys.
          by rewrite bool_decide_eq_true_2. }
        apply contains_true in Hc as [? Hc]. congruence.
Qed.

Lemma add_components_app cs c self :
  add_components self (cs ++ [c]) = add_components self cs ≫= fun self' => add_component self' c.
Proof.
  revert self. induction cs as [|c' cs IH]; intros self; simpl.
  - by destruct (add_component self c).
  - destruct (add_component self c'); simpl; [apply IH | done].
Qed.

Lemma add_component_tracked self c key red params :
  aligned self ->
  parse c = Ok (PStr key, PStr red, params) ->
  PyDict.contains key (funcs self) = true ->
  exists self', add_component self c = Ok self' /\ funcs self' = funcs self.
Proof.
  intros Hal Hparse Hin. destruct (Hal key) as (H1 & H2 & H3).
  rewrite Hin in H1. symmetry in H1. rewrite H1 in H2, H3.
  apply contains_true in H2 as [kw Hkw]. apply contains_true in H3 as [ps Hps].
  unfold add_component. rewrite Hparse. simpl. rewrite H1. simpl.
  unfold PyDict.getitem. rewrite Hkw, Hps. simpl. eauto.
Qed.

(** Every spec of the list mentions a key, and the key has an error
    function in the engine. *)
Lemma add_components_mentioned cs : forall self self',
  add_components self cs = Ok self' ->
  aligned self ->
  forall c, c ∈ cs ->
    exists key, mentions c = Some key /\ PyDict.contains key (funcs self') = true.
Proof.
  induction cs as [|c0 cs IH]; intros self self' Hrun Hal c Hc; simpl in Hrun.
  - by apply elem_of_nil in Hc.
  - apply result_bind_Ok in Hrun as (self1 & Hadd & Hrun).
    apply add_component_Ok in Hadd as (key0 & red & params & Hparse & _ & Hal1).
    destruct (Hal1 Hal) as [Hal1' Hkeys]. clear Hal1.
    apply elem_of_cons in Hc as [-> | Hc]; [|by eapply IH].
    exists key0. split; [by eapply mentions_parse|].
    destruct (add_components_funcs _ _ _ Hrun Hal1') as (_ & Hmono & _).
    apply Hmono. destruct (Hal1' key0) as (-> & _). rewrite Hkeys.
    by rewrite bool_decide_eq_true_2.
Qed.

End Engine.
End MetricsConfigFacts.

Module MetricsConfigSpec.
Import Metrics MetricsConfigFacts Example.

(** C8. A spec tuple of more than three elements makes [parse] raise the
    [ValueError] that reports its length (the spec's
    [InvalidConfiguration]); a bare key, a 1-tuple, a pair and a triple with
    an options dictionary are parsed. *)
Theorem parse_accepts_up_to_three :
  (forall items, 3 < length items ->
     parse (CTuple items)
     = Raise (ValueError ("tuple should have a max length of 3 but "
                          ++ str_nat (length items) ++ " is given"))) /\
  (forall key, parse (CStr key) = Ok (PStr key, PStr "mae", [])) /\
  (forall key, parse (CTuple [key]) = Ok (key, PStr "mae", [])) /\
  (forall key reduction, parse (CTuple [key; reduction]) = Ok (key, reduction, [])) /\
  (forall key reduction options,
     parse (CTuple [key; reduction; PDict options])
     = Ok (key, reduction, PyDict.update [] options)).
Proof.
  repeat split; try reflexivity.
  intros [|a [|b [|c [|d items]]]] Hlen; simpl in Hlen; try lia. reflexivity.
Qed.

(** C8 on the spec [("force", "rmse", {}, "extra")]. *)
Lemma parse_rejects_four :
  parse (CTuple [PStr "force"; PStr "rmse"; PDict []; PStr "extra"])
  = Raise (ValueError "tuple should have a max length of 3 but 4 is given").
Proof.
  apply (proj1 parse_accepts_up_to_three [PStr "force"; PStr "rmse"; PDict []; PStr "extra"]).
  simpl. lia.
Defined.

Section Engine.
Context `{Collaborators}.

(** C10. In an engine built from [components], every spec of the list
    mentions a key, and that key has an error function: the one named by the
    first spec that mentions the key ("L1Loss" when that spec names none).
    No key has another error function; and a further spec for a key already
    tracked is accepted and leaves the error functions as they are, whatever
    its [functional] option. *)
Theorem first_spec_names_error_function components self :
  __init__ components = Ok self ->
  (forall c, c ∈ components ->
     exists key f c0,
       mentions c = Some key /\ PyDict.get key (funcs self) = Some f /\
       first_mention key components = Some c0 /\
       find_loss_function (functional_of c0) [] = Ok f) /\
  (forall key f, PyDict.get key (funcs self) = Some f ->
     exists c, first_mention key components = Some c /\
               find_loss_function (functional_of c) [] = Ok f) /\
  (forall c key reduction params,
     parse c = Ok (PStr key, PStr reduction, params) ->
     PyDict.contains key (funcs self) = true ->
     exists self', __init__ (components ++ [c]) = Ok self' /\ funcs self' = funcs self).
Proof.
  unfold __init__. intros Hrun.
  destruct (add_components_funcs _ _ _ Hrun aligned_empty) as (Hal & _ & Hchar).
  assert (Hfirst : forall key f, PyDict.get key (funcs self) = Some f ->
            exists c, first_mention key components = Some c /\
                      find_loss_function (functional_of c) [] = Ok f).
  { intros key f Hget. destruct (Hchar key f Hget) as [Hold | [_ Hc]]; [done | exact Hc]. }
  split; [|split; [exact Hfirst|]].
  - intros c Hc.
    destruct (add_components_mentioned _ _ _ Hrun aligned_empty c Hc) as (key & Hm & Hin).
    apply contains_true in Hin as [f Hf].
    destruct (Hfirst key f Hf) as (c0 & Hc0 & Hfind). by exists key, f, c0.
  - intros c key reduction params Hparse Hin.
    rewrite add_components_app, Hrun. simpl.
    by eapply add_component_tracked.
Qed.

End Engine.

(** C10 on MAE and RMSE of the forces, the second spec naming "MSELoss". *)
Lemma later_functional_is_ignored :
  (forall c, c ∈ two_reductions ->
     exists key f c0,
       mentions c = Some key /\
       PyDict.get key (@funcs simple_engine (engine two_reductions)) = Some f /\
       first_mention key two_reductions = Some c0 /\
       find_loss (functional_of c0) [] = Ok f) /\
  (forall key f, PyDict.get key (@funcs simple_engine (engine two_reductions)) = Some f ->
     exists c, first_mention key two_reductions = Some c /\
               find_loss (functional_of c) [] = Ok f) /\
  (forall c key reduction params,
     parse c = Ok (PStr key, PStr reduction, params) ->
     PyDict.contains key (@funcs simple_engine (engine two_reductions)) = true ->
     exists self', @__init__ simple_engine (two_reductions ++ [c]) = Ok self' /\
                   funcs self' = funcs (engine two_reductions)).
Proof.
  apply (@first_spec_names_error_function simple_engine two_reductions (engine two_reductions)).
  reflexivity.
Defined.

End MetricsConfigSpec.

(** ** [Metrics]: accumulation *)

Module MetricsCallFacts.
Import Metrics.

Section Engine.
Context `{Collaborators}.

Lemma lift_Ok {S A} (r : result A) (s s' : S) a :
  lift r s = (Ok a, s') -> s' = s /\ r = Ok a.
Proof. unfold lift. by intros [= -> ->]. Qed.

Lemma get_stats_Ok key w stats w' :
  get_stats key w = (Ok stats, w') ->
  w' = w /\ PyDict.get key (running_stats (self_ w)) = Some stats.
Proof.
  unfold get_stats. intros [= Hget ->]. split; [done|]. by apply dict_getitem_Ok in Hget.
Qed.

Lemma get_per_species_Ok key reduction w ps w' :
  get_per_species key reduction w = (Ok ps, w') ->
  w' = w /\ exists pss, PyDict.get key (per_species (self_ w)) = Some pss /\
                        PyDict.get reduction pss = Some ps.
Proof.
  unfold get_per_species. intros [= Hget ->]. split; [done|].
  apply result_bind_Ok in Hget as (pss & Hpss & Hps).
  apply dict_getitem_Ok in Hpss. apply dict_getitem_Ok in Hps. eauto.
Qed.

Lemma set_stat_Ok key reduction stat w w' :
  set_stat key reduction stat w = (Ok tt, w') ->
  funcs (self_ w') = funcs (self_ w) /\
  kwargs (self_ w') = kwargs (self_ w) /\
  per_species (self_ w') = per_species (self_ w) /\
  log w' = log w /\
  has_stat (self_ w') key reduction /\
  (forall k r, has_stat (self_ w) k r -> has_stat (self_ w') k r) /\
  (forall k r, has_stat (self_ w') k r ->
     has_stat (self_ w) k r \/ (k = key /\ r = reduction)).
Proof.
  unfold set_stat. destruct (PyDict.get key (running_stats (self_ w))) as [stats|] eqn:Hstats;
    [|discriminate].
  intros [= <-]. simpl. repeat split.
  - exists (PyDict.set reduction stat stats), stat. split; apply get_set_eq.
  - intros k r (stats' & stat' & Hk & Hr). unfold has_stat. simpl.
    destruct (decide (k = key)) as [->|Hne].
    + rewrite get_set_eq. assert (stats' = stats) as -> by congruence.
      destruct (decide (r = reduction)) as [->|Hne'].
      * eexists _, _. split; [done|]. apply get_set_eq.
      * eexists _, _. split; [done|]. rewrite get_set_ne by done. exact Hr.
    + rewrite get_set_ne by done. eauto.
  - intros k r (stats' & stat' & Hk & Hr). simpl in Hk.
    destruct (decide (k = key)) as [->|Hne].
    + rewrite get_set_eq in Hk. injection Hk as <-.
      destruct (decide (r = reduction)) as [->|Hne']; [by right|].
      rewrite get_set_ne in Hr by done. left. by exists stats, stat'.
    + rewrite get_set_ne in Hk by done. left. by exists stats', stat'.
Qed.

Lemma stable_log_app self0 pred ref w w' evs :
  stable self0 pred ref w ->
  funcs (self_ w') = funcs (self_ w) ->
  kwargs (self_ w') = kwargs (self_ w) ->
  per_species (self_ w') = per_species (self_ w) ->
  log w' = log w ++ evs ->
  (forall k r, has_stat (self_ w) k r -> has_stat (self_ w') k r) ->
  (forall k r, has_stat (self_ w') k r ->
     has_stat (self_ w) k r \/ exists kw, Construct k r kw ∈ evs) ->
  Forall (expected self0 pred ref) evs ->
  stable self0 pred ref w'.
Proof.
  intros (Hf & Hk & Hp & Hmono & Hnew & Hlog) Hf' Hk' Hp' Hlog' Hmono' Hnew' Hevs.
  unfold stable. rewrite Hf', Hk', Hp', Hlog'. repeat split; try done.
  - auto.
  - intros k r Hhas. destruct (Hnew' k r Hhas) as [Hold | [kw Hkw]].
    + destruct (Hnew k r Hold) as [? | [kw Hkw]]; [by left|].
      right. exists kw. apply elem_of_app. by left.
    + right. exists kw. apply elem_of_app. by right.
  - apply Forall_app. by split.
Qed.

Lemma emit_Ok e w w' :
  emit e w = (Ok tt, w') ->
  self_ w' = self_ w /\ log w' = log w ++ [e].
Proof. unfold emit, modify. by intros [= <-]. Qed.

Lemma observe_Ok pred key error reduction params w w' :
  observe pred key error reduction params w = (Ok tt, w') ->
  funcs (self_ w') = funcs (self_ w) /\
  kwargs (self_ w') = kwargs (self_ w) /\
  per_species (self_ w') = per_species (self_ w) /\
  (forall k r, has_stat (self_ w) k r -> has_stat (self_ w') k r) /\
  (forall k r, has_stat (self_ w') k r ->
     has_stat (self_ w) k r \/ (k = key /\ r = reduction)) /\
  has_stat (self_ w') key reduction /\
  exists stat pss ps by_,
    PyDict.get key (per_species (self_ w)) = Some pss /\
    PyDict.get reduction pss = Some ps /\
    ((has_stat (self_ w) key reduction /\
      log w' = log w ++ [AccumulateBatch key reduction stat
                           (batch_for stat (truthy ps) error) by_]) \/
     (~ has_stat (self_ w) key reduction /\
      log w' = log w ++ [Construct key reduction (runstat_kwargs params error);
                         AccumulateBatch key reduction stat
                           (batch_for stat (truthy ps) error) by_])).
Proof.
  unfold observe. intros Hrun.
  apply bind_Ok in Hrun as (stats & w0 & Hstats & Hrun).
  apply get_stats_Ok in Hstats as [-> Hstats].
  apply bind_Ok in Hrun as ([] & w1 & Hinit & Hrun).
  assert (Hw1 :
    funcs (self_ w1) = funcs (self_ w) /\
    kwargs (self_ w1) = kwargs (self_ w) /\
    per_species (self_ w1) = per_species (self_ w) /\
    (forall k r, has_stat (self_ w) k r -> has_stat (self_ w1) k r) /\
    (forall k r, has_stat (self_ w1) k r ->
       has_stat (self_ w) k r \/ (k = key /\ r = reduction)) /\
    ((has_stat (self_ w) key reduction /\ log w1 = log w) \/
     (~ has_stat (self_ w) key reduction /\
      log w1 = log w ++ [Construct key reduction (runstat_kwargs params error)]))).
  { destruct (PyDict.contains reduction stats) eqn:Hin.
    - injection Hinit as <-. repeat split; auto. left. split; [|done].
      apply contains_true in Hin as [stat Hstat]. by exists stats, stat.
    - apply bind_Ok in Hinit as (rs & w2 & Hrs & Hinit).
      apply lift_Ok in Hrs as [-> Hrs].
      apply bind_Ok in Hinit as ([] & w2 & Hemit & Hset).
      apply emit_Ok in Hemit as [Hself Hlog].
      apply set_stat_Ok in Hset as (Hf & Hk & Hp & Hl & _ & Hmono & Hnew).
      rewrite Hself in *. repeat split; try done.
      right. split; [|congruence].
      intros (stats' & stat' & Hs' & Hr'). apply contains_false in Hin. congruence. }
  destruct Hw1 as (Hf1 & Hk1 & Hp1 & Hmono1 & Hnew1 & Hlog1).
  apply bind_Ok in Hrun as (stats1 & w2 & Hstats1 & Hrun).
  apply get_stats_Ok in Hstats1 as [-> Hstats1].
  apply bind_Ok in Hrun as (stat & w2 & Hstat & Hrun).
  apply lift_Ok in Hstat as [-> Hstat].
  apply bind_Ok in Hrun as (ps & w2 & Hps & Hrun).
  apply get_per_species_Ok in Hps as [-> (pss & Hpss & Hps)].
  apply bind_Ok in Hrun as (by_ & w2 & Hby & Hrun).
  assert (w2 = w1) as ->.
  { destruct (truthy ps).
    - apply bind_Ok in Hby as (b & w3 & Hb & Hret). apply lift_Ok in Hb as [-> _].
      by injection Hret as _ <-.
    - by injection Hby as _ <-. }
  apply bind_Ok in Hrun as ([] & w2 & Hemit & Hrun).
  apply emit_Ok in Hemit as [Hself2 Hlog2].
  apply bind_Ok in Hrun as ([value stat'] & w3 & Hacc & Hrun).
  apply lift_Ok in Hacc as [-> _].
  apply bind_Ok in Hrun as ([] & w3 & Hset & Hrun).
  apply set_stat_Ok in Hset as (Hf3 & Hk3 & Hp3 & Hl3 & Hhas3 & Hmono3 & Hnew3).
  unfold modify in Hrun. injection Hrun as <-. simpl.
  rewrite Hself2 in *.
  repeat split; try congruence.
  - auto.
  - intros k r Hhas. destruct (Hnew3 k r Hhas) as [Hold | ?]; [|by right]. by apply Hnew1.
  - exists stat, pss, ps, by_. rewrite <- Hp1. split; [done|]. split; [done|].
    destruct Hlog1 as [[Hhas Hl] | [Hno Hl]]; [left | right]; (split; [done|]).
    + congruence.
    + rewrite Hl3, Hlog2, Hl, <- app_assoc. done.
Qed.

Lemma observe_stable self0 pred ref key f error kws reduction params w w' :
  stable self0 pred ref w ->
  (key, f) ∈ funcs self0 ->
  call_loss f pred ref key = Ok error ->
  PyDict.get key (kwargs self0) = Some kws ->
  (reduction, params) ∈ kws ->
  observe pred key error reduction params w = (Ok tt, w') ->
  stable self0 pred ref w' /\
  (forall ev, ev ∈ log w -> ev ∈ log w') /\
  (forall k r, has_stat (self_ w) k r -> has_stat (self_ w') k r) /\
  has_stat (self_ w') key reduction /\
  exists stat batch by_, AccumulateBatch key reduction stat batch by_ ∈ log w'.
Proof.
  intros Hst Hf Herr Hkws Hin Hrun.
  apply observe_Ok in Hrun
    as (Hf' & Hk' & Hp' & Hmono & Hnew & Hhas & stat & pss & ps & by_ & Hpss & Hps & Hlog).
  pose proof Hst as (Hf0 & Hk0 & Hp0 & Hmono0 & Hnew0 & Hlog0).
  set (acc := AccumulateBatch key reduction stat (batch_for stat (truthy ps) error) by_) in *.
  assert (Hacc : expected self0 pred ref acc).
  { exists f, error, pss, ps. rewrite <- Hp0. by repeat split. }
  destruct Hlog as [[Hold Hl] | [Hno Hl]].
  - split; [|split; [|split; [done|split; [done|]]]].
    + eapply stable_log_app; try done.
      * intros k r Hkr. destruct (Hnew k r Hkr) as [? | [-> ->]]; by left.
      * by repeat constructor.
    + intros ev Hev. rewrite Hl. apply elem_of_app. by left.
    + exists stat, (batch_for stat (truthy ps) error), by_. rewrite Hl.
      apply elem_of_app. right. left.
  - split; [|split; [|split; [done|split; [done|]]]].
    + eapply stable_log_app; try done.
      * intros k r Hkr. destruct (Hnew k r Hkr) as [? | [-> ->]]; [by left|].
        right. eexists. left.
      * constructor; [|by repeat constructor].
        exists f, error, kws, params. repeat split; try done.
        intros Hhas0. apply Hno. by apply Hmono0.
    + intros ev Hev. rewrite Hl. apply elem_of_app. by left.
    + exists stat, (batch_for stat (truthy ps) error), by_. rewrite Hl.
      apply elem_of_app. right. right. left.
Qed.

Lemma observe_all_stable self0 pred ref key f error kws items : forall w w',
  stable self0 pred ref w ->
  (key, f) ∈ funcs self0 ->
  call_loss f pred ref key = Ok error ->
  PyDict.get key (kwargs self0) = Some kws ->
  (forall it, it ∈ items -> it ∈ kws) ->
  observe_all pred key error items w = (Ok tt, w') ->
  stable self0 pred ref w' /\
  (forall ev, ev ∈ log w -> ev ∈ log w') /\
  (forall k r, has_stat (self_ w) k r -> has_stat (self_ w') k r) /\
  forall reduction params, (reduction, params) ∈ items ->
    has_stat (self_ w') key reduction /\
    exists stat batch by_, AccumulateBatch key reduction stat batch by_ ∈ log w'.
Proof.
  induction items as [|[red params] items IH]; intros w w' Hst Hf Herr Hkws Hsub Hrun;
    simpl in Hrun.
  - injection Hrun as <-. split; [done|]. split; [done|]. split; [done|].
    intros ? ? Hin. by apply elem_of_nil in Hin.
  - apply bind_Ok in Hrun as ([] & w1 & Hobs & Hrun).
    eapply observe_stable in Hobs as (Hst1 & Hlog1 & Hmono1 & Hhas1 & stat & batch & by_ & Hacc);
      try done; [|apply Hsub; left].
    apply IH in Hrun as (Hst' & Hlog' & Hmono' & Hall); try done;
      [|intros it Hit; apply Hsub; by right].
    split; [done|]. split; [by auto|]. split; [by auto|].
    intros reduction params' Hin. apply elem_of_cons in Hin as [[= -> ->] | Hin].
    + split; [by auto|]. exists stat, batch, by_. by auto.
    + by apply Hall in Hin.
Qed.

Lemma call_keys_stable self0 pred ref items : forall w w',
  stable self0 pred ref w ->
  (forall it, it ∈ items -> it ∈ funcs self0) ->
  call_keys pred ref items w = (Ok tt, w') ->
  stable self0 pred ref w' /\
  (forall ev, ev ∈ log w -> ev ∈ log w') /\
  (forall k r, has_stat (self_ w) k r -> has_stat (self_ w') k r) /\
  forall key f kws reduction params,
    (key, f) ∈ items -> PyDict.get key (kwargs self0) = Some kws ->
    (reduction, params) ∈ kws ->
    has_stat (self_ w') key reduction /\
    exists stat batch by_, AccumulateBatch key reduction stat batch by_ ∈ log w'.
Proof.
  induction items as [|[key f] items IH]; intros w w' Hst Hsub Hrun; simpl in Hrun.
  - injection Hrun as <-. split; [done|]. split; [done|]. split; [done|].
    intros ? ? ? ? ? Hin. by apply elem_of_nil in Hin.
  - apply bind_Ok in Hrun as (error & w0 & Herr & Hrun).
    apply lift_Ok in Herr as [-> Herr].
    apply bind_Ok in Hrun as (kws & w0 & Hkws & Hrun).
    injection Hkws as Hkws <-. apply dict_getitem_Ok in Hkws.
    pose proof Hst as (_ & Hk0 & _). rewrite Hk0 in Hkws.
    apply bind_Ok in Hrun as ([] & w1 & Hobs & Hrun).
    eapply observe_all_stable in Hobs as (Hst1 & Hlog1 & Hmono1 & Hall1);
      try done; [|apply Hsub; left].
    apply IH in Hrun as (Hst' & Hlog' & Hmono' & Hall'); try done;
      [|intros it Hit; apply Hsub; by right].
    split; [done|]. split; [by auto|]. split; [by auto|].
    intros key' f' kws' reduction params Hin Hkws' Hred.
    apply elem_of_cons in Hin as [[= -> ->] | Hin].
    + assert (kws' = kws) as -> by congruence.
      destruct (Hall1 _ _ Hred) as (Hhas & stat & batch & by_ & Hacc).
      split; [by auto|]. exists stat, batch, by_. by auto.
    + by eapply Hall'.
Qed.


End Engine.
End MetricsCallFacts.

(** ** [Metrics]: what is constructed *)

Module MetricsConstructFacts.
Import Metrics MetricsCallFacts.
Section Engine.
Context `{Collaborators}.





End Engine.
End MetricsConstructFacts.

Module MetricsCallSpec.
Import Metrics MetricsCallFacts MetricsConstructFacts Example.

Section Engine.
Context `{Collaborators}.


End Engine.
End MetricsCallSpec.

(** ** [Metrics]: reporting *)

Module MetricsFlattenFacts.
Import Metrics.

Lemma elem_of_enumerate {A} (xs : list A) i x :
  (i, x) ∈ enumerate xs <-> xs !! i = Some x.
Proof.
  unfold enumerate. rewrite elem_of_lookup_imap. split.
  - by intros (i' & x' & [= -> ->] & Hx).
  - intros Hx. by exists i, x.
Qed.

Lemma length_chunks n size xs : length (chunks n size xs) = n.
Proof. revert xs. induction n as [|n IH]; intros xs; simpl; [done | by rewrite IH]. Qed.

Lemma iter_shape0 value rows n :
  iter value = Ok rows -> shape0 value = Ok n -> n = length rows.
Proof.
  unfold iter, shape0. destruct (shape value) as [|m rest]; [discriminate|].
  intros [= <-] [= <-]. by rewrite length_map, length_chunks.
Qed.

Lemma contains_set_keeps (n k : string) (x : float) flat :
  PyDict.contains n flat = true -> PyDict.contains n (PyDict.set k x flat) = true.
Proof. intros Hn. rewrite contains_set, Hn. apply orb_true_r. Qed.

Lemma contains_set_new (k : string) (x : float) flat :
  PyDict.contains k (PyDict.set k x flat) = true.
Proof. rewrite contains_set. by rewrite bool_decide_eq_true_2. Qed.

Lemma string_app_assoc (a b c : string) :
  String.append (String.append a b) c = String.append a (String.append b c).
Proof.
  induction a as [|x a IH]; [reflexivity|].
  change (String x (String.append (String.append a b) c)
          = String x (String.append a (String.append b c))).
  by f_equal.
Qed.

Lemma string_length_app (a b : string) :
  String.length (String.append a b) = String.length a + String.length b.
Proof.
  induction a as [|x a IH]; [reflexivity|].
  change (S (String.length (String.append a b)) = S (String.length a + String.length b)).
  by rewrite IH.
Qed.

Lemma append_String (x : Ascii.ascii) (a b : string) :
  String.append (String x a) b = String x (String.append a b).
Proof. reflexivity. Qed.

(** A per-component name is not an "all_" name of the same item. *)
Lemma component_name_is_not_all (s item idx : string) :
  String.append (String.append s (String.append "_" item)) (String.append "_" idx)
  <> String.append "all_" item.
Proof.
  intros Heq.
  assert (Hlen : String.length s + String.length idx = 2).
  { apply (f_equal String.length) in Heq.
    rewrite !string_length_app in Heq. simpl in Heq. lia. }
  destruct s as [|c1 [|c2 [|c3 s]]]; simpl in Hlen; try lia.
  - rewrite ?append_String in Heq. discriminate.
  - rewrite ?append_String in Heq. discriminate.
  - rewrite ?append_String in Heq. discriminate.
Qed.

Section Engine.
Context `{Collaborators}.

Lemma index_Ok {A} (xs : list A) i x : index xs i = Ok x -> xs !! i = Some x.
Proof. unfold index. destruct (xs !! i); [congruence | discriminate]. Qed.

Lemma flatten_species_Ok names item_name rows : forall flat flat',
  flatten_species names item_name rows flat = Ok flat' ->
  (forall n, PyDict.contains n flat = true -> PyDict.contains n flat' = true) /\
  forall i v, (i, v) ∈ rows ->
    exists ele, names !! i = Some ele /\
                PyDict.contains (prefixed ele item_name) flat' = true.
Proof.
  induction rows as [|[i0 v0] rows IH]; intros flat flat' Hrun; simpl in Hrun.
  - injection Hrun as <-. split; [done|]. intros ? ? Hin. by apply elem_of_nil in Hin.
  - apply result_bind_Ok in Hrun as (x & _ & Hrun).
    apply result_bind_Ok in Hrun as (ele & Hele & Hrun). apply index_Ok in Hele.
    apply IH in Hrun as (Hmono & Hall). split.
    + intros n Hn. apply Hmono. by apply contains_set_keeps.
    + intros i v Hin. apply elem_of_cons in Hin as [[= -> ->] | Hin]; [|by apply (Hall _ _ Hin)].
      exists ele. split; [done|]. apply Hmono, contains_set_new.
Qed.

Lemma flatten_vec_Ok ele item_name comps : forall acc acc',
  flatten_vec ele item_name comps acc = Ok acc' ->
  (forall n, PyDict.contains n acc.1 = true -> PyDict.contains n acc'.1 = true) /\
  (forall n, n ∈ acc.2 -> n ∈ acc'.2) /\
  forall idx v, (idx, v) ∈ comps ->
    PyDict.contains (suffixed (prefixed ele item_name) idx) acc'.1 = true /\
    suffixed (prefixed ele item_name) idx ∈ acc'.2.
Proof.
  induction comps as [|[idx0 v0] comps IH]; intros acc acc' Hrun; simpl in Hrun.
  - injection Hrun as <-. split; [done|]. split; [done|].
    intros ? ? Hin. by apply elem_of_nil in Hin.
  - apply result_bind_Ok in Hrun as (x & _ & Hrun).
    apply IH in Hrun as (Hmono & Hskip & Hall). simpl in Hmono, Hskip. split; [|split].
    + intros n Hn. apply Hmono. by apply contains_set_keeps.
    + intros n Hn. apply Hskip. apply elem_of_app. by left.
    + intros idx v Hin. apply elem_of_cons in Hin as [[= -> ->] | Hin]; [|by apply (Hall _ _ Hin)].
      split.
      * apply Hmono, contains_set_new.
      * apply Hskip. apply elem_of_app. right. left.
Qed.

Lemma flatten_species_vec_Ok names item_name rows : forall acc acc',
  flatten_species_vec names item_name rows acc = Ok acc' ->
  (forall n, PyDict.contains n acc.1 = true -> PyDict.contains n acc'.1 = true) /\
  (forall n, n ∈ acc.2 -> n ∈ acc'.2) /\
  forall i vec, (i, vec) ∈ rows ->
    exists ele comps, names !! i = Some ele /\ iter vec = Ok comps /\
      forall idx v, comps !! idx = Some v ->
        PyDict.contains (suffixed (prefixed ele item_name) idx) acc'.1 = true /\
        suffixed (prefixed ele item_name) idx ∈ acc'.2.
Proof.
  induction rows as [|[i0 vec0] rows IH]; intros acc acc' Hrun; simpl in Hrun.
  - injection Hrun as <-. split; [done|]. split; [done|].
    intros ? ? Hin. by apply elem_of_nil in Hin.
  - apply result_bind_Ok in Hrun as (ele & Hele & Hrun). apply index_Ok in Hele.
    apply result_bind_Ok in Hrun as (comps & Hcomps & Hrun).
    apply result_bind_Ok in Hrun as (acc1 & Hvec & Hrun).
    apply flatten_vec_Ok in Hvec as (Hmono1 & Hskip1 & Hall1).
    apply IH in Hrun as (Hmono & Hskip & Hall). split; [by auto|]. split; [by auto|].
    intros i vec Hin. apply elem_of_cons in Hin as [[= -> ->] | Hin]; [|by apply (Hall _ _ Hin)].
    exists ele, comps. split; [done|]. split; [done|].
    intros idx v Hv. apply elem_of_enumerate in Hv.
    destruct (Hall1 _ _ Hv). split; by auto.
Qed.

Lemma flatten_components_Ok item_name comps : forall flat flat',
  flatten_components item_name comps flat = Ok flat' ->
  forall n, PyDict.contains n flat = true -> PyDict.contains n flat' = true.
Proof.
  induction comps as [|[idx0 v0] comps IH]; intros flat flat' Hrun; simpl in Hrun.
  - by injection Hrun as <-.
  - apply result_bind_Ok in Hrun as (x & _ & Hrun).
    intros n Hn. eapply IH; [done|]. by apply contains_set_keeps.
Qed.

(** What [flatten_item] leaves in [acc'] for a per-species pair. *)
Lemma flatten_item_Ok self allowed_species key reduction value acc acc' :
  flatten_item self allowed_species (key, reduction) value acc = Ok acc' ->
  (forall n, PyDict.contains n acc.1 = true -> PyDict.contains n acc'.1 = true) /\
  (forall n, n ∈ acc.2 -> n ∈ acc'.2) /\
  forall stats stat pss ps,
    PyDict.get key (running_stats self) = Some stats ->
    PyDict.get reduction stats = Some stat ->
    PyDict.get key (per_species self) = Some pss ->
    PyDict.get reduction pss = Some ps ->
    truthy ps = true ->
    per_species_entries allowed_species key reduction value stat acc'.1 acc'.2.
Proof.
  unfold flatten_item. intros Hrun.
  apply result_bind_Ok in Hrun as (stats0 & Hstats0 & Hrun). apply dict_getitem_Ok in Hstats0.
  apply result_bind_Ok in Hrun as (stat0 & Hstat0 & Hrun). apply dict_getitem_Ok in Hstat0.
  apply result_bind_Ok in Hrun as (pss0 & Hpss0 & Hrun). apply dict_getitem_Ok in Hpss0.
  apply result_bind_Ok in Hrun as (ps0 & Hps0 & Hrun). apply dict_getitem_Ok in Hps0.
  destruct (truthy ps0) eqn:Hps.
  - apply result_bind_Ok in Hrun as (names & Hnames & Hrun).
    destruct (bool_decide (output_dim stat0 = [])) eqn:Hdim.
    + apply result_bind_Ok in Hrun as (rows & Hrows & Hrun).
      apply result_bind_Ok in Hrun as (flat & Hflat & Hrun).
      apply result_bind_Ok in Hrun as (x & _ & [= <-]).
      apply flatten_species_Ok in Hflat as (Hmono & Hall). simpl.
      split; [intros n Hn; by apply contains_set_keeps, Hmono|]. split; [done|].
      intros stats stat pss ps Hs1 Hs2 Hp1 Hp2 _. unfold per_species_entries.
      assert (stat = stat0) as -> by congruence. rewrite Hdim.
      exists names, rows. split; [done|]. split.
      * destruct allowed_species as [l|]; [by injection Hnames as <-|].
        apply result_bind_Ok in Hnames as (n & Hn & [= <-]).
        by rewrite (iter_shape0 _ _ _ Hrows Hn).
      * split; [|apply contains_set_new].
        intros i v Hv. apply elem_of_enumerate in Hv.
        destruct (Hall _ _ Hv) as (ele & Hele & Hc). exists ele. split; [done|].
        by apply contains_set_keeps.
    + apply result_bind_Ok in Hrun as (rows & Hrows & Hrun).
      apply flatten_species_vec_Ok in Hrun as (Hmono & Hskip & Hall).
      split; [done|]. split; [done|].
      intros stats stat pss ps Hs1 Hs2 Hp1 Hp2 _. unfold per_species_entries.
      assert (stat = stat0) as -> by congruence. rewrite Hdim.
      exists names, rows. split; [done|]. split.
      * destruct allowed_species as [l|]; [by injection Hnames as <-|].
        apply result_bind_Ok in Hnames as (n & Hn & [= <-]).
        by rewrite (iter_shape0 _ _ _ Hrows Hn).
      * intros i vec Hvec. apply elem_of_enumerate in Hvec. by apply (Hall _ _ Hvec).
  - assert (Hother : forall stats stat pss ps,
      PyDict.get key (running_stats self) = Some stats ->
      PyDict.get reduction stats = Some stat ->
      PyDict.get key (per_species self) = Some pss ->
      PyDict.get reduction pss = Some ps -> truthy ps = true -> False).
    { intros stats stat pss ps _ _ Hp1 Hp2 Ht. congruence. }
    destruct (bool_decide (output_dim stat0 = [])).
    + apply result_bind_Ok in Hrun as (x & _ & [= <-]). simpl.
      split; [intros n Hn; by apply contains_set_keeps|]. split; [done|].
      intros stats stat pss ps Hs1 Hs2 Hp1 Hp2 Ht. by destruct (Hother _ _ _ _ Hs1 Hs2 Hp1 Hp2 Ht).
    + apply result_bind_Ok in Hrun as (comps & _ & Hrun).
      apply result_bind_Ok in Hrun as (flat & Hflat & [= <-]). simpl.
      split; [by eapply flatten_components_Ok|]. split; [done|].
      intros stats stat pss ps Hs1 Hs2 Hp1 Hp2 Ht. by destruct (Hother _ _ _ _ Hs1 Hs2 Hp1 Hp2 Ht).
Qed.

Lemma per_species_entries_mono allowed_species key reduction value stat flat skip flat' skip' :
  per_species_entries allowed_species key reduction value stat flat skip ->
  (forall n, PyDict.contains n flat = true -> PyDict.contains n flat' = true) ->
  (forall n, n ∈ skip -> n ∈ skip') ->
  per_species_entries allowed_species key reduction value stat flat' skip'.
Proof.
  intros (names & rows & Hrows & Hnames & Hentries) Hmono Hskip.
  exists names, rows. split; [done|]. split; [done|].
  destruct (bool_decide (output_dim stat = [])).
  - destruct Hentries as [Hall Hsum]. split; [|by auto].
    intros i v Hv. destruct (Hall i v Hv) as (ele & Hele & Hc). eauto.
  - intros i vec Hvec. destruct (Hentries i vec Hvec) as (ele & comps & Hele & Hcomps & Hall).
    exists ele, comps. split; [done|]. split; [done|].
    intros idx v Hv. destruct (Hall idx v Hv). split; by auto.
Qed.

Lemma flatten_items_Ok self allowed_species items : forall acc acc',
  flatten_items self allowed_species items acc = Ok acc' ->
  (forall n, PyDict.contains n acc.1 = true -> PyDict.contains n acc'.1 = true) /\
  (forall n, n ∈ acc.2 -> n ∈ acc'.2) /\
  forall key reduction value stats stat pss ps,
    ((key, reduction), value) ∈ items ->
    PyDict.get key (running_stats self) = Some stats ->
    PyDict.get reduction stats = Some stat ->
    PyDict.get key (per_species self) = Some pss ->
    PyDict.get reduction pss = Some ps ->
    truthy ps = true ->
    per_species_entries allowed_species key reduction value stat acc'.1 acc'.2.
Proof.
  induction items as [|[[key0 red0] value0] items IH]; intros acc acc' Hrun; simpl in Hrun.
  - injection Hrun as <-. split; [done|]. split; [done|].
    intros ? ? ? ? ? ? ? Hin. by apply elem_of_nil in Hin.
  - apply result_bind_Ok in Hrun as (acc1 & Hitem & Hrun).
    apply flatten_item_Ok in Hitem as (Hmono1 & Hskip1 & Hspec1).
    apply IH in Hrun as (Hmono & Hskip & Hall). split; [by auto|]. split; [by auto|].
    intros key reduction value stats stat pss ps Hin Hs1 Hs2 Hp1 Hp2 Ht.
    apply elem_of_cons in Hin as [[= -> -> ->] | Hin].
    + eapply per_species_entries_mono; [by eapply Hspec1 | done | done].
    + by eapply Hall.
Qed.

Lemma all_is_not_component ele key reduction idx :
  ("all_" ++ item_name_of key reduction)%string
  <> suffixed (prefixed ele (item_name_of key reduction)) idx.
Proof.
  intros Heq. symmetry in Heq.
  exact (component_name_is_not_all _ _ _ Heq).
Qed.

Lemma flatten_species_writes names item_name rows : forall flat flat',
  flatten_species names item_name rows flat = Ok flat' ->
  forall n, PyDict.contains n flat' = true ->
    PyDict.contains n flat = true \/ exists ele, n = prefixed ele item_name.
Proof.
  induction rows as [|[i0 v0] rows IH]; intros flat flat' Hrun n Hn; simpl in Hrun.
  - injection Hrun as <-. by left.
  - apply result_bind_Ok in Hrun as (x & _ & Hrun).
    apply result_bind_Ok in Hrun as (ele & _ & Hrun).
    destruct (IH _ _ Hrun n Hn) as [Hold | ?]; [|by right].
    rewrite contains_set in Hold. apply orb_true_iff in Hold as [Hnew | ?]; [|by left].
    apply bool_decide_eq_true in Hnew as ->. right. by exists ele.
Qed.

Lemma flatten_vec_writes ele item_name comps : forall acc acc',
  flatten_vec ele item_name comps acc = Ok acc' ->
  forall n, PyDict.contains n acc'.1 = true ->
    PyDict.contains n acc.1 = true \/ exists idx, n = suffixed (prefixed ele item_name) idx.
Proof.
  induction comps as [|[idx0 v0] comps IH]; intros acc acc' Hrun n Hn; simpl in Hrun.
  - injection Hrun as <-. by left.
  - apply result_bind_Ok in Hrun as (x & _ & Hrun).
    destruct (IH _ _ Hrun n Hn) as [Hold | ?]; [|by right]. simpl in Hold.
    rewrite contains_set in Hold. apply orb_true_iff in Hold as [Hnew | ?]; [|by left].
    apply bool_decide_eq_true in Hnew as ->. right. by exists idx0.
Qed.

Lemma flatten_species_vec_writes names item_name rows : forall acc acc',
  flatten_species_vec names item_name rows acc = Ok acc' ->
  forall n, PyDict.contains n acc'.1 = true ->
    PyDict.contains n acc.1 = true \/
    exists ele idx, n = suffixed (prefixed ele item_name) idx.
Proof.
  induction rows as [|[i0 vec0] rows IH]; intros acc acc' Hrun n Hn; simpl in Hrun.
  - injection Hrun as <-. by left.
  - apply result_bind_Ok in Hrun as (ele & _ & Hrun).
    apply result_bind_Ok in Hrun as (comps & _ & Hrun).
    apply result_bind_Ok in Hrun as (acc1 & Hvec & Hrun).
    destruct (IH _ _ Hrun n Hn) as [Hold | ?]; [|by right].
    destruct (flatten_vec_writes _ _ _ _ _ Hvec n Hold) as [? | [idx ->]]; [by left|].
    right. by exists ele, idx.
Qed.

Lemma flatten_components_writes item_name comps : forall flat flat',
  flatten_components item_name comps flat = Ok flat' ->
  forall n, PyDict.contains n flat' = true ->
    PyDict.contains n flat = true \/ exists idx, n = suffixed item_name idx.
Proof.
  induction comps as [|[idx0 v0] comps IH]; intros flat flat' Hrun n Hn; simpl in Hrun.
  - injection Hrun as <-. by left.
  - apply result_bind_Ok in Hrun as (x & _ & Hrun).
    destruct (IH _ _ Hrun n Hn) as [Hold | ?]; [|by right].
    rewrite contains_set in Hold. apply orb_true_iff in Hold as [Hnew | ?]; [|by left].
    apply bool_decide_eq_true in Hnew as ->. right. by exists idx0.
Qed.

(** The names one pair adds to [flat_dict] are those of its branch. *)
Lemma flatten_item_writes self allowed_species key reduction value acc acc' :
  flatten_item self allowed_species (key, reduction) value acc = Ok acc' ->
  exists stats stat pss ps,
    PyDict.get key (running_stats self) = Some stats /\
    PyDict.get reduction stats = Some stat /\
    PyDict.get key (per_species self) = Some pss /\
    PyDict.get reduction pss = Some ps /\
    forall n, PyDict.contains n acc'.1 = true ->
      PyDict.contains n acc.1 = true \/
      written_for key reduction (truthy ps) (bool_decide (output_dim stat = [])) n.
Proof.
  unfold flatten_item. intros Hrun.
  apply result_bind_Ok in Hrun as (stats & Hstats & Hrun). apply dict_getitem_Ok in Hstats.
  apply result_bind_Ok in Hrun as (stat & Hstat & Hrun). apply dict_getitem_Ok in Hstat.
  apply result_bind_Ok in Hrun as (pss & Hpss & Hrun). apply dict_getitem_Ok in Hpss.
  apply result_bind_Ok in Hrun as (ps & Hps & Hrun). apply dict_getitem_Ok in Hps.
  exists stats, stat, pss, ps. split; [done|]. split; [done|]. split; [done|]. split; [done|].
  unfold written_for. cbn zeta.
  destruct (truthy ps).
  - apply result_bind_Ok in Hrun as (names & _ & Hrun).
    destruct (bool_decide (output_dim stat = [])).
    + apply result_bind_Ok in Hrun as (rows & _ & Hrun).
      apply result_bind_Ok in Hrun as (flat & Hflat & Hrun).
      apply result_bind_Ok in Hrun as (x & _ & [= <-]). simpl. intros n Hn.
      rewrite contains_set in Hn. apply orb_true_iff in Hn as [Hnew | Hold].
      * apply bool_decide_eq_true in Hnew as ->. right. by right.
      * destruct (flatten_species_writes _ _ _ _ _ Hflat n Hold) as [? | ?];
          [by left | right; by left].
    + apply result_bind_Ok in Hrun as (rows & _ & Hrun).
      intros n Hn. by apply (flatten_species_vec_writes _ _ _ _ _ Hrun).
  - destruct (bool_decide (output_dim stat = [])).
    + apply result_bind_Ok in Hrun as (x & _ & [= <-]). simpl. intros n Hn.
      rewrite contains_set in Hn. apply orb_true_iff in Hn as [Hnew | ?]; [|by left].
      apply bool_decide_eq_true in Hnew as ->. by right.
    + apply result_bind_Ok in Hrun as (comps & _ & Hrun).
      apply result_bind_Ok in Hrun as (flat & Hflat & [= <-]). simpl.
      intros n Hn. by apply (flatten_components_writes _ _ _ _ Hflat).
Qed.

Lemma flatten_items_writes self allowed_species items : forall acc acc',
  flatten_items self allowed_species items acc = Ok acc' ->
  forall n, PyDict.contains n acc'.1 = true ->
    PyDict.contains n acc.1 = true \/
    exists key reduction value stats stat pss ps,
      ((key, reduction), value) ∈ items /\
      PyDict.get key (running_stats self) = Some stats /\
      PyDict.get reduction stats = Some stat /\
      PyDict.get key (per_species self) = Some pss /\
      PyDict.get reduction pss = Some ps /\
      written_for key reduction (truthy ps) (bool_decide (output_dim stat = [])) n.
Proof.
  induction items as [|[[key0 red0] value0] items IH]; intros acc acc' Hrun n Hn; simpl in Hrun.
  - injection Hrun as <-. by left.
  - apply result_bind_Ok in Hrun as (acc1 & Hitem & Hrun).
    apply flatten_item_writes in Hitem as (stats0 & stat0 & pss0 & ps0 & H1 & H2 & H3 & H4 & Hw).
    destruct (IH _ _ Hrun n Hn) as [Hold | (k & r & v & st & s & pss & ps & Hin & Hrest)].
    + destruct (Hw n Hold) as [? | Hnew]; [by left|].
      right. exists key0, red0, value0, stats0, stat0, pss0, ps0. split; [left | done].
    + right. exists k, r, v, st, s, pss, ps. split; [by right | done].
Qed.

(** For a per-species pair whose statistic is not scalar, an "all_" entry
    of its name can only have been written for another pair. *)
Lemma no_all_entry_for_components
    self allowed_species metrics acc' key reduction stats stat pss ps :
  flatten_items self allowed_species metrics ([], []) = Ok acc' ->
  PyDict.get key (running_stats self) = Some stats ->
  PyDict.get reduction stats = Some stat ->
  PyDict.get key (per_species self) = Some pss ->
  PyDict.get reduction pss = Some ps ->
  truthy ps = true ->
  bool_decide (output_dim stat = []) = false ->
  PyDict.contains ("all_" ++ item_name_of key reduction)%string acc'.1 = true ->
  exists key' reduction' value' stats' stat' pss' ps',
    ((key', reduction'), value') ∈ metrics /\ (key', reduction') <> (key, reduction) /\
    PyDict.get key' (running_stats self) = Some stats' /\
    PyDict.get reduction' stats' = Some stat' /\
    PyDict.get key' (per_species self) = Some pss' /\
    PyDict.get reduction' pss' = Some ps' /\
    written_for key' reduction' (truthy ps') (bool_decide (output_dim stat' = []))
      ("all_" ++ item_name_of key reduction)%string.
Proof.
  intros Hrun Hs1 Hs2 Hp1 Hp2 Ht Hdim Hall.
  destruct (flatten_items_writes _ _ _ _ _ Hrun _ Hall)
    as [Hnil | (k & r & v & st & s & pss' & ps' & Hin & H1 & H2 & H3 & H4 & Hw)];
    [discriminate|].
  exists k, r, v, st, s, pss', ps'. split; [done|]. split; [|done].
  intros [= -> ->].
  assert (st = stats) as -> by congruence. assert (s = stat) as -> by congruence.
  assert (pss' = pss) as -> by congruence. assert (ps' = ps) as -> by congruence.
  unfold written_for in Hw. cbn zeta in Hw. rewrite Ht, Hdim in Hw.
  destruct Hw as (ele & idx & Heq). by apply all_is_not_component in Heq.
Qed.

End Engine.
End MetricsFlattenFacts.

Module MetricsFlattenSpec.
Import Metrics MetricsFlattenFacts Example.

Section Engine.
Context `{Collaborators}.

(** C5, amended. For a pair of [metrics] with per-species grouping active,
    [flatten_metrics] reports: for a scalar statistic, one entry per
    species, named by the species label followed by
    "{abbreviated_key}_{reduction}", and the entry
    "all_{abbreviated_key}_{reduction}"; for a statistic that is not scalar,
    one entry per species and component, with the component index as a
    suffix, each also listed in [skip_keys], and no "all_" entry: if
    [flat_dict] holds the name "all_{abbreviated_key}_{reduction}" at all,
    it was written for another pair of [metrics], as one of the names of
    that pair, so that it is absent when [metrics] holds no other pair. *)
Theorem flatten_metrics_per_species
    self metrics allowed_species flat_dict skip_keys key reduction value stats stat pss ps :
  flatten_metrics self metrics allowed_species = Ok (flat_dict, skip_keys) ->
  ((key, reduction), value) ∈ metrics ->
  PyDict.get key (running_stats self) = Some stats ->
  PyDict.get reduction stats = Some stat ->
  PyDict.get key (per_species self) = Some pss ->
  PyDict.get reduction pss = Some ps ->
  truthy ps = true ->
  exists element_names rows,
    iter value = Ok rows /\
    element_names =
      match allowed_species with
      | Some names => names
      | None => map (fun i => LInt (Z.of_nat i)) (seq 0 (length rows))
      end /\
    if bool_decide (output_dim stat = []) then
      (forall i v, rows !! i = Some v ->
         exists ele, element_names !! i = Some ele /\
           PyDict.contains (str_label ele ++ "_" ++ item_name_of key reduction)%string
                           flat_dict = true) /\
      PyDict.contains ("all_" ++ item_name_of key reduction)%string flat_dict = true
    else
      (forall i vec, rows !! i = Some vec ->
         exists ele comps, element_names !! i = Some ele /\ iter vec = Ok comps /\
           forall idx v, comps !! idx = Some v ->
             PyDict.contains
               (str_label ele ++ "_" ++ item_name_of key reduction ++ "_" ++ str_nat idx)%string
               flat_dict = true /\
             (str_label ele ++ "_" ++ item_name_of key reduction ++ "_" ++ str_nat idx)%string
               ∈ skip_keys) /\
      (PyDict.contains ("all_" ++ item_name_of key reduction)%string flat_dict = true ->
       exists key' reduction' value' stats' stat' pss' ps',
         ((key', reduction'), value') ∈ metrics /\ (key', reduction') <> (key, reduction) /\
         PyDict.get key' (running_stats self) = Some stats' /\
         PyDict.get reduction' stats' = Some stat' /\
         PyDict.get key' (per_species self) = Some pss' /\
         PyDict.get reduction' pss' = Some ps' /\
         written_for key' reduction' (truthy ps') (bool_decide (output_dim stat' = []))
           ("all_" ++ item_name_of key reduction)%string) /\
      ((forall key' reduction' value',
          ((key', reduction'), value') ∈ metrics -> (key', reduction') = (key, reduction)) ->
       PyDict.contains ("all_" ++ item_name_of key reduction)%string flat_dict = false).
Proof.
  unfold flatten_metrics. intros Hrun Hin Hs1 Hs2 Hp1 Hp2 Ht.
  pose proof Hrun as Hrun'.
  apply flatten_items_Ok in Hrun as (_ & _ & Hall).
  specialize (Hall _ _ _ _ _ _ _ Hin Hs1 Hs2 Hp1 Hp2 Ht).
  unfold per_species_entries, prefixed, suffixed in Hall. simpl in Hall.
  destruct Hall as (names & rows & Hrows & Hnames & Hentries).
  exists names, rows. split; [done|]. split; [done|].
  destruct (bool_decide (output_dim stat = [])) eqn:Hdim; [done|].
  assert (Hother : PyDict.contains ("all_" ++ item_name_of key reduction)%string flat_dict = true ->
    exists key' reduction' value' stats' stat' pss' ps',
      ((key', reduction'), value') ∈ metrics /\ (key', reduction') <> (key, reduction) /\
      PyDict.get key' (running_stats self) = Some stats' /\
      PyDict.get reduction' stats' = Some stat' /\
      PyDict.get key' (per_species self) = Some pss' /\
      PyDict.get reduction' pss' = Some ps' /\
      written_for key' reduction' (truthy ps') (bool_decide (output_dim stat' = []))
        ("all_" ++ item_name_of key reduction)%string).
  { intros Hc.
    exact (no_all_entry_for_components self allowed_species metrics (flat_dict, skip_keys)
             key reduction stats stat pss ps Hrun' Hs1 Hs2 Hp1 Hp2 Ht Hdim Hc). }
  split; [|split; [exact Hother|]].
  - intros i vec Hvec. destruct (Hentries i vec Hvec) as (ele & comps & Hele & Hcomps & Hall).
    exists ele, comps. split; [done|]. split; [done|].
    intros idx v Hv. specialize (Hall idx v Hv).
    rewrite !string_app_assoc in Hall. exact Hall.
  - intros Hone.
    destruct (PyDict.contains ("all_" ++ item_name_of key reduction)%string flat_dict) eqn:Hc;
      [|done].
    destruct (Hother eq_refl) as (k & r & v & _ & _ & _ & _ & Hin' & Hne & _).
    by destruct (Hne (Hone _ _ _ Hin')).
Qed.

End Engine.
End MetricsFlattenSpec.

(** ** The engine on examples *)

Module MetricsExamples.
Import Metrics MetricsCallSpec MetricsFlattenSpec Example.


(** C5, as stated, fails for a per-species statistic that is not scalar:
    the entries of species and components are reported, and no "all_" entry
    is. *)
Lemma component_report_has_no_all_entry :
  (("forces", "rmse"), forces) ∈ metrics_of_call per_species_components /\
  (exists pss, PyDict.get "forces" (per_species (engine_after_call per_species_components))
                 = Some pss /\
               PyDict.get "rmse" pss = Some (PBool true)) /\
  exists flat_dict skip_keys,
    @flatten_metrics simple_engine (engine_after_call per_species_components)
      (metrics_of_call per_species_components) None = Ok (flat_dict, skip_keys) /\
    PyDict.contains "0_f_rmse_0" flat_dict = true /\
    PyDict.contains "all_f_rmse" flat_dict = false.
Proof.
  split; [left|]. split.
  - eexists. split; reflexivity.
  - eexists _, _. split; [reflexivity|]. split; reflexivity.
Qed.

(** C5, amended, on a per-species scalar statistic with the labels "H" and
    "C", and on a per-species statistic of three components, which is
    reported by species and component, listed in [skip_keys] and has no
    "all_" entry. *)
Lemma per_species_report_entries :
  (PyDict.contains "H_f_mae"
     (report_of (@flatten_metrics simple_engine (engine_after_call per_species_scalar)
                   species_mae (Some [LStr "H"; LStr "C"]))).1 = true /\
   PyDict.contains "C_f_mae"
     (report_of (@flatten_metrics simple_engine (engine_after_call per_species_scalar)
                   species_mae (Some [LStr "H"; LStr "C"]))).1 = true /\
   PyDict.contains "all_f_mae"
     (report_of (@flatten_metrics simple_engine (engine_after_call per_species_scalar)
                   species_mae (Some [LStr "H"; LStr "C"]))).1 = true) /\
  (PyDict.contains "1_f_rmse_2"
     (report_of (@flatten_metrics simple_engine (engine_after_call per_species_components)
                   (metrics_of_call per_species_components) None)).1 = true /\
   "1_f_rmse_2"
     ∈ (report_of (@flatten_metrics simple_engine (engine_after_call per_species_components)
                     (metrics_of_call per_species_components) None)).2 /\
   PyDict.contains "all_f_rmse"
     (report_of (@flatten_metrics simple_engine (engine_after_call per_species_components)
                   (metrics_of_call per_species_components) None)).1 = false).
Proof.
  split.
  - destruct (@flatten_metrics_per_species simple_engine
              (engine_after_call per_species_scalar) species_mae (Some [LStr "H"; LStr "C"])
              (report_of (@flatten_metrics simple_engine (engine_after_call per_species_scalar)
                            species_mae (Some [LStr "H"; LStr "C"]))).1
              (report_of (@flatten_metrics simple_engine (engine_after_call per_species_scalar)
                            species_mae (Some [LStr "H"; LStr "C"]))).2
              "forces" "mae"
              {| requires_grad := false; shape := [2]; values := [0.5%float; 1%float] |}
              [("mae", {| declared := []; reported := []; seen := 1 |})]
              {| declared := []; reported := []; seen := 1 |}
              [("mae", PBool true)] (PBool true))
      as (names & rows & Hrows & -> & Hentries).
    + reflexivity.
    + left.
    + reflexivity.
    + reflexivity.
    + reflexivity.
    + reflexivity.
    + reflexivity.
    + injection Hrows as <-. simpl in Hentries. destruct Hentries as [Hall Hsum].
      destruct (Hall 0 _ eq_refl) as (e0 & [= <-] & H0).
      destruct (Hall 1 _ eq_refl) as (e1 & [= <-] & H1).
      split; [exact H0|]. split; [exact H1 | exact Hsum].
  - destruct (@flatten_metrics_per_species simple_engine
              (engine_after_call per_species_components)
              (metrics_of_call per_species_components) None
              (report_of (@flatten_metrics simple_engine
                            (engine_after_call per_species_components)
                            (metrics_of_call per_species_components) None)).1
              (report_of (@flatten_metrics simple_engine
                            (engine_after_call per_species_components)
                            (metrics_of_call per_species_components) None)).2
              "forces" "rmse" forces
              [("rmse", {| declared := [3]; reported := [3]; seen := 1 |})]
              {| declared := [3]; reported := [3]; seen := 1 |}
              [("rmse", PBool true)] (PBool true))
      as (names & rows & Hrows & -> & Hentries).
    + reflexivity.
    + left.
    + reflexivity.
    + reflexivity.
    + reflexivity.
    + reflexivity.
    + reflexivity.
    + injection Hrows as <-. simpl in Hentries.
      destruct Hentries as (Hcomps & _ & Habsent).
      destruct (Hcomps 1 _ eq_refl) as (e1 & comps & [= <-] & [= <-] & Hnames).
      destruct (Hnames 2 _ eq_refl) as [Hin Hskip].
      split; [exact Hin|]. split; [exact Hskip|].
      apply Habsent. intros key' reduction' value' Hin'.
      apply list_elem_of_singleton in Hin'. by injection Hin' as -> -> _.
Defined.

End MetricsExamples.

(** * Further properties *)

(** ** [GradientOutput]: the names of the gradients *)

Module GradientOutputInit.
Import GradientOutput GradientOutputFacts Example.

Lemma string_app_inv_head (a b c : string) :
  String.append a b = String.append a c -> b = c.
Proof.
  induction a as [|x a IH]; [done|].
  change (String x (String.append a b) = String x (String.append a c) -> b = c).
  intros [= Heq]. by apply IH.
Qed.

Lemma string_app_inv_tail (a b : string) (x : Ascii.ascii) :
  String.append a (String x EmptyString) = String.append b (String x EmptyString) -> a = b.
Proof.
  revert b. induction a as [|y a IH]; intros [|z b].
  - done.
  - change (String x EmptyString = String z (String.append b (String x EmptyString)) -> EmptyString = String z b).
    intros [= _ Heq]. destruct b; discriminate.
  - change (String y (String.append a (String x EmptyString)) = String x EmptyString -> String y a = EmptyString).
    intros [= _ Heq]. destruct a; discriminate.
  - change (String y (String.append a (String x EmptyString))
            = String z (String.append b (String x EmptyString)) -> String y a = String z b).
    intros [= -> Heq]. f_equal. by apply IH.
Qed.

Lemma default_out_field_inj of0 e e' :
  default_out_field of0 e = default_out_field of0 e' -> e = e'.
Proof.
  unfold default_out_field. intros Heq.
  apply (string_app_inv_head "d(") in Heq.
  apply string_app_inv_head in Heq.
  apply (string_app_inv_head ")/d(") in Heq.
  by apply string_app_inv_tail in Heq.
Qed.

Section Init.
Variable irreps_check : gmap string (option Irreps) -> gmap string (option Irreps) -> bool.

(** With a valid [sign], construction fails with the [AssertionError]
    "Out field names must be given for all w.r.t tensors" exactly when
    [out_field] is given and, a single name counting as a list of one, does
    not have as many names as [wrt]; every wrapper that is built has as many
    output names as fields to differentiate by. *)
Theorem out_field_length_must_match func of0 wrt_ out x f :
  to_float x = Ok f -> sign_in f = true ->
  (__init__ irreps_check func of0 wrt_ out x
     = Raise (AssertionError "Out field names must be given for all w.r.t tensors")
   <-> exists o, out = Some o /\ length (normalize o) <> length (normalize wrt_)) /\
  (forall self, __init__ irreps_check func of0 wrt_ out x = Ok self ->
     length (out_field self) = length (wrt self)).
Proof.
  intros Hf Hs. split; [split|].
  - intros Hrun. unfold __init__ in Hrun. rewrite Hf in Hrun. simpl in Hrun.
    rewrite Hs in Hrun. simpl in Hrun.
    destruct out as [o|]; simpl in Hrun.
    + exists o. split; [done|].
      destruct (length (normalize o) =? length (normalize wrt_)) eqn:Hlen;
        [|by apply Nat.eqb_neq].
      exfalso. simpl in Hrun.
      unfold _init_irreps in Hrun. destruct (irreps_check _ _); simpl in Hrun; [|discriminate].
      destruct (gradient_irreps _ _) as [grads|e] eqn:Hg; simpl in Hrun; [discriminate|].
      apply gradient_irreps_Raise in Hg as [w ->]. discriminate.
    + exfalso.
      unfold _init_irreps in Hrun. destruct (irreps_check _ _); simpl in Hrun; [|discriminate].
      destruct (gradient_irreps _ _) as [grads|e] eqn:Hg; simpl in Hrun; [discriminate|].
      apply gradient_irreps_Raise in Hg as [w ->]. discriminate.
  - intros (o & -> & Hne). unfold __init__. rewrite Hf. simpl. rewrite Hs. simpl.
    apply Nat.eqb_neq in Hne. by rewrite Hne.
  - intros self Hrun.
    by apply init_Ok in Hrun as (? & ? & _ & _ & _ & _ & _ & _ & _ & Hlen & _).
Qed.

(** When [out_field] is omitted the names are [d(of)/d(e)] for the fields
    [e] of [wrt], in order, and they are pairwise distinct exactly when the
    names in [wrt] are. *)
Theorem default_names_are_distinct func of0 wrt_ x self :
  __init__ irreps_check func of0 wrt_ None x = Ok self ->
  out_field self = map (default_out_field (of_ self)) (wrt self) /\
  (NoDup (out_field self) <-> NoDup (wrt self)).
Proof.
  intros Hrun.
  apply init_Ok in Hrun as (? & ? & _ & _ & _ & Hof & Hwrt & _ & Hout & _).
  rewrite Hof, Hwrt. split; [done|].
  rewrite Hout.
  assert (Hinj : Inj eq eq (default_out_field of0)).
  { intros e e'. apply default_out_field_inj. }
  apply (NoDup_fmap _).
Qed.

End Init.

(** One name for the gradients by "a" and "b" is rejected. *)
Lemma one_name_for_two_is_rejected :
  (one_name_for_two = Raise (AssertionError "Out field names must be given for all w.r.t tensors")
   <-> exists o, Some (Str "g") = Some o /\ length (normalize o) <> length (normalize (Strs ["a"; "b"]))) /\
  (forall self, one_name_for_two = Ok self -> length (out_field self) = length (wrt self)).
Proof.
  apply (out_field_length_must_match accept pair_model "total_energy" (Strs ["a"; "b"])
           (Some (Str "g")) (Float 1%float) 1%float).
  - reflexivity.
  - reflexivity.
Defined.

(** The default names over [pair_model]. *)
Lemma default_names_of_pair_model :
  out_field (built default_names)
    = map (default_out_field (of_ (built default_names))) (wrt (built default_names)) /\
  (NoDup (out_field (built default_names)) <-> NoDup (wrt (built default_names))).
Proof.
  apply (default_names_are_distinct accept pair_model "total_energy" (Strs ["a"; "b"])
           (Float 1%float)).
  reflexivity.
Defined.

End GradientOutputInit.

(** ** Outcomes of a computation *)

Module OutcomeFacts.

Lemma bind_any {S A B} (m : stateE S A) (f : A -> stateE S B) s r s' :
  (m ≫= f) s = (r, s') ->
  (exists e, m s = (Raise e, s') /\ r = Raise e) \/
  (exists a s1, m s = (Ok a, s1) /\ f a s1 = (r, s')).
Proof.
  unfold mbind, stateE_bind. destruct (m s) as [[a | e] s1].
  - right. eauto.
  - intros [= <- <-]. left. eauto.
Qed.

End OutcomeFacts.
Import OutcomeFacts.

(** ** [GradientOutput]: the forward pass, step by step *)

Module ForwardFacts.
Import GradientOutput GradientOutputFacts.

Lemma keeps_data_refl s : keeps_data s s.
Proof. intros x t Hx. exists t. by repeat split. Qed.

Lemma keeps_data_trans s1 s2 s3 : keeps_data s1 s2 -> keeps_data s2 s3 -> keeps_data s1 s3.
Proof.
  intros H12 H23 x t Hx. destruct (H12 x t Hx) as (t2 & Hx2 & Hs1 & Hs2).
  destruct (H23 x t2 Hx2) as (t3 & Hx3 & Hs3 & Hs4).
  exists t3. split; [done|]. split; congruence.
Qed.

Lemma getitem_any d k s r s' : getitem d k s = (r, s') -> s' = s.
Proof.
  unfold getitem, dangling, raise. destruct (dicts s !! d) as [m|]; [|by intros [= _ <-]].
  destruct (m !! k); by intros [= _ <-].
Qed.

Lemma get_requires_grad_any x s r s' : get_requires_grad x s = (r, s') -> s' = s.
Proof.
  unfold get_requires_grad, dangling, raise. destruct (tensors s !! x); by intros [= _ <-].
Qed.

Lemma requires_grad__any x b s r s' :
  requires_grad_ x b s = (r, s') -> keeps_data s s' /\ dicts s' = dicts s.
Proof.
  unfold requires_grad_, dangling, raise. destruct (tensors s !! x) as [t|] eqn:Ht.
  - intros [= _ <-]. simpl. split; [|done].
    intros y ty Hy. destruct (decide (y = x)) as [->|Hne].
    + assert (ty = t) as -> by congruence.
      exists {| requires_grad := b; shape := shape t; values := values t |}.
      split; [apply lookup_insert_eq | by split].
    + exists ty. simpl. split; [by rewrite lookup_insert_ne | by split].
  - intros [= _ <-]. split; [apply keeps_data_refl | done].
Qed.

Lemma set_requires_grad_any data wrt : forall ts bs s r s',
  set_requires_grad data wrt ts bs s = (r, s') -> keeps_data s s' /\ dicts s' = dicts s.
Proof.
  induction wrt as [|k wrt IH]; intros ts bs s r s' Hrun; simpl in Hrun.
  - injection Hrun as _ <-. split; [apply keeps_data_refl | done].
  - apply bind_any in Hrun as [(e & Hget & _) | (x & s0 & Hget & Hrun)];
      apply getitem_any in Hget as ->; [split; [apply keeps_data_refl | done]|].
    apply bind_any in Hrun as [(e & Hget & _) | (b & s0 & Hget & Hrun)];
      apply get_requires_grad_any in Hget as ->; [split; [apply keeps_data_refl | done]|].
    apply bind_any in Hrun as [(e & Hset & _) | ([] & s0 & Hset & Hrun)];
      apply requires_grad__any in Hset as [Hk Hd]; [done|].
    apply IH in Hrun as [Hk' Hd']. split; [by eapply keeps_data_trans | congruence].
Qed.

Lemma unset_requires_grad_any data pairs : forall s r s',
  unset_requires_grad data pairs s = (r, s') -> keeps_data s s' /\ dicts s' = dicts s.
Proof.
  induction pairs as [|[b k] pairs IH]; intros s r s' Hrun; simpl in Hrun.
  - injection Hrun as _ <-. split; [apply keeps_data_refl | done].
  - apply bind_any in Hrun as [(e & Hget & _) | (x & s0 & Hget & Hrun)];
      apply getitem_any in Hget as ->; [split; [apply keeps_data_refl | done]|].
    apply bind_any in Hrun as [(e & Hset & _) | ([] & s0 & Hset & Hrun)];
      apply requires_grad__any in Hset as [Hk Hd]; [done|].
    apply IH in Hrun as [Hk' Hd']. split; [by eapply keeps_data_trans | congruence].
Qed.

Lemma new_tensor_any t s r s' :
  new_tensor t s = (r, s') -> keeps_data s s' /\ dicts s' = dicts s.
Proof.
  unfold new_tensor. intros [= _ <-]. simpl. split; [|done].
  intros y ty Hy. exists ty. simpl. split; [|by split].
  rewrite lookup_insert_ne; [done|]. intros <-.
  assert (Hfresh : tensors s !! fresh (dom (tensors s)) = None).
  { apply not_elem_of_dom. apply is_fresh. }
  congruence.
Qed.

Lemma setitem_any d k x s r s' :
  setitem d k x s = (r, s') ->
  tensors s' = tensors s /\ forall d', d' <> d -> dicts s' !! d' = dicts s !! d'.
Proof.
  unfold setitem, dangling, raise. destruct (dicts s !! d) as [m|].
  - intros [= _ <-]. simpl. split; [done|]. intros d' Hne. by rewrite lookup_insert_ne.
  - by intros [= _ <-].
Qed.

Lemma store_grads_any sign d pairs : forall s r s',
  store_grads sign d pairs s = (r, s') ->
  keeps_data s s' /\ forall d', d' <> d -> dicts s' !! d' = dicts s !! d'.
Proof.
  induction pairs as [|[o [g|]] pairs IH]; intros s r s' Hrun; simpl in Hrun.
  - injection Hrun as _ <-. split; [apply keeps_data_refl | done].
  - apply bind_any in Hrun as [(e & Hnew & _) | (x & s0 & Hnew & Hrun)];
      apply new_tensor_any in Hnew as [Hk Hd]; [split; [done | intros; by rewrite Hd]|].
    apply bind_any in Hrun as [(e & Hset & _) | ([] & s1 & Hset & Hrun)];
      apply setitem_any in Hset as [Ht Hd1].
    + split.
      * intros y ty Hy. rewrite Ht. by apply Hk.
      * intros d' Hne. rewrite Hd1 by done. by rewrite Hd.
    + apply IH in Hrun as [Hk' Hd']. split.
      * eapply keeps_data_trans; [|exact Hk'].
        intros y ty Hy. rewrite Ht. by apply Hk.
      * intros d' Hne. rewrite Hd', Hd1 by done. by rewrite Hd.
  - injection Hrun as _ <-. split; [apply keeps_data_refl | done].
Qed.

Section Loops.
Variable data : loc.

Lemma set_requires_grad_run wrt : forall ts bs s,
  (forall k, k ∈ wrt -> exists x, fields s data !! k = Some x /\ is_Some (tensors s !! x)) ->
  exists xs olds s1,
    set_requires_grad data wrt ts bs s = (Ok (ts ++ xs, bs ++ olds), s1) /\
    dicts s1 = dicts s /\
    Forall2 (fun k x => fields s data !! k = Some x /\ flag s1 x = Some true) wrt xs /\
    (forall y t, tensors s !! y = Some t ->
       exists t', tensors s1 !! y = Some t' /\ same_data t' t /\ (y ∉ xs -> t' = t)) /\
    (forall y, flag s y = Some true -> flag s1 y = Some true).
Proof.
  induction wrt as [|k wrt IH]; intros ts bs s Hok.
  - exists [], [], s. rewrite !app_nil_r. simpl. split; [done|]. split; [done|].
    split; [constructor|]. split; [|done].
    intros y t Hy. exists t. by repeat split.
  - destruct (Hok k) as (x & Hx & t & Ht); [left|].
    set (sa := {| tensors := <[x := {| requires_grad := true; shape := shape t; values := values t |}]> (tensors s);
                  dicts := dicts s |}).
    destruct (IH (ts ++ [x]) (bs ++ [requires_grad t]) sa)
      as (xs & olds & s1 & Hrun & Hd & Hxs & Hkeep & Hmono).
    { intros k' Hk'. destruct (Hok k') as (x' & Hx' & t' & Ht'); [by right|].
      exists x'. split; [done|]. simpl.
      destruct (decide (x' = x)) as [->|Hne].
      - rewrite lookup_insert_eq. eauto.
      - rewrite lookup_insert_ne by done. eauto. }
    assert (Hflagx : flag s1 x = Some true).
    { apply Hmono. unfold flag. simpl. by rewrite lookup_insert_eq. }
    exists (x :: xs), (requires_grad t :: olds), s1.
    split; [|split; [done|split; [|split]]].
    + simpl. rewrite (bind_run _ _ _ _ _ (getitem_fields _ _ _ _ Hx)).
      assert (Hb : get_requires_grad x s = (Ok (requires_grad t), s)).
      { unfold get_requires_grad. by rewrite Ht. }
      rewrite (bind_run _ _ _ _ _ Hb).
      rewrite (bind_run _ _ _ _ _ (requires_grad__run _ true _ _ Ht)).
      fold sa. rewrite Hrun. by rewrite <- !app_assoc.
    + constructor; [done|].
      eapply Forall2_impl; [exact Hxs|]. intros k' x' [? ?]. done.
    + intros y ty Hy. destruct (decide (y = x)) as [->|Hne].
      * assert (ty = t) as -> by congruence.
        destruct (Hkeep x {| requires_grad := true; shape := shape t; values := values t |})
          as (t' & Ht' & [Hs1 Hs2] & _); [apply lookup_insert_eq|].
        exists t'. split; [done|]. split; [by split|].
        intros Hnot. exfalso. apply Hnot. left.
      * destruct (Hkeep y ty) as (t' & Ht' & Hsame & Hfix).
        { simpl. by rewrite lookup_insert_ne. }
        exists t'. split; [done|]. split; [done|].
        intros Hnot. apply Hfix. intros Hin. apply Hnot. by right.
    + intros y Hy. apply Hmono. unfold flag in *. simpl.
      destruct (decide (y = x)) as [->|Hne].
      * by rewrite lookup_insert_eq.
      * by rewrite lookup_insert_ne.
Qed.

Lemma set_requires_grad_missing m k post pre : forall ts bs s,
  dicts s !! data = Some m ->
  (forall k', k' ∈ pre -> exists x, m !! k' = Some x /\ is_Some (tensors s !! x)) ->
  m !! k = None ->
  exists s',
    set_requires_grad data (pre ++ k :: post) ts bs s = (Raise (KeyError k), s') /\
    dicts s' = dicts s /\
    (forall k' x, k' ∈ pre -> m !! k' = Some x -> flag s' x = Some true) /\
    (forall y, (forall k', k' ∈ pre -> m !! k' <> Some y) -> tensors s' !! y = tensors s !! y) /\
    (forall y, flag s y = Some true -> flag s' y = Some true).
Proof.
  induction pre as [|k0 pre IH]; intros ts bs s Hm Hok Hk.
  - exists s. simpl. split.
    + apply bind_fail. unfold getitem. by rewrite Hm, Hk.
    + split; [done|]. split; [|done]. intros k' x Hin. by apply elem_of_nil in Hin.
  - destruct (Hok k0) as (x & Hx & t & Ht); [left|].
    set (sa := {| tensors := <[x := {| requires_grad := true; shape := shape t; values := values t |}]> (tensors s);
                  dicts := dicts s |}).
    destruct (IH (ts ++ [x]) (bs ++ [requires_grad t]) sa) as (s' & Hrun & Hd & Hset & Hframe & Hmono);
      [done| |done|].
    { intros k' Hk'. destruct (Hok k') as (x' & Hx' & t' & Ht'); [by right|].
      exists x'. split; [done|]. simpl.
      destruct (decide (x' = x)) as [->|Hne].
      - rewrite lookup_insert_eq. eauto.
      - rewrite lookup_insert_ne by done. eauto. }
    exists s'. split; [|split; [done|split; [|split]]].
    + simpl. assert (Hg : getitem data k0 s = (Ok x, s)).
      { unfold getitem. by rewrite Hm, Hx. }
      rewrite (bind_run _ _ _ _ _ Hg).
      assert (Hb : get_requires_grad x s = (Ok (requires_grad t), s)).
      { unfold get_requires_grad. by rewrite Ht. }
      rewrite (bind_run _ _ _ _ _ Hb).
      rewrite (bind_run _ _ _ _ _ (requires_grad__run _ true _ _ Ht)).
      exact Hrun.
    + intros k' x' Hin Hx'. apply elem_of_cons in Hin as [-> | Hin]; [|by eapply Hset].
      assert (x' = x) as -> by congruence.
      apply Hmono. unfold flag. simpl. by rewrite lookup_insert_eq.
    + intros y Hy. rewrite Hframe.
      * simpl. rewrite lookup_insert_ne; [done|]. intros <-. by apply (Hy k0); [left|].
      * intros k' Hin. apply Hy. by right.
    + intros y Hy. apply Hmono. unfold flag in *. simpl.
      destruct (decide (y = x)) as [->|Hne].
      * by rewrite lookup_insert_eq.
      * by rewrite lookup_insert_ne.
Qed.

End Loops.
End ForwardFacts.

(** ** [GradientOutput]: what the forward pass changes *)

Module GradientOutputForward.
Import GradientOutput GradientOutputFacts ForwardFacts Example.

Section Forward.
Variable autograd_grad : store -> loc -> list loc -> bool -> result (list (option Tensor)).

(** When the input dictionary holds a tensor under every name of [wrt],
    the first loop of [forward] returns: the wrapped model is then called on
    the same dictionaries, with every [wrt] tensor flagged as requiring a
    gradient, no tensor having changed shape or values and no other tensor
    having changed at all. An error of the wrapped model is the error of
    [forward], with the store as the model left it. *)
Theorem forward_runs_model_with_flags_set (self : GradientOutput.t) data s :
  (forall k, k ∈ wrt self -> exists x, fields s data !! k = Some x /\ is_Some (tensors s !! x)) ->
  exists xs olds s1,
    set_requires_grad data (wrt self) [] [] s = (Ok (xs, olds), s1) /\
    dicts s1 = dicts s /\
    Forall2 (fun k x => fields s data !! k = Some x /\ flag s1 x = Some true) (wrt self) xs /\
    (forall y t, tensors s !! y = Some t ->
       exists t', tensors s1 !! y = Some t' /\ same_data t' t /\ (y ∉ xs -> t' = t)) /\
    (forall e s2, GraphModuleMixin.call (func self) data s1 = (Raise e, s2) ->
       forward autograd_grad self data s = (Raise e, s2)) /\
    (forall data' s', forward autograd_grad self data s = (Ok data', s') ->
       exists s2, GraphModuleMixin.call (func self) data s1 = (Ok data', s2)).
Proof.
  intros Hok.
  destruct (set_requires_grad_run data (wrt self) [] [] s Hok)
    as (xs & olds & s1 & Hrun & Hd & Hxs & Hkeep & _).
  simpl in Hrun. exists xs, olds, s1.
  split; [done|]. split; [done|]. split; [done|]. split; [done|]. split.
  - intros e s2 Hcall. unfold forward.
    rewrite (bind_run _ _ _ _ _ Hrun). cbn beta iota.
    by rewrite (bind_fail _ _ _ _ _ Hcall).
  - intros data' s' Hfw. unfold forward in Hfw.
    rewrite (bind_run _ _ _ _ _ Hrun) in Hfw. cbn beta iota in Hfw.
    apply bind_Ok in Hfw as (d' & s2 & Hcall & Hfw).
    apply bind_Ok in Hfw as (y & s3 & _ & Hfw).
    apply bind_Ok in Hfw as (gs & s4 & _ & Hfw).
    apply bind_Ok in Hfw as ([] & s5 & _ & Hfw).
    apply bind_Ok in Hfw as ([] & s6 & _ & Hret).
    injection Hret as -> _. eauto.
Qed.

(** When the input dictionary lacks a name [k] of [wrt] and holds a tensor
    under every name before it, [forward] raises [KeyError k], whatever the
    wrapped model is: no dictionary has changed, the tensors of the names
    before [k] are left flagged as requiring a gradient, and no other tensor
    has changed. *)
Theorem forward_missing_input_field (self : GradientOutput.t) data s m pre k post :
  dicts s !! data = Some m ->
  wrt self = pre ++ k :: post ->
  (forall k', k' ∈ pre -> exists x, m !! k' = Some x /\ is_Some (tensors s !! x)) ->
  m !! k = None ->
  exists s',
    forward autograd_grad self data s = (Raise (KeyError k), s') /\
    dicts s' = dicts s /\
    (forall k' x, k' ∈ pre -> m !! k' = Some x -> flag s' x = Some true) /\
    (forall y, (forall k', k' ∈ pre -> m !! k' <> Some y) -> tensors s' !! y = tensors s !! y).
Proof.
  intros Hm Hwrt Hok Hk.
  destruct (set_requires_grad_missing data m k post pre [] [] s Hm Hok Hk)
    as (s' & Hrun & Hd & Hset & Hframe & _).
  exists s'. split; [|done].
  unfold forward. rewrite Hwrt. by rewrite (bind_fail _ _ _ _ _ Hrun).
Qed.

(** Whatever the outcome of [forward], its own steps never change the
    shape or values of a tensor that exists, nor remove one: up to the call
    of the wrapped model only flags change; after it flags change, tensors
    are added, and no dictionary but the one the model returned is
    written. *)
Theorem forward_keeps_tensor_data (self : GradientOutput.t) data s r s' :
  forward autograd_grad self data s = (r, s') ->
  (exists e, r = Raise e /\ keeps_data s s' /\ dicts s' = dicts s) \/
  (exists xs olds s1 r2 s2,
     set_requires_grad data (wrt self) [] [] s = (Ok (xs, olds), s1) /\
     keeps_data s s1 /\ dicts s1 = dicts s /\
     GraphModuleMixin.call (func self) data s1 = (r2, s2) /\
     match r2 with
     | Raise e => r = Raise e /\ s' = s2
     | Ok data' =>
         keeps_data s2 s' /\
         (forall d, d <> data' -> dicts s' !! d = dicts s2 !! d) /\
         (r = Ok data' \/ exists e, r = Raise e)
     end).
Proof.
  unfold forward. intros Hrun.
  apply bind_any in Hrun as [(e & Hset & ->) | ([xs olds] & s1 & Hset & Hrun)].
  { left. exists e. split; [done|]. by apply set_requires_grad_any in Hset. }
  right. exists xs, olds, s1.
  pose proof (set_requires_grad_any _ _ _ _ _ _ _ Hset) as [Hk1 Hd1].
  apply bind_any in Hrun as [(e & Hcall & ->) | (data' & s2 & Hcall & Hrun)].
  { exists (Raise e), s'. by repeat split. }
  exists (Ok data'), s2. split; [done|]. split; [done|]. split; [done|]. split; [done|].
  apply bind_any in Hrun as [(e & Hy & ->) | (y & s3 & Hy & Hrun)];
    apply getitem_any in Hy as ->.
  { split; [apply keeps_data_refl|]. split; [done|]. right. eauto. }
  apply bind_any in Hrun as [(e & Hg & ->) | (gs & s3 & Hg & Hrun)].
  { injection Hg as _ <-. split; [apply keeps_data_refl|]. split; [done|]. right. eauto. }
  injection Hg as _ <-.
  apply bind_any in Hrun as [(e & Hst & ->) | ([] & s4 & Hst & Hrun)];
    apply store_grads_any in Hst as [Hk4 Hd4].
  { split; [done|]. split; [done|]. right. eauto. }
  apply bind_any in Hrun as [(e & Hun & ->) | ([] & s5 & Hun & Hrun)];
    apply unset_requires_grad_any in Hun as [Hk5 Hd5].
  { split; [by eapply keeps_data_trans|]. split; [|right; eauto].
    intros d Hne. rewrite Hd5. by apply Hd4. }
  injection Hrun as <- <-.
  split; [by eapply keeps_data_trans|]. split; [|by left].
  intros d Hne. rewrite Hd5. by apply Hd4.
Qed.

End Forward.

(** The energy model of [force_output] runs with "positions" flagged. *)
Lemma force_model_sees_positions_flag_set :
  exists xs olds s1,
    set_requires_grad 0 (wrt (built force_output)) [] [] batch = (Ok (xs, olds), s1) /\
    dicts s1 = dicts batch /\
    Forall2 (fun k x => fields batch 0 !! k = Some x /\ flag s1 x = Some true)
            (wrt (built force_output)) xs /\
    (forall y t, tensors batch !! y = Some t ->
       exists t', tensors s1 !! y = Some t' /\ same_data t' t /\ (y ∉ xs -> t' = t)) /\
    (forall e s2, GraphModuleMixin.call (func (built force_output)) 0 s1 = (Raise e, s2) ->
       forward grad_by_index (built force_output) 0 batch = (Raise e, s2)) /\
    (forall data' s', forward grad_by_index (built force_output) 0 batch = (Ok data', s') ->
       exists s2, GraphModuleMixin.call (func (built force_output)) 0 s1 = (Ok data', s2)).
Proof.
  apply (forward_runs_model_with_flags_set grad_by_index (built force_output) 0 batch).
  intros k Hk. apply list_elem_of_singleton in Hk as ->.
  exists 0. split; [vm_compute; reflexivity|]. eexists. vm_compute. reflexivity.
Defined.

(** On a batch without "b" the wrapper over "a" and "b" raises [KeyError]. *)
Lemma half_batch_lacks_b :
  exists s',
    forward grad_by_index (built two_names) 0 half_batch = (Raise (KeyError "b"), s') /\
    dicts s' = dicts half_batch /\
    (forall k' x, k' ∈ ["a"] -> ({[ "a" := 0 ]} : gmap string loc) !! k' = Some x -> flag s' x = Some true) /\
    (forall y, (forall k', k' ∈ ["a"] -> ({[ "a" := 0 ]} : gmap string loc) !! k' <> Some y) ->
       tensors s' !! y = tensors half_batch !! y).
Proof.
  apply (forward_missing_input_field grad_by_index (built two_names) 0 half_batch
           {[ "a" := 0 ]} ["a"] "b" []).
  - reflexivity.
  - reflexivity.
  - intros k' Hk'. apply list_elem_of_singleton in Hk' as ->.
    exists 0. split; [vm_compute; reflexivity|]. eexists. vm_compute. reflexivity.
  - vm_compute. reflexivity.
Defined.

(** The forward pass of [force_output] on [batch] keeps the data of every tensor. *)
Lemma force_forward_keeps_positions_data :
  (exists e, (forward grad_by_index (built force_output) 0 batch).1 = Raise e /\
     keeps_data batch (forward grad_by_index (built force_output) 0 batch).2 /\
     dicts (forward grad_by_index (built force_output) 0 batch).2 = dicts batch) \/
  (exists xs olds s1 r2 s2,
     set_requires_grad 0 (wrt (built force_output)) [] [] batch = (Ok (xs, olds), s1) /\
     keeps_data batch s1 /\ dicts s1 = dicts batch /\
     GraphModuleMixin.call (func (built force_output)) 0 s1 = (r2, s2) /\
     match r2 with
     | Raise e => (forward grad_by_index (built force_output) 0 batch).1 = Raise e /\
                  (forward grad_by_index (built force_output) 0 batch).2 = s2
     | Ok data' =>
         keeps_data s2 (forward grad_by_index (built force_output) 0 batch).2 /\
         (forall d, d <> data' ->
            dicts (forward grad_by_index (built force_output) 0 batch).2 !! d = dicts s2 !! d) /\
         ((forward grad_by_index (built force_output) 0 batch).1 = Ok data' \/
          exists e, (forward grad_by_index (built force_output) 0 batch).1 = Raise e)
     end).
Proof.
  apply (forward_keeps_tensor_data grad_by_index (built force_output) 0 batch).
  apply surjective_pairing.
Defined.

End GradientOutputForward.

(** ** [GradientOutput]: the request to the engine *)

Module GradientRequest.
Import GradientOutput GradientOutputFacts Example.

Lemma bind_ext_at {S A B} (m m' : stateE S A) (f : A -> stateE S B) s :
  m s = m' s -> (m ≫= f) s = (m' ≫= f) s.
Proof. unfold mbind, stateE_bind. by intros ->. Qed.

Section Forward.
Variables autograd_grad autograd_grad'
  : store -> loc -> list loc -> bool -> result (list (option Tensor)).

(** [forward] asks the engine one question: the gradient of the field
    [of] of the dictionary the model returned, with respect to the tensor
    objects the input dictionary held under [wrt] before the model ran, with
    [create_graph = training]. Two engines that agree on that answer give
    the same forward pass; an error of the engine is the error of
    [forward]; and when the model's output lacks [of], [forward] raises
    [KeyError] without the engine. *)
Theorem forward_requests_gradient_of_output (self : GradientOutput.t) data s xs olds s1 data' s2 :
  set_requires_grad data (wrt self) [] [] s = (Ok (xs, olds), s1) ->
  GraphModuleMixin.call (func self) data s1 = (Ok data', s2) ->
  Forall2 (fun k x => fields s data !! k = Some x) (wrt self) xs /\
  match fields s2 data' !! of_ self with
  | Some y =>
      (autograd_grad s2 y xs (training self) = autograd_grad' s2 y xs (training self) ->
       forward autograd_grad self data s = forward autograd_grad' self data s) /\
      (forall e, autograd_grad s2 y xs (training self) = Raise e ->
         forward autograd_grad self data s = (Raise e, s2))
  | None =>
      is_Some (dicts s2 !! data') ->
      forward autograd_grad self data s = (Raise (KeyError (of_ self)), s2)
  end.
Proof.
  intros Hset Hcall. split.
  { apply set_requires_grad_Ok in Hset as (_ & xs' & olds' & [= -> ->] & Hxs & _). exact Hxs. }
  destruct (fields s2 data' !! of_ self) as [y|] eqn:Hy.
  - split.
    + intros Hsame. unfold forward.
      rewrite !(bind_run _ _ _ _ _ Hset). cbn beta iota.
      rewrite !(bind_run _ _ _ _ _ Hcall).
      rewrite !(bind_run _ _ _ _ _ (getitem_fields _ _ _ _ Hy)).
      apply bind_ext_at. by rewrite Hsame.
    + intros e He. unfold forward.
      rewrite (bind_run _ _ _ _ _ Hset). cbn beta iota.
      rewrite (bind_run _ _ _ _ _ Hcall).
      rewrite (bind_run _ _ _ _ _ (getitem_fields _ _ _ _ Hy)).
      apply bind_fail. by rewrite He.
  - intros [m Hm]. unfold forward.
    rewrite (bind_run _ _ _ _ _ Hset). cbn beta iota.
    rewrite (bind_run _ _ _ _ _ Hcall).
    apply bind_fail. unfold getitem. rewrite Hm.
    unfold fields in Hy. rewrite Hm in Hy. simpl in Hy. by rewrite Hy.
Qed.

End Forward.

(** The question [force_output] asks on [batch]. *)
Lemma force_output_requests_energy_gradient :
  Forall2 (fun k x => fields batch 0 !! k = Some x) (wrt (built force_output)) [0] /\
  match fields (after_model (built force_output) 0 batch) 0 !! of_ (built force_output) with
  | Some y =>
      (grad_by_index (after_model (built force_output) 0 batch) y [0] (training (built force_output))
       = grad_undefined (after_model (built force_output) 0 batch) y [0] (training (built force_output)) ->
       forward grad_by_index (built force_output) 0 batch
       = forward grad_undefined (built force_output) 0 batch) /\
      (forall e,
         grad_by_index (after_model (built force_output) 0 batch) y [0] (training (built force_output))
         = Raise e ->
         forward grad_by_index (built force_output) 0 batch
         = (Raise e, after_model (built force_output) 0 batch))
  | None =>
      is_Some (dicts (after_model (built force_output) 0 batch) !! 0) ->
      forward grad_by_index (built force_output) 0 batch
      = (Raise (KeyError (of_ (built force_output))), after_model (built force_output) 0 batch)
  end.
Proof.
  apply (forward_requests_gradient_of_output grad_by_index grad_undefined (built force_output)
           0 batch [0] [false] (prepared (built force_output) 0 batch) 0
           (after_model (built force_output) 0 batch)).
  - vm_compute. reflexivity.
  - vm_compute. reflexivity.
Defined.

End GradientRequest.

(** ** Dictionaries: [update], [remove] and the order of keys *)

Module PyDictMore.
Section Dict.
Context {K V : Type} `{EqDecision K}.
Implicit Types (d : list (K * V)) (k : K) (v : V).

Lemma contains_remove_eq k d : PyDict.contains k (PyDict.remove k d) = false.
Proof.
  apply contains_false. induction d as [|[k' v'] d IH]; simpl; [done|].
  destruct (decide (k = k')) as [->|Hne]; simpl; [done|]. by rewrite decide_False.
Qed.

Lemma contains_remove_ne k k' d :
  k <> k' -> PyDict.contains k (PyDict.remove k' d) = PyDict.contains k d.
Proof. intros Hne. unfold PyDict.contains. by rewrite get_remove_ne. Qed.

Lemma dict_update_cons d k v items :
  PyDict.update d ((k, v) :: items) = PyDict.update (PyDict.set k v d) items.
Proof. reflexivity. Qed.

Lemma contains_update k items : forall d,
  PyDict.contains k (PyDict.update d items)
  = PyDict.contains k d || PyDict.contains k items.
Proof.
  induction items as [|[k' v'] items IH]; intros d.
  - by rewrite orb_false_r.
  - rewrite dict_update_cons, IH, contains_set. unfold PyDict.contains at 4. simpl.
    destruct (decide (k = k')) as [->|Hne].
    + rewrite bool_decide_eq_true_2 by done. simpl. by rewrite orb_true_r.
    + rewrite bool_decide_eq_false_2 by done. simpl.
      by fold (PyDict.contains k items).
Qed.

Lemma set_keys k v d :
  (PyDict.set k v d).*1 = if PyDict.contains k d then d.*1 else d.*1 ++ [k].
Proof.
  induction d as [|[k' v'] d IH]; [done|]. unfold PyDict.contains in *. simpl.
  destruct (decide (k = k')) as [->|Hne]; [done|]. simpl.
  change (list_fmap (K * V)%type K fst (PyDict.set k v d)) with ((PyDict.set k v d).*1).
  rewrite IH. by destruct (PyDict.get k d).
Qed.

Lemma get_None_keys k d : PyDict.get k d = None <-> k ∉ d.*1.
Proof.
  induction d as [|[k' v'] d IH]; simpl.
  - split; [intros _; apply not_elem_of_nil | done].
  - destruct (decide (k = k')) as [->|Hne].
    + split; [done|]. intros Hn. exfalso. apply Hn. left.
    + rewrite IH, not_elem_of_cons. split; [by split | by intros [_ ?]].
Qed.

Lemma set_NoDup k v d : NoDup d.*1 -> NoDup (PyDict.set k v d).*1.
Proof.
  intros Hnd. rewrite set_keys. destruct (PyDict.contains k d) eqn:Hc; [done|].
  apply NoDup_app. split; [done|]. split; [|apply NoDup_singleton].
  intros x Hx Hx'. apply list_elem_of_singleton in Hx' as ->.
  apply contains_false in Hc. by apply get_None_keys in Hc.
Qed.

Lemma update_NoDup items : forall d, NoDup d.*1 -> NoDup (PyDict.update d items).*1.
Proof.
  induction items as [|[k v] items IH]; intros d Hnd; [done|].
  rewrite dict_update_cons. by apply IH, set_NoDup.
Qed.

Lemma remove_subseteq k d : (PyDict.remove k d) ⊆ d.
Proof.
  induction d as [|[k' v'] d IH]; simpl; [done|].
  destruct (decide (k = k')).
  - intros x Hx. right. by apply IH.
  - intros x Hx. apply elem_of_cons in Hx as [-> | Hx]; [left | right; by apply IH].
Qed.

Lemma remove_NoDup k d : NoDup d.*1 -> NoDup (PyDict.remove k d).*1.
Proof.
  induction d as [|[k' v'] d IH]; simpl; [done|].
  intros Hnd. apply NoDup_cons in Hnd as [Hnot Hnd].
  destruct (decide (k = k')); [by apply IH|]. simpl. apply NoDup_cons. split; [|by apply IH].
  intros Hin. apply Hnot. apply list_elem_of_fmap in Hin as ([k1 v1] & -> & Hin).
  apply list_elem_of_fmap. exists (k1, v1). split; [done|]. by apply remove_subseteq in Hin.
Qed.

(** [d.update(items)] for items with distinct keys: an item of [items]
    wins over the entry of [d]. *)
Lemma get_update k items : forall d,
  NoDup items.*1 ->
  PyDict.get k (PyDict.update d items)
  = match PyDict.get k items with Some v => Some v | None => PyDict.get k d end.
Proof.
  induction items as [|[k' v'] items IH]; intros d Hnd; [done|].
  simpl in Hnd. apply NoDup_cons in Hnd as [Hnot Hnd].
  rewrite dict_update_cons, IH by done. simpl.
  destruct (decide (k = k')) as [->|Hne].
  - apply get_None_keys in Hnot. rewrite Hnot. apply get_set_eq.
  - by rewrite get_set_ne.
Qed.

End Dict.
End PyDictMore.
Import PyDictMore.

(** ** [Metrics]: what the specs configure *)

Module MetricsInitFacts.
Import Metrics MetricsConfigFacts.

Lemma parse_params_NoDup c key red params :
  parse c = Ok (key, red, params) -> NoDup params.*1.
Proof.
  destruct c as [k | items]; simpl.
  - intros [= _ _ <-]. constructor.
  - destruct items as [|a [|b [|o [|? ?]]]]; try discriminate.
    + intros [= _ _ <-]. constructor.
    + intros [= _ _ <-]. constructor.
    + destruct o; try discriminate. intros [= _ _ <-].
      apply update_NoDup. constructor.
Qed.

Section Engine.
Context `{Collaborators}.

(** What one spec changes in the engine. *)
Lemma add_component_spec self c self' :
  add_component self c = Ok self' ->
  exists key red params kw0 ps0,
    parse c = Ok (PStr key, PStr red, params) /\
    (if PyDict.contains key (running_stats self)
     then PyDict.get key (kwargs self) = Some kw0 /\
          PyDict.get key (per_species self) = Some ps0 /\
          running_stats self' = running_stats self
     else kw0 = [] /\ ps0 = [] /\
          running_stats self' = PyDict.set key [] (running_stats self)) /\
    (forall k, PyDict.get k (kwargs self')
       = if decide (k = key)
         then Some (PyDict.set red
                      (PyDict.update [("reduction", to_reduction red)]
                         (PyDict.remove "PerSpecies" (PyDict.remove "functional" params)))
                      kw0)
         else PyDict.get k (kwargs self)) /\
    (forall k, PyDict.get k (per_species self')
       = if decide (k = key)
         then Some (PyDict.set red
                      (default (PBool false)
                         (PyDict.get "PerSpecies" (PyDict.remove "functional" params)))
                      ps0)
         else PyDict.get k (per_species self)).
Proof.
  unfold add_component. intros Hrun.
  apply result_bind_Ok in Hrun as ([[key0 red0] params] & Hparse & Hrun).
  unfold PyDict.pop in Hrun. cbn beta iota zeta in Hrun.
  apply result_bind_Ok in Hrun as (key & Hkey & Hrun). apply as_str_Ok in Hkey as ->.
  apply result_bind_Ok in Hrun as (red & Hred & Hrun). apply as_str_Ok in Hred as ->.
  apply result_bind_Ok in Hrun as (mid & Hmid & Hrun).
  apply result_bind_Ok in Hrun as (kw & Hkw & Hrun). apply dict_getitem_Ok in Hkw.
  apply result_bind_Ok in Hrun as (ps & Hps & [= <-]). apply dict_getitem_Ok in Hps.
  exists key, red, params, kw, ps. split; [done|]. simpl.
  destruct (PyDict.contains key (running_stats self)) eqn:Hin.
  - injection Hmid as <-. split; [done|]. split.
    + intros k. destruct (decide (k = key)) as [->|Hne];
        [apply get_set_eq | by apply get_set_ne].
    + intros k. destruct (decide (k = key)) as [->|Hne];
        [apply get_set_eq | by apply get_set_ne].
  - apply result_bind_Ok in Hmid as (f & Hf & [= <-]). simpl in *.
    rewrite get_set_eq in Hkw. rewrite get_set_eq in Hps.
    injection Hkw as <-. injection Hps as <-.
    split; [done|]. split.
    + intros k. destruct (decide (k = key)) as [->|Hne];
        [apply get_set_eq | by rewrite !get_set_ne].
    + intros k. destruct (decide (k = key)) as [->|Hne];
        [apply get_set_eq | by rewrite !get_set_ne].
Qed.

(** The stored keyword arguments of every pair satisfy [P] when the
    arguments built from any spec do. *)
Lemma add_components_kwargs (P : list (string * pyval) -> Prop) cs : forall self self',
  (forall red params, NoDup params.*1 ->
     P (PyDict.update [("reduction", to_reduction red)]
          (PyDict.remove "PerSpecies" (PyDict.remove "functional" params)))) ->
  add_components self cs = Ok self' ->
  (forall key kws red kw, PyDict.get key (kwargs self) = Some kws ->
     PyDict.get red kws = Some kw -> P kw) ->
  forall key kws red kw, PyDict.get key (kwargs self') = Some kws ->
    PyDict.get red kws = Some kw -> P kw.
Proof.
  induction cs as [|c cs IH]; intros self self' HP Hrun Hinv; simpl in Hrun.
  - by injection Hrun as <-.
  - apply result_bind_Ok in Hrun as (self1 & Hadd & Hrun).
    apply (IH self1 self' HP Hrun).
    apply add_component_spec in Hadd
      as (key0 & red0 & params & kw0 & ps0 & Hparse & Hold & Hkw & _).
    intros key kws red kw Hkws Hred. rewrite Hkw in Hkws.
    destruct (decide (key = key0)) as [->|Hne]; [|by eapply Hinv].
    injection Hkws as <-.
    destruct (decide (red = red0)) as [->|Hne'].
    + rewrite get_set_eq in Hred. injection Hred as <-.
      apply HP. by eapply parse_params_NoDup.
    + rewrite get_set_ne in Hred by done.
      destruct (PyDict.contains key0 (running_stats self)).
      * destruct Hold as (Hk0 & _). by eapply Hinv.
      * destruct Hold as (-> & _). done.
Qed.

Lemma add_components_last cs c self self' :
  add_components self (cs ++ [c]) = Ok self' ->
  exists self1, add_components self cs = Ok self1 /\ add_component self1 c = Ok self'.
Proof.
  rewrite add_components_app. intros Hrun.
  apply result_bind_Ok in Hrun as (self1 & H1 & H2). eauto.
Qed.

(** No statistic is constructed by [add_components]; the keys are those
    of the specs. *)
Lemma add_components_stats cs : forall self self',
  add_components self cs = Ok self' ->
  (forall key, PyDict.contains key (running_stats self') = true <->
     PyDict.contains key (running_stats self) = true \/
     exists c, c ∈ cs /\ mentions c = Some key) /\
  ((forall key stats, PyDict.get key (running_stats self) = Some stats -> stats = []) ->
   forall key stats, PyDict.get key (running_stats self') = Some stats -> stats = []).
Proof.
  induction cs as [|c cs IH]; intros self self' Hrun; simpl in Hrun.
  - injection Hrun as <-. split; [|done]. intros key. split; [by left|].
    intros [? | (c & Hc & _)]; [done | by apply elem_of_nil in Hc].
  - apply result_bind_Ok in Hrun as (self1 & Hadd & Hrun).
    apply IH in Hrun as [Hkeys Hempty].
    apply add_component_spec in Hadd
      as (key0 & red0 & params & kw0 & ps0 & Hparse & Hold & _).
    pose proof (mentions_parse _ _ _ _ Hparse) as Hm.
    assert (Hrs : forall key, PyDict.contains key (running_stats self1)
                  = bool_decide (key = key0) || PyDict.contains key (running_stats self)).
    { intros key. destruct (PyDict.contains key0 (running_stats self)) eqn:Hin.
      - destruct Hold as (_ & _ & ->). destruct (decide (key = key0)) as [->|Hne].
        + by rewrite Hin, bool_decide_eq_true_2.
        + by rewrite bool_decide_eq_false_2.
      - destruct Hold as (_ & _ & ->). apply contains_set. }
    split.
    + intros key. rewrite Hkeys, Hrs. split.
      * intros [Hk | (c' & Hc' & Hm')].
        -- apply orb_true_iff in Hk as [Hk | Hk]; [|by left].
           apply bool_decide_eq_true in Hk as ->. right. exists c. split; [left | done].
        -- right. exists c'. split; [by right | done].
      * intros [Hk | (c' & Hc' & Hm')].
        -- left. rewrite Hk. apply orb_true_r.
        -- apply elem_of_cons in Hc' as [-> | Hc']; [|right; eauto].
           left. rewrite Hm in Hm'. injection Hm' as ->.
           by rewrite bool_decide_eq_true_2.
    + intros Hinv. apply Hempty. intros key stats Hget.
      destruct (PyDict.contains key0 (running_stats self)) eqn:Hin.
      * destruct Hold as (_ & _ & Heq). rewrite Heq in Hget. by eapply Hinv.
      * destruct Hold as (_ & _ & Heq). rewrite Heq in Hget.
        destruct (decide (key = key0)) as [->|Hne].
        -- rewrite get_set_eq in Hget. by injection Hget as <-.
        -- rewrite get_set_ne in Hget by done. by eapply Hinv.
Qed.

End Engine.
End MetricsInitFacts.

Module MetricsInitSpec.
Import Metrics MetricsConfigFacts MetricsInitFacts Example.

Section Engine.
Context `{Collaborators}.

(** The options [functional] and [PerSpecies] of a spec are consumed by
    the engine: the keyword arguments kept for [RunningStats] never hold
    them, and always hold [reduction]. *)
Theorem engine_options_are_not_passed_on components self key kws reduction kw :
  __init__ components = Ok self ->
  PyDict.get key (kwargs self) = Some kws ->
  PyDict.get reduction kws = Some kw ->
  PyDict.contains "functional" kw = false /\
  PyDict.contains "PerSpecies" kw = false /\
  PyDict.contains "reduction" kw = true.
Proof.
  unfold __init__. intros Hrun Hkws Hkw.
  refine (add_components_kwargs
            (fun kw => PyDict.contains "functional" kw = false /\
                       PyDict.contains "PerSpecies" kw = false /\
                       PyDict.contains "reduction" kw = true)
            components empty self _ Hrun _ key kws reduction kw Hkws Hkw).
  - intros red params _. rewrite !contains_update.
    rewrite contains_remove_eq.
    rewrite contains_remove_ne by done. rewrite contains_remove_eq.
    done.
  - intros ? ? ? ? Hget. discriminate.
Qed.

(** The last spec of the list decides the options of its pair: the
    keyword [reduction] is the one its options give or else the value of
    [metrics_to_reduction] for the reduction name, the name itself when the
    table has none; every other option but [functional] and [PerSpecies] is
    kept as given; and per-species grouping is the [PerSpecies] option,
    [False] by default. *)
Theorem last_spec_sets_options components c self key reduction params :
  __init__ (components ++ [c]) = Ok self ->
  parse c = Ok (PStr key, PStr reduction, params) ->
  exists kws pss kw ps,
    PyDict.get key (kwargs self) = Some kws /\ PyDict.get reduction kws = Some kw /\
    PyDict.get key (per_species self) = Some pss /\ PyDict.get reduction pss = Some ps /\
    PyDict.get "reduction" kw
      = Some (default (to_reduction reduction) (PyDict.get "reduction" params)) /\
    (forall k, k <> "functional" -> k <> "PerSpecies" -> k <> "reduction" ->
       PyDict.get k kw = PyDict.get k params) /\
    ps = default (PBool false) (PyDict.get "PerSpecies" params).
Proof.
  unfold __init__. intros Hrun Hparse.
  apply add_components_last in Hrun as (self1 & _ & Hadd).
  apply add_component_spec in Hadd
    as (key0 & red0 & params0 & kw0 & ps0 & Hparse0 & _ & Hkw & Hps).
  rewrite Hparse in Hparse0. injection Hparse0 as <- <- <-.
  pose proof (parse_params_NoDup _ _ _ _ Hparse) as Hnd.
  eexists _, _, _, _.
  split; [rewrite Hkw; by rewrite decide_True|]. split; [apply get_set_eq|].
  split; [rewrite Hps; by rewrite decide_True|]. split; [apply get_set_eq|].
  assert (Hnd' : NoDup (PyDict.remove "PerSpecies" (PyDict.remove "functional" params)).*1).
  { by do 2 apply remove_NoDup. }
  split; [|split].
  - rewrite get_update by done. rewrite !get_remove_ne by done.
    by destruct (PyDict.get "reduction" params).
  - intros k H1 H2 H3. rewrite get_update by done. rewrite !get_remove_ne by done.
    destruct (PyDict.get k params); [done|]. simpl. by rewrite decide_False.
  - by rewrite get_remove_ne.
Qed.

(** Construction builds no statistic: the keys of [running_stats] are the
    keys the specs mention, each with an empty dictionary. *)
Theorem init_constructs_no_statistic components self :
  __init__ components = Ok self ->
  (forall key, PyDict.contains key (running_stats self) = true <->
     exists c, c ∈ components /\ mentions c = Some key) /\
  (forall key stats, PyDict.get key (running_stats self) = Some stats -> stats = []) /\
  (forall key reduction, ~ has_stat self key reduction).
Proof.
  unfold __init__. intros Hrun.
  apply add_components_stats in Hrun as [Hkeys Hempty].
  assert (Hnone : forall key stats,
            PyDict.get key (running_stats self) = Some stats -> stats = []).
  { apply Hempty. intros key stats Hget. discriminate. }
  split; [|split; [done|]].
  - intros key. rewrite Hkeys. split; [|by right].
    intros [Hk | ?]; [discriminate | done].
  - intros key reduction (stats & stat & Hstats & Hstat).
    apply Hnone in Hstats as ->. discriminate.
Qed.

End Engine.

(** The keyword arguments kept for the per-species RMSE of the forces. *)
Lemma component_options_stay_in_engine :
  PyDict.contains "functional" [("reduction", PReduction RMS); ("report_per_component", PBool true)] = false /\
  PyDict.contains "PerSpecies" [("reduction", PReduction RMS); ("report_per_component", PBool true)] = false /\
  PyDict.contains "reduction" [("reduction", PReduction RMS); ("report_per_component", PBool true)] = true.
Proof.
  apply (@engine_options_are_not_passed_on simple_engine per_species_components
           (engine per_species_components) "forces"
           [("rmse", [("reduction", PReduction RMS); ("report_per_component", PBool true)])]
           "rmse").
  - reflexivity.
  - reflexivity.
  - reflexivity.
Defined.

End MetricsInitSpec.

Module MetricsInitRunstat.
Import Metrics MetricsCallFacts.
Section Engine.
Context `{Collaborators}.

(** The keyword arguments [init_runstat] hands to [RunningStats]. [dim] is
    always among them. When [reduce_dims] was configured it is kept, and
    [report_per_component] is passed on as it is; otherwise
    [report_per_component] is never passed on, and [reduce_dims] is
    [tuple(range(len(error.shape) - 1))] unless [report_per_component] is
    true, in which case it is left out. Every other option is passed on as
    configured. *)
Theorem init_runstat_reduce_dims params error :
  exists kw,
    init_runstat params error = (rs ← RunningStats_init kw; Ok (to_device rs error)) /\
    PyDict.contains "dim" kw = true /\
    (forall k, k <> "dim" -> k <> "reduce_dims" -> k <> "report_per_component" ->
       PyDict.get k kw = PyDict.get k params) /\
    if PyDict.contains "reduce_dims" params
    then PyDict.get "reduce_dims" kw = PyDict.get "reduce_dims" params /\
         PyDict.get "report_per_component" kw = PyDict.get "report_per_component" params
    else PyDict.contains "report_per_component" kw = false /\
         PyDict.get "reduce_dims" kw
           = if truthy (default (PBool false) (PyDict.get "report_per_component" params))
             then None else Some (leading_axes error).
Proof.
  exists (runstat_kwargs params error). split; [done|].
  unfold runstat_kwargs.
  set (kw1 := if PyDict.contains "dim" params then params
              else PyDict.set "dim" (shape_tail error) params).
  assert (Hdim : PyDict.contains "dim" kw1 = true).
  { unfold kw1. destruct (PyDict.contains "dim" params) eqn:Hd; [done|].
    rewrite contains_set. by rewrite bool_decide_eq_true_2. }
  assert (Hget : forall k, k <> "dim" -> PyDict.get k kw1 = PyDict.get k params).
  { intros k Hk. unfold kw1. destruct (PyDict.contains "dim" params); [done|].
    by rewrite get_set_ne. }
  assert (Hred : PyDict.contains "reduce_dims" kw1 = PyDict.contains "reduce_dims" params).
  { unfold PyDict.contains. by rewrite Hget. }
  rewrite Hred. destruct (PyDict.contains "reduce_dims" params) eqn:Hrd.
  - split; [done|]. split; [intros k Hk _ _; by apply Hget|].
    split; by apply Hget.
  - unfold PyDict.pop. rewrite (Hget "report_per_component") by done.
    destruct (truthy (default (PBool false) (PyDict.get "report_per_component" params))).
    + split; [by rewrite contains_remove_ne|].
      split; [intros k H1 H2 H3; rewrite get_remove_ne by done; by apply Hget|].
      split; [apply contains_remove_eq|].
      rewrite get_remove_ne by done. rewrite Hget by done. by apply contains_false.
    + split; [rewrite contains_set, contains_remove_ne by done; by rewrite Hdim, orb_true_r|].
      split; [intros k H1 H2 H3; rewrite get_set_ne, get_remove_ne by done; by apply Hget|].
      split; [|apply get_set_eq].
      rewrite contains_set, contains_remove_eq. by rewrite bool_decide_eq_false_2.
Qed.

End Engine.
End MetricsInitRunstat.

(** ** [Metrics]: what a call reports *)

Module MetricsRunFacts.
Import Metrics MetricsCallFacts.
Section Engine.
Context `{Collaborators}.

Lemma contains_cons {V} (r red : string) (v : V) items :
  PyDict.contains r ((red, v) :: items) = bool_decide (r = red) || PyDict.contains r items.
Proof.
  unfold PyDict.contains. simpl. destruct (decide (r = red)) as [->|Hne].
  - by rewrite bool_decide_eq_true_2.
  - by rewrite bool_decide_eq_false_2.
Qed.

Lemma observe_run pred key error reduction params w w' :
  observe pred key error reduction params w = (Ok tt, w') ->
  exists stat pss ps by_ value stat' constructs,
    PyDict.get key (per_species (self_ w)) = Some pss /\
    PyDict.get reduction pss = Some ps /\
    grouping pred ps by_ /\
    accumulate_batch stat (batch_for stat (truthy ps) error) by_ = Ok (value, stat') /\
    metrics_ w' = PyDict.set (key, reduction) value (metrics_ w) /\
    log w' = log w ++ constructs
               ++ [AccumulateBatch key reduction stat (batch_for stat (truthy ps) error) by_] /\
    (forall ev, ev ∈ constructs -> exists kw, ev = Construct key reduction kw).
Proof.
  unfold observe. intros Hrun.
  apply bind_Ok in Hrun as (stats & w0 & Hstats & Hrun).
  apply get_stats_Ok in Hstats as [-> Hstats].
  apply bind_Ok in Hrun as ([] & w1 & Hinit & Hrun).
  assert (Hw1 : per_species (self_ w1) = per_species (self_ w) /\
                metrics_ w1 = metrics_ w /\
                exists constructs, log w1 = log w ++ constructs /\
                  forall ev, ev ∈ constructs -> exists kw, ev = Construct key reduction kw).
  { destruct (PyDict.contains reduction stats).
    - injection Hinit as <-. split; [done|]. split; [done|]. exists [].
      split; [by rewrite app_nil_r|]. intros ev Hev. by apply elem_of_nil in Hev.
    - apply bind_Ok in Hinit as (rs & w2 & Hrs & Hinit).
      apply lift_Ok in Hrs as [-> Hrs].
      apply bind_Ok in Hinit as ([] & w2 & Hemit & Hset).
      unfold emit, modify in Hemit. injection Hemit as <-.
      unfold set_stat in Hset. simpl in Hset.
      destruct (PyDict.get key (running_stats (self_ w))); [|discriminate].
      injection Hset as <-. simpl. split; [done|]. split; [done|].
      eexists. split; [done|]. intros ev Hev. apply list_elem_of_singleton in Hev as ->. eauto. }
  destruct Hw1 as (Hp1 & Hm1 & constructs & Hl1 & Hcons).
  apply bind_Ok in Hrun as (stats1 & w2 & Hstats1 & Hrun).
  apply get_stats_Ok in Hstats1 as [-> Hstats1].
  apply bind_Ok in Hrun as (stat & w2 & Hstat & Hrun).
  apply lift_Ok in Hstat as [-> Hstat].
  apply bind_Ok in Hrun as (ps & w2 & Hps & Hrun).
  apply get_per_species_Ok in Hps as [-> (pss & Hpss & Hps)].
  apply bind_Ok in Hrun as (by_ & w2 & Hby & Hrun).
  assert (w2 = w1 /\ grouping pred ps by_) as [-> Hgroup].
  { unfold grouping. destruct (truthy ps).
    - apply bind_Ok in Hby as (b & w3 & Hb & Hret). apply lift_Ok in Hb as [-> Hb].
      apply dict_getitem_Ok in Hb. injection Hret as <- <-. eauto.
    - by injection Hby as <- <-. }
  apply bind_Ok in Hrun as ([] & w2 & Hemit & Hrun).
  unfold emit, modify in Hemit. injection Hemit as <-.
  apply bind_Ok in Hrun as ([value stat'] & w3 & Hacc & Hrun).
  apply lift_Ok in Hacc as [-> Hacc].
  apply bind_Ok in Hrun as ([] & w3 & Hset & Hrun).
  unfold set_stat in Hset. simpl in Hset.
  destruct (PyDict.get key (running_stats (self_ w1))); [|discriminate].
  injection Hset as <-. unfold modify in Hrun. injection Hrun as <-. simpl.
  exists stat, pss, ps, by_, value, stat', constructs.
  rewrite <- Hp1. split; [done|]. split; [done|]. split; [done|]. split; [done|].
  split; [by rewrite Hm1|]. split; [|done]. by rewrite Hl1, <- app_assoc.
Qed.

Lemma observe_accounted self0 pred key error reduction params w w' :
  per_species (self_ w) = per_species self0 ->
  accounted self0 pred w ->
  observe pred key error reduction params w = (Ok tt, w') ->
  accounted self0 pred w' /\
  forall p, PyDict.contains p (metrics_ w')
            = bool_decide (p = (key, reduction)) || PyDict.contains p (metrics_ w).
Proof.
  intros Hper [Hlog Hmet] Hrun.
  apply observe_run in Hrun
    as (stat & pss & ps & by_ & value & stat' & constructs
        & Hpss & Hps & Hgroup & Hacc & Hm & Hl & Hcons).
  rewrite Hper in Hpss. split; [split|].
  - rewrite Hl. apply Forall_app. split; [done|]. apply Forall_app. split.
    + apply Forall_forall. intros ev Hev. by destruct (Hcons ev Hev) as [kw ->].
    + constructor; [|constructor]. by exists pss, ps.
  - intros k r v Hget. rewrite Hm in Hget.
    destruct (decide ((k, r) = (key, reduction))) as [[= -> ->]|Hne].
    + rewrite get_set_eq in Hget. injection Hget as <-.
      eexists _, _, _, _. split; [|exact Hacc].
      rewrite Hl. apply elem_of_app. right. apply elem_of_app. right. left.
    + rewrite get_set_ne in Hget by done.
      destruct (Hmet k r v Hget) as (st & b & by' & st' & Hin & Hok).
      exists st, b, by', st'. split; [|done]. rewrite Hl.
      apply elem_of_app. by left.
  - intros p. rewrite Hm. apply contains_set.
Qed.

Lemma observe_all_accounted self0 pred key error items : forall w w',
  per_species (self_ w) = per_species self0 ->
  accounted self0 pred w ->
  observe_all pred key error items w = (Ok tt, w') ->
  accounted self0 pred w' /\
  per_species (self_ w') = per_species self0 /\
  kwargs (self_ w') = kwargs (self_ w) /\
  forall k r, PyDict.contains (k, r) (metrics_ w') = true <->
    PyDict.contains (k, r) (metrics_ w) = true \/
    (k = key /\ PyDict.contains r items = true).
Proof.
  induction items as [|[red params] items IH]; intros w w' Hper Hacc Hrun; simpl in Hrun.
  - injection Hrun as <-. split; [done|]. split; [done|]. split; [done|].
    intros k r. split; [by left|]. intros [? | [_ ?]]; done.
  - apply bind_Ok in Hrun as ([] & w1 & Hobs & Hrun).
    pose proof (observe_Ok _ _ _ _ _ _ _ Hobs) as (_ & Hk1 & Hp1 & _).
    apply (observe_accounted self0) in Hobs as [Hacc1 Hm1]; [|done|done].
    apply IH in Hrun as (Hacc' & Hper' & Hk' & Hm'); [|congruence|done].
    split; [done|]. split; [done|]. split; [congruence|].
    intros k r. rewrite Hm', Hm1, contains_cons, !orb_true_iff, !bool_decide_eq_true. split.
    + intros [[[= -> ->] | ?] | [-> ?]];
        [right; split; [done | by left] | by left | right; split; [done | by right]].
    + intros [? | [-> [-> | ?]]]; [left; by right | left; by left | right; done].
Qed.

Lemma call_keys_accounted self0 pred ref items : forall w w',
  per_species (self_ w) = per_species self0 ->
  accounted self0 pred w ->
  call_keys pred ref items w = (Ok tt, w') ->
  accounted self0 pred w' /\
  forall k r, PyDict.contains (k, r) (metrics_ w') = true <->
    PyDict.contains (k, r) (metrics_ w) = true \/
    exists f kws, (k, f) ∈ items /\ PyDict.get k (kwargs (self_ w)) = Some kws /\
                  PyDict.contains r kws = true.
Proof.
  induction items as [|[key f] items IH]; intros w w' Hper Hacc Hrun; simpl in Hrun.
  - injection Hrun as <-. split; [done|]. intros k r. split; [by left|].
    intros [? | (f & kws & Hin & _)]; [done | by apply elem_of_nil in Hin].
  - apply bind_Ok in Hrun as (error & w0 & Herr & Hrun).
    apply lift_Ok in Herr as [-> Herr].
    apply bind_Ok in Hrun as (kws & w0 & Hkws & Hrun).
    injection Hkws as Hkws <-. apply dict_getitem_Ok in Hkws.
    apply bind_Ok in Hrun as ([] & w1 & Hobs & Hrun).
    apply (observe_all_accounted self0) in Hobs as (Hacc1 & Hper1 & Hk1 & Hm1); [|done|done].
    apply IH in Hrun as (Hacc' & Hm'); [|done|done].
    split; [done|]. intros k r. rewrite Hm', Hm1, Hk1. split.
    + intros [[? | [-> Hr]] | (f' & kws' & Hin & Hget & Hr)].
      * by left.
      * right. exists f, kws. split; [left | done].
      * right. exists f', kws'. split; [by right | done].
    + intros [? | (f' & kws' & Hin & Hget & Hr)]; [by left; left|].
      apply elem_of_cons in Hin as [[= -> ->] | Hin].
      * left. right. split; [done|]. congruence.
      * right. eauto.
Qed.

Lemma call_run self pred ref metrics w :
  __call__ self pred ref = (Ok metrics, w) ->
  call_keys pred ref (funcs self) {| self_ := self; metrics_ := []; log := [] |} = (Ok tt, w) /\
  metrics = metrics_ w.
Proof.
  unfold __call__.
  destruct (call_keys pred ref (funcs self) {| self_ := self; metrics_ := []; log := [] |})
    as [[[]|e] w'] eqn:Hcall; [|discriminate].
  by intros [= <- <-].
Qed.

Lemma stable_start self pred ref :
  stable self pred ref {| self_ := self; metrics_ := []; log := [] |}.
Proof. repeat split; try done. by left. Qed.

End Engine.
End MetricsRunFacts.

Module MetricsRunSpec.
Import Metrics MetricsCallFacts MetricsRunFacts Example.
Section Engine.
Context `{Collaborators}.

(** A call that returns reports exactly the configured pairs, and the
    value of each is an answer of [accumulate_batch] for that pair in this
    call. *)
Theorem call_reports_every_tracked_pair self pred ref metrics w :
  __call__ self pred ref = (Ok metrics, w) ->
  (forall key reduction,
     PyDict.contains (key, reduction) metrics = true <-> tracked self key reduction) /\
  (forall key reduction value, PyDict.get (key, reduction) metrics = Some value ->
     exists stat batch accumulate_by stat',
       AccumulateBatch key reduction stat batch accumulate_by ∈ log w /\
       accumulate_batch stat batch accumulate_by = Ok (value, stat')).
Proof.
  intros Hrun. apply call_run in Hrun as [Hcall ->].
  apply (call_keys_accounted self) in Hcall as [[_ Hvals] Hkeys]; [|done|].
  - split; [|done]. intros key reduction. rewrite Hkeys. unfold tracked. simpl.
    split; [|by right]. by intros [? | ?].
  - split; [constructor|]. intros ? ? ? Hget. discriminate.
Qed.


(** A call that returns leaves the configuration as it is and every
    configured pair with a statistic; a later call that returns constructs
    none. *)
Theorem statistics_are_constructed_once self pred ref metrics w :
  __call__ self pred ref = (Ok metrics, w) ->
  funcs (self_ w) = funcs self /\ kwargs (self_ w) = kwargs self /\
  per_species (self_ w) = per_species self /\
  (forall key reduction, tracked self key reduction -> has_stat (self_ w) key reduction) /\
  (forall key reduction, has_stat self key reduction -> has_stat (self_ w) key reduction) /\
  forall pred' ref' metrics' w',
    __call__ (self_ w) pred' ref' = (Ok metrics', w') ->
    forall key reduction kw, Construct key reduction kw ∉ log w'.
Proof.
  intros Hrun. apply call_run in Hrun as [Hcall _].
  apply call_keys_stable with (self0 := self) in Hcall as (Hst & _ & Hmono & Hall);
    [|apply stable_start|done].
  destruct Hst as (Hf & Hk & Hp & _).
  assert (Htracked : forall key reduction,
            tracked self key reduction -> has_stat (self_ w) key reduction).
  { intros key reduction (f & kws & Hin & Hkws & Hr).
    apply contains_true in Hr as [params Hr]. apply get_elem_of in Hr.
    by destruct (Hall _ _ _ _ _ Hin Hkws Hr). }
  split; [done|]. split; [done|]. split; [done|]. split; [done|]. split; [exact Hmono|].
  intros pred' ref' metrics' w' Hrun' key reduction kw Hin.
  apply call_run in Hrun' as [Hcall' _].
  apply call_keys_stable with (self0 := self_ w) in Hcall' as (Hst' & _);
    [|apply stable_start|done].
  destruct Hst' as (_ & _ & _ & _ & _ & Hlog).
  rewrite Forall_forall in Hlog. specialize (Hlog _ Hin). simpl in Hlog.
  destruct Hlog as (f & error & kws & params & Hf' & _ & Hkws' & Hpar & Hno & _).
  apply Hno. apply Htracked. exists f, kws. rewrite <- Hf, <- Hk.
  split; [done|]. split; [done|]. by eapply elem_of_contains.
Qed.

End Engine.
End MetricsRunSpec.

(** ** [Metrics]: [reset], [to] and [current_result] *)

Module MaintenanceFacts.
Import Metrics MetricsCallFacts MetricsRunFacts.
Section Engine.
Context `{Methods}.

(** Whatever the outcome, the loop keeps the reductions in place; each
    statistic is as it was or as [f] left it. *)
Lemma each_stat_spec f stats r stats' :
  each_stat f stats = (r, stats') ->
  stats'.*1 = stats.*1 /\
  Forall2 (fun old new => new.2 = old.2 \/ f old.2 = Ok new.2) stats stats' /\
  (r = Ok tt -> Forall2 (fun old new => f old.2 = Ok new.2) stats stats').
Proof.
  revert r stats'. induction stats as [|[red stat] stats IH]; intros r stats' Hrun; simpl in Hrun.
  - injection Hrun as <- <-. repeat split; constructor.
  - destruct (f stat) as [stat1|e] eqn:Hf.
    + destruct (each_stat f stats) as [r1 stats1] eqn:Hrest. injection Hrun as <- <-.
      destruct (IH _ _ eq_refl) as (Hkeys & Hany & Hok). simpl.
      split; [by f_equal|]. split.
      * constructor; [by right | done].
      * intros Hr. constructor; [done | by apply Hok].
    + injection Hrun as <- <-. split; [done|]. split; [|discriminate].
      apply Forall2_same_length_lookup. split; [done|].
      intros i x y Hx Hy. left. congruence.
Qed.

Lemma each_key_spec f rs r rs' :
  each_key f rs = (r, rs') ->
  rs'.*1 = rs.*1 /\
  Forall2 (fun old new =>
             new.2.*1 = old.2.*1 /\
             Forall2 (fun o n => n.2 = o.2 \/ f o.2 = Ok n.2) old.2 new.2) rs rs' /\
  (r = Ok tt ->
   Forall2 (fun old new => Forall2 (fun o n => f o.2 = Ok n.2) old.2 new.2) rs rs').
Proof.
  revert r rs'. induction rs as [|[key stats] rs IH]; intros r rs' Hrun; simpl in Hrun.
  - injection Hrun as <- <-. repeat split; constructor.
  - destruct (each_stat f stats) as [[[]|e] stats1] eqn:Hstats.
    + destruct (each_key f rs) as [r1 rs1] eqn:Hrest. injection Hrun as <- <-.
      destruct (IH _ _ eq_refl) as (Hkeys & Hany & Hok).
      apply each_stat_spec in Hstats as (Hk1 & Hany1 & Hok1). simpl.
      split; [by f_equal|]. split.
      * constructor; [by split | done].
      * intros Hr. constructor; [by apply Hok1 | by apply Hok].
    + injection Hrun as <- <-.
      apply each_stat_spec in Hstats as (Hk1 & Hany1 & _). simpl.
      split; [by f_equal|]. split; [|discriminate].
      constructor; [by split|].
      apply Forall2_same_length_lookup. split; [done|].
      intros i x y Hx Hy. assert (y = x) as -> by congruence. split; [done|].
      apply Forall2_same_length_lookup. split; [done|].
      intros j a b Ha Hb. left. congruence.
Qed.

(** Lookup in dictionaries with the same keys, related item by item. *)
Lemma get_Forall2 {A B} (R : A -> B -> Prop) (k : string)
    (d : list (string * A)) (d' : list (string * B)) :
  d'.*1 = d.*1 ->
  Forall2 (fun old new => R old.2 new.2) d d' ->
  match PyDict.get k d, PyDict.get k d' with
  | Some a, Some b => R a b
  | None, None => True
  | _, _ => False
  end.
Proof.
  intros Hkeys Hall. induction Hall as [|[k1 a] [k2 b] d d' HR Hall IH]; simpl; [done|].
  simpl in Hkeys. injection Hkeys as -> Hkeys. simpl in HR.
  destruct (decide (k = k1)); [done | by apply IH].
Qed.

Lemma for_each_stat_spec f self r self' :
  for_each_stat f self = (r, self') ->
  funcs self' = funcs self /\ kwargs self' = kwargs self /\
  per_species self' = per_species self /\
  (forall key reduction, has_stat self' key reduction <-> has_stat self key reduction) /\
  (forall key reduction stats stat stats' stat',
     PyDict.get key (running_stats self) = Some stats -> PyDict.get reduction stats = Some stat ->
     PyDict.get key (running_stats self') = Some stats' ->
     PyDict.get reduction stats' = Some stat' ->
     (stat' = stat \/ f stat = Ok stat') /\ (r = Ok tt -> f stat = Ok stat')).
Proof.
  unfold for_each_stat.
  destruct (each_key f (running_stats self)) as [r1 rs'] eqn:Hrun.
  intros [= <- <-]. simpl. split; [done|]. split; [done|]. split; [done|].
  apply each_key_spec in Hrun as (Hkeys & Hany & Hok).
  assert (Hlookup : forall key,
    match PyDict.get key (running_stats self), PyDict.get key rs' with
    | Some stats, Some stats' =>
        stats'.*1 = stats.*1 /\
        Forall2 (fun o n => n.2 = o.2 \/ f o.2 = Ok n.2) stats stats'
    | None, None => True
    | _, _ => False
    end).
  { intros key.
    exact (get_Forall2 (fun stats stats' =>
             stats'.*1 = stats.*1 /\
             Forall2 (fun o n => n.2 = o.2 \/ f o.2 = Ok n.2) stats stats')
             key _ _ Hkeys Hany). }
  split.
  - intros key reduction. unfold has_stat. simpl. specialize (Hlookup key).
    destruct (PyDict.get key (running_stats self)) as [stats|],
             (PyDict.get key rs') as [stats'|]; try done.
    destruct Hlookup as [Hk Hall].
    pose proof (get_Forall2 (fun o n => n = o \/ f o = Ok n) reduction _ _ Hk Hall) as Hred.
    destruct (PyDict.get reduction stats) as [stat|] eqn:Hs,
             (PyDict.get reduction stats') as [stat'|] eqn:Hs'; try done.
    + split; intros _; eauto.
    + split; intros (? & ? & [= <-] & ?); congruence.
  - intros key reduction stats stat stats' stat' Hs Hst Hs' Hst'.
    specialize (Hlookup key). rewrite Hs, Hs' in Hlookup. destruct Hlookup as [Hk Hall].
    pose proof (get_Forall2 (fun o n => n = o \/ f o = Ok n) reduction _ _ Hk Hall) as Hred.
    rewrite Hst, Hst' in Hred. split; [done|].
    intros ->. specialize (Hok eq_refl).
    pose proof (get_Forall2 (fun stats stats' => Forall2 (fun o n => f o.2 = Ok n.2) stats stats')
                  key _ _ Hkeys Hok) as Hk2.
    rewrite Hs, Hs' in Hk2.
    pose proof (get_Forall2 (fun o n => f o = Ok n) reduction _ _ Hk Hk2) as Hred2.
    by rewrite Hst, Hst' in Hred2.
Qed.

Lemma current_stats_spec key stats : forall metrics metrics',
  current_stats key stats metrics = Ok metrics' ->
  (forall p, PyDict.contains p metrics' = true <->
     PyDict.contains p metrics = true \/
     exists reduction, p = (key, reduction) /\ PyDict.contains reduction stats = true) /\
  (forall p value, PyDict.get p metrics' = Some value ->
     PyDict.get p metrics = Some value \/
     exists reduction stat, p = (key, reduction) /\ (reduction, stat) ∈ stats /\
       RunningStats_current_result stat = Ok value).
Proof.
  induction stats as [|[red stat] stats IH]; intros metrics metrics' Hrun; simpl in Hrun.
  - injection Hrun as <-. split.
    + intros p. split; [by left|]. by intros [? | (? & _ & ?)].
    + intros p value Hget. by left.
  - apply result_bind_Ok in Hrun as (value & Hvalue & Hrun).
    apply IH in Hrun as [Hkeys Hvals]. split.
    + intros p. rewrite Hkeys, contains_set, orb_true_iff, bool_decide_eq_true. split.
      * intros [[-> | ?] | (r & -> & Hr)].
        -- right. exists red. split; [done|]. rewrite contains_cons.
           by rewrite bool_decide_eq_true_2.
        -- by left.
        -- right. exists r. split; [done|]. rewrite contains_cons, Hr. apply orb_true_r.
      * intros [? | (r & -> & Hr)]; [left; by right|].
        rewrite contains_cons, orb_true_iff, bool_decide_eq_true in Hr.
        destruct Hr as [-> | Hr]; [left; by left | right; eauto].
    + intros p v Hget. destruct (Hvals p v Hget) as [Hold | (r & st & -> & Hin & Hv)].
      * destruct (decide (p = (key, red))) as [->|Hne].
        -- rewrite get_set_eq in Hold. injection Hold as <-.
           right. exists red, stat. split; [done|]. split; [left | done].
        -- rewrite get_set_ne in Hold by done. by left.
      * right. exists r, st. split; [done|]. split; [by right | done].
Qed.

Lemma current_keys_spec rs : forall metrics metrics',
  current_keys rs metrics = Ok metrics' ->
  (forall key reduction, PyDict.contains (key, reduction) metrics' = true <->
     PyDict.contains (key, reduction) metrics = true \/
     exists stats, (key, stats) ∈ rs /\ PyDict.contains reduction stats = true) /\
  (forall key reduction value, PyDict.get (key, reduction) metrics' = Some value ->
     PyDict.get (key, reduction) metrics = Some value \/
     exists stats stat, (key, stats) ∈ rs /\ (reduction, stat) ∈ stats /\
       RunningStats_current_result stat = Ok value).
Proof.
  induction rs as [|[key0 stats0] rs IH]; intros metrics metrics' Hrun; simpl in Hrun.
  - injection Hrun as <-. split.
    + intros key reduction. split; [by left|].
      intros [? | (? & Hin & _)]; [done | by apply elem_of_nil in Hin].
    + intros key reduction value Hget. by left.
  - apply result_bind_Ok in Hrun as (metrics1 & Hstats & Hrun).
    apply current_stats_spec in Hstats as [Hkeys1 Hvals1].
    apply IH in Hrun as [Hkeys Hvals]. split.
    + intros key reduction. rewrite Hkeys, Hkeys1. split.
      * intros [[? | (r & [= -> ->] & Hr)] | (stats & Hin & Hr)].
        -- by left.
        -- right. exists stats0. split; [left | done].
        -- right. exists stats. split; [by right | done].
      * intros [? | (stats & Hin & Hr)]; [left; by left|].
        apply elem_of_cons in Hin as [[= -> ->] | Hin].
        -- left. right. eauto.
        -- right. eauto.
    + intros key reduction value Hget.
      destruct (Hvals _ _ _ Hget) as [Hold | (stats & stat & Hin & Hst & Hv)].
      * destruct (Hvals1 _ _ Hold) as [? | (r & stat & [= -> ->] & Hin & Hv)]; [by left|].
        right. exists stats0, stat. split; [left | done].
      * right. exists stats, stat. split; [by right | done].
Qed.

End Engine.
End MaintenanceFacts.

(** ** [Metrics]: the invariant of the engine *)

Module ConsistencyFacts.
Import Metrics MetricsConfigFacts MetricsInitFacts MetricsCallFacts
       MetricsRunFacts MaintenanceFacts.

Section Dict.
Context {K V : Type} `{EqDecision K}.

Lemma elem_of_set_other (k k' : K) (v v' : V) d :
  k <> k' -> (k, v) ∈ PyDict.set k' v' d <-> (k, v) ∈ d.
Proof.
  intros Hne. induction d as [|[k1 v1] d IH]; simpl.
  - rewrite list_elem_of_singleton. split; [by intros [= ? ?] | by intros ?%elem_of_nil].
  - destruct (decide (k' = k1)) as [->|Hne'].
    + rewrite !elem_of_cons. split; (intros [[= ? ?] | ?]; [done | by right]).
    + rewrite !elem_of_cons, IH. done.
Qed.

Lemma elem_of_set_new (k : K) (v : V) d x :
  PyDict.get k d = None -> x ∈ d -> x ∈ PyDict.set k v d.
Proof.
  intros Hnone Hin. destruct x as [k1 v1].
  apply elem_of_set_other; [|done]. intros ->.
  apply elem_of_contains in Hin. apply contains_false in Hnone. congruence.
Qed.

Lemma get_NoDup_elem_of (k : K) (v : V) d :
  NoDup d.*1 -> (k, v) ∈ d -> PyDict.get k d = Some v.
Proof.
  induction d as [|[k1 v1] d IH]; intros Hnd Hin; [by apply elem_of_nil in Hin|].
  simpl in Hnd. apply NoDup_cons in Hnd as [Hnot Hnd]. simpl.
  apply elem_of_cons in Hin as [[= -> ->] | Hin].
  - by rewrite decide_True.
  - rewrite decide_False; [by apply IH|]. intros ->. apply Hnot.
    apply list_elem_of_fmap. by exists (k1, v).
Qed.

End Dict.

Section Engine.
Context `{Collaborators}.

Lemma keeps_bind {A B} (I : t -> Prop) (m : stateE world A) (f : A -> stateE world B) :
  keeps I m -> (forall a, keeps I (f a)) -> keeps I (m ≫= f).
Proof.
  intros Hm Hf w r w' HI Hrun.
  apply bind_any in Hrun as [(e & Hrun & _) | (a & w1 & Hrun & Hrest)].
  - by eapply Hm.
  - eapply Hf; [|done]. by eapply Hm.
Qed.

Lemma keeps_ret {A} (I : t -> Prop) (a : A) : keeps I (mret a).
Proof. intros w r w' HI [= _ <-]. done. Qed.

Lemma keeps_lift {A} (I : t -> Prop) (x : result A) : keeps I (lift x).
Proof. intros w r w' HI [= _ <-]. done. Qed.

Lemma keeps_emit (I : t -> Prop) ev : keeps I (emit ev).
Proof. intros w r w' HI [= _ <-]. done. Qed.

Lemma keeps_get_stats (I : t -> Prop) key : keeps I (get_stats key).
Proof. intros w r w' HI [= _ <-]. done. Qed.

Lemma keeps_get_per_species (I : t -> Prop) key reduction :
  keeps I (get_per_species key reduction).
Proof. intros w r w' HI [= _ <-]. done. Qed.

Lemma tracked_same self self' key reduction :
  funcs self' = funcs self -> kwargs self' = kwargs self ->
  tracked self key reduction -> tracked self' key reduction.
Proof. intros Hf Hk (f & kws & ? & ? & ?). exists f, kws. by rewrite Hf, Hk. Qed.

Lemma keeps_set_stat self0 key reduction stat :
  tracked self0 key reduction -> keeps (during self0) (set_stat key reduction stat).
Proof.
  intros Htr w res w' (Hcons & Hf & Hk & Hp & Hkeys) Hrun. unfold set_stat in Hrun.
  destruct (PyDict.get key (running_stats (self_ w))) as [stats|] eqn:Hstats;
    [|by injection Hrun as _ <-].
  injection Hrun as _ <-. simpl.
  destruct Hcons as (Hal & Hred & Hhas & Hnd & Hnds).
  assert (Hin : PyDict.contains key (running_stats (self_ w)) = true).
  { apply contains_true. eauto. }
  assert (Hsame : forall k, PyDict.contains k
                    (PyDict.set key (PyDict.set reduction stat stats) (running_stats (self_ w)))
                  = PyDict.contains k (running_stats (self_ w))).
  { intros k. rewrite contains_set. destruct (decide (k = key)) as [->|Hne].
    - by rewrite Hin, bool_decide_eq_true_2.
    - by rewrite bool_decide_eq_false_2. }
  split; [|split; [done|split; [done|split; [done|]]]].
  - split; [|split; [|split; [|split]]].
    + intros k. simpl. rewrite Hsame. apply Hal.
    + exact Hred.
    + intros k r (stats' & stat' & Hk' & Hr'). simpl in Hk'.
      destruct (decide (k = key)) as [->|Hne].
      * rewrite get_set_eq in Hk'. injection Hk' as <-.
        destruct (decide (r = reduction)) as [->|Hne'].
        -- apply (tracked_same self0); [done | done | exact Htr].
        -- rewrite get_set_ne in Hr' by done.
           apply (tracked_same (self_ w)); [done | done |]. apply Hhas. by exists stats, stat'.
      * rewrite get_set_ne in Hk' by done.
        apply (tracked_same (self_ w)); [done | done |]. apply Hhas. by exists stats', stat'.
    + simpl. by apply set_NoDup.
    + intros k stats' Hget. simpl in Hget.
      destruct (decide (k = key)) as [->|Hne].
      * rewrite get_set_eq in Hget. injection Hget as <-. apply set_NoDup. by eapply Hnds.
      * rewrite get_set_ne in Hget by done. by eapply Hnds.
  - intros k. simpl. rewrite Hsame. apply Hkeys.
Qed.

Lemma keeps_modify_metrics (I : t -> Prop) (g : world -> list ((string * string) * Tensor)) :
  keeps I (modify (fun w => {| self_ := self_ w; metrics_ := g w; log := log w |})).
Proof. intros w r w' HI [= _ <-]. done. Qed.

Lemma keeps_observe self0 pred key error reduction params :
  tracked self0 key reduction ->
  keeps (during self0) (observe pred key error reduction params).
Proof.
  intros Htr. unfold observe.
  apply keeps_bind; [apply keeps_get_stats|]. intros stats.
  apply keeps_bind.
  { destruct (PyDict.contains reduction stats); [apply keeps_ret|].
    apply keeps_bind; [apply keeps_lift|]. intros rs.
    apply keeps_bind; [apply keeps_emit|]. intros _. by apply keeps_set_stat. }
  intros _. apply keeps_bind; [apply keeps_get_stats|]. intros stats1.
  apply keeps_bind; [apply keeps_lift|]. intros stat.
  apply keeps_bind; [apply keeps_get_per_species|]. intros ps.
  apply keeps_bind.
  { destruct (truthy ps); [|apply keeps_ret].
    apply keeps_bind; [apply keeps_lift|]. intros by_. apply keeps_ret. }
  intros by_. apply keeps_bind; [apply keeps_emit|]. intros _.
  apply keeps_bind; [apply keeps_lift|]. intros [value stat'].
  apply keeps_bind; [by apply keeps_set_stat|]. intros _.
  apply keeps_modify_metrics.
Qed.

Lemma keeps_observe_all self0 pred key f error kws items :
  (key, f) ∈ funcs self0 -> PyDict.get key (kwargs self0) = Some kws ->
  (forall it, it ∈ items -> it ∈ kws) ->
  keeps (during self0) (observe_all pred key error items).
Proof.
  intros Hf Hkws. induction items as [|[red params] items IH]; intros Hsub; simpl.
  - apply keeps_ret.
  - apply keeps_bind.
    + apply keeps_observe. exists f, kws. split; [done|]. split; [done|].
      eapply elem_of_contains. apply Hsub. left.
    + intros _. apply IH. intros it Hit. apply Hsub. by right.
Qed.

Lemma keeps_call_keys self0 pred ref items :
  (forall it, it ∈ items -> it ∈ funcs self0) ->
  keeps (during self0) (call_keys pred ref items).
Proof.
  induction items as [|[key f] items IH]; intros Hsub; simpl.
  - apply keeps_ret.
  - apply keeps_bind; [apply keeps_lift|]. intros error.
    intros w r w' HI Hrun.
    apply bind_any in Hrun as [(e & Hrun & _) | (kws & w1 & Hkws & Hrun)];
      [by injection Hrun as _ <-|].
    injection Hkws as Hkws <-. apply dict_getitem_Ok in Hkws.
    pose proof HI as (_ & _ & Hk & _). rewrite Hk in Hkws.
    refine (keeps_bind (during self0) (observe_all pred key error kws)
              (fun _ => call_keys pred ref items) _ _ w r w' HI Hrun).
    + eapply keeps_observe_all; [apply Hsub; left | done | done].
    + intros _. apply IH. intros it Hit. apply Hsub. by right.
Qed.

Lemma add_component_consistent self c self' :
  consistent self -> add_component self c = Ok self' -> consistent self'.
Proof.
  intros (Hal & Hred & Hhas & Hnd & Hnds) Hadd.
  pose proof (add_component_Ok _ _ _ Hadd) as (key & red & params & Hparse & Hfuncs & Hal').
  destruct (Hal' Hal) as [Hal1 Hkeys]. clear Hal'.
  apply add_component_spec in Hadd
    as (key' & red' & params' & kw0 & ps0 & Hparse' & Hold & Hkw & Hps).
  rewrite Hparse in Hparse'. injection Hparse' as <- <- <-.
  assert (Hmatch : forall r, PyDict.contains r ps0 = PyDict.contains r kw0).
  { destruct (PyDict.contains key (running_stats self)).
    - destruct Hold as (Hk0 & Hp0 & _). destruct (Hred _ _ Hk0) as (pss & Hpss & Hm).
      assert (pss = ps0) as -> by congruence. done.
    - by destruct Hold as (-> & -> & _). }
  assert (Hfin : forall k f, (k, f) ∈ funcs self -> exists f', (k, f') ∈ funcs self').
  { intros k f Hin.
    assert (Hc : PyDict.contains k (funcs self') = true).
    { destruct (Hal1 k) as (-> & _). rewrite Hkeys.
      destruct (Hal k) as (<- & _). rewrite (elem_of_contains _ _ _ Hin). apply orb_true_r. }
    apply contains_true in Hc as [f' Hf']. exists f'. by apply get_elem_of. }
  assert (Hmono : forall k r, tracked self k r -> tracked self' k r).
  { intros k r (f & kws & Hin & Hkws & Hr). destruct (Hfin _ _ Hin) as [f' Hf'].
    destruct (decide (k = key)) as [->|Hne].
    - eexists f', _. split; [done|]. split; [rewrite Hkw; by rewrite decide_True|].
      rewrite contains_set.
      assert (kw0 = kws) as ->.
      { destruct (PyDict.contains key (running_stats self)) eqn:Hc.
        - destruct Hold as (Hk0 & _). congruence.
        - exfalso. destruct (Hal key) as (_ & H2 & _). rewrite Hc in H2.
          apply contains_false in H2. congruence. }
      rewrite Hr. apply orb_true_r.
    - exists f', kws. split; [done|]. split; [|done]. rewrite Hkw. by rewrite decide_False. }
  split; [done|]. split; [|split; [|split]].
  - intros k kws Hget. rewrite Hkw in Hget. rewrite Hps.
    destruct (decide (k = key)) as [->|Hne]; [|by apply Hred].
    injection Hget as <-. eexists. split; [done|]. intros r. by rewrite !contains_set, Hmatch.
  - intros k r Hst. apply Hmono. apply Hhas.
    destruct Hst as (stats & stat & Hs & Hr).
    destruct (PyDict.contains key (running_stats self)) eqn:Hc.
    + destruct Hold as (_ & _ & Heq). rewrite Heq in Hs. by exists stats, stat.
    + destruct Hold as (_ & _ & Heq). rewrite Heq in Hs.
      destruct (decide (k = key)) as [->|Hne].
      * rewrite get_set_eq in Hs. injection Hs as <-. discriminate.
      * rewrite get_set_ne in Hs by done. by exists stats, stat.
  - destruct (PyDict.contains key (running_stats self)).
    + destruct Hold as (_ & _ & ->). done.
    + destruct Hold as (_ & _ & ->). by apply set_NoDup.
  - intros k stats Hs.
    destruct (PyDict.contains key (running_stats self)).
    + destruct Hold as (_ & _ & Heq). rewrite Heq in Hs. by eapply Hnds.
    + destruct Hold as (_ & _ & Heq). rewrite Heq in Hs.
      destruct (decide (k = key)) as [->|Hne].
      * rewrite get_set_eq in Hs. injection Hs as <-. constructor.
      * rewrite get_set_ne in Hs by done. by eapply Hnds.
Qed.

Lemma add_components_consistent cs : forall self self',
  consistent self -> add_components self cs = Ok self' -> consistent self'.
Proof.
  induction cs as [|c cs IH]; intros self self' Hc Hrun; simpl in Hrun.
  - by injection Hrun as <-.
  - apply result_bind_Ok in Hrun as (self1 & Hadd & Hrun).
    eapply IH; [|done]. by eapply add_component_consistent.
Qed.

Lemma consistent_empty : consistent empty.
Proof.
  split; [apply aligned_empty|]. split; [intros ? ? Hget; discriminate|].
  split; [intros ? ? (? & ? & Hget & _); discriminate|].
  split; [constructor|]. intros ? ? Hget. discriminate.
Qed.

End Engine.

Section Maintenance.
Context `{Methods}.

Lemma for_each_stat_consistent f self r self' :
  consistent self -> for_each_stat f self = (r, self') -> consistent self'.
Proof.
  intros (Hal & Hred & Hhas & Hnd & Hnds) Hrun.
  pose proof (for_each_stat_spec _ _ _ _ Hrun) as (Hf & Hk & Hp & Hst & _).
  unfold for_each_stat in Hrun.
  destruct (each_key f (running_stats self)) as [r1 rs'] eqn:Hkeys.
  injection Hrun as <- <-.
  apply each_key_spec in Hkeys as (Hkeys & Hany & _).
  assert (Hc : forall k, PyDict.contains k rs' = PyDict.contains k (running_stats self)).
  { intros k.
    pose proof (get_Forall2 (fun _ _ => True) k (running_stats self) rs' Hkeys) as Hg.
    unfold PyDict.contains.
    destruct (PyDict.get k (running_stats self)), (PyDict.get k rs'); try done;
      exfalso; apply Hg; eapply Forall2_impl; [exact Hany | done | exact Hany | done]. }
  split; [|split; [done|split; [|split]]].
  - intros k. simpl. rewrite Hc. apply Hal.
  - intros k r Hs. apply Hst in Hs. simpl in Hs.
    destruct (Hhas k r) as (f0 & kws & ? & ? & ?); [exact Hs|]. by exists f0, kws.
  - simpl. by rewrite Hkeys.
  - intros k stats' Hs'. simpl in Hs'.
    pose proof (get_Forall2
                  (fun stats stats' =>
                     stats'.*1 = stats.*1 /\
                     Forall2 (fun o n => n.2 = o.2 \/ f o.2 = Ok n.2) stats stats')
                  k _ _ Hkeys Hany) as Hg.
    rewrite Hs' in Hg. destruct (PyDict.get k (running_stats self)) as [stats|] eqn:Hs; [|done].
    destruct Hg as [-> _]. by eapply Hnds.
Qed.

End Maintenance.
End ConsistencyFacts.

Module ProgressFacts.
Import Metrics MetricsConfigFacts MetricsInitFacts MetricsCallFacts
       MetricsRunFacts MaintenanceFacts ConsistencyFacts.
Section Engine.
Context `{Collaborators}.

Lemma during_lookups self0 self key f kws reduction :
  consistent self0 -> during self0 self ->
  (key, f) ∈ funcs self0 -> PyDict.get key (kwargs self0) = Some kws ->
  PyDict.contains reduction kws = true ->
  (exists stats, PyDict.get key (running_stats self) = Some stats) /\
  (exists pss ps, PyDict.get key (per_species self) = Some pss /\
                  PyDict.get reduction pss = Some ps).
Proof.
  intros (Hal0 & Hred0 & _) (_ & _ & _ & Hp & Hkeys) Hf Hkws Hr. split.
  - apply contains_true. rewrite Hkeys. destruct (Hal0 key) as (<- & _).
    by eapply elem_of_contains.
  - rewrite Hp. destruct (Hred0 _ _ Hkws) as (pss & Hpss & Hm).
    assert (Hc : PyDict.contains reduction pss = true) by by rewrite Hm.
    apply contains_true in Hc as [ps Hps]. eauto.
Qed.

Lemma set_stat_returns key reduction stat w stats :
  PyDict.get key (running_stats (self_ w)) = Some stats ->
  exists w', set_stat key reduction stat w = (Ok tt, w') /\
    PyDict.get key (running_stats (self_ w'))
      = Some (PyDict.set reduction stat stats) /\
    per_species (self_ w') = per_species (self_ w).
Proof.
  intros Hs. unfold set_stat. rewrite Hs. eexists. split; [done|]. simpl.
  split; [apply get_set_eq | done].
Qed.

Lemma observe_returns pred key error reduction params w stats pss ps :
  PyDict.get key (running_stats (self_ w)) = Some stats ->
  PyDict.get key (per_species (self_ w)) = Some pss ->
  PyDict.get reduction pss = Some ps ->
  (PyDict.contains reduction stats = false ->
   exists rs, RunningStats_init (runstat_kwargs params error) = Ok rs) ->
  (forall stat batch by_, exists res, accumulate_batch stat batch by_ = Ok res) ->
  (truthy ps = true -> PyDict.contains AtomicDataDict.SPECIES_INDEX_KEY pred = true) ->
  exists w', observe pred key error reduction params w = (Ok tt, w').
Proof.
  intros Hstats Hpss Hps Hinit Hacc Hsp. unfold observe.
  assert (Hg : get_stats key w = (Ok stats, w)).
  { unfold get_stats, PyDict.getitem. by rewrite Hstats. }
  rewrite (bind_run _ _ _ _ _ Hg).
  assert (Hstep : exists w1 stats1 stat,
    (if PyDict.contains reduction stats then mret tt
     else rs ← lift (init_runstat params error);
          _ ← emit (Construct key reduction (runstat_kwargs params error));
          set_stat key reduction rs) w = (Ok tt, w1) /\
    PyDict.get key (running_stats (self_ w1)) = Some stats1 /\
    PyDict.get reduction stats1 = Some stat /\
    per_species (self_ w1) = per_species (self_ w)).
  { destruct (PyDict.contains reduction stats) eqn:Hc.
    - apply contains_true in Hc as [stat Hstat]. exists w, stats, stat. done.
    - destruct (Hinit eq_refl) as [rs Hrs].
      set (w0 := {| self_ := self_ w; metrics_ := metrics_ w;
                    log := log w ++ [Construct key reduction (runstat_kwargs params error)] |}).
      destruct (set_stat_returns key reduction (to_device rs error) w0 stats Hstats)
        as (w1 & Hset & Hget & Hp).
      exists w1, (PyDict.set reduction (to_device rs error) stats), (to_device rs error).
      split; [|split; [done|split; [apply get_set_eq | done]]].
      unfold init_runstat. rewrite Hrs. simpl.
      unfold mbind, stateE_bind, lift, emit, modify. simpl. exact Hset. }
  destruct Hstep as (w1 & stats1 & stat & Hrun1 & Hstats1 & Hstat & Hp1).
  rewrite (bind_run _ _ _ _ _ Hrun1).
  assert (Hg1 : get_stats key w1 = (Ok stats1, w1)).
  { unfold get_stats, PyDict.getitem. by rewrite Hstats1. }
  rewrite (bind_run _ _ _ _ _ Hg1).
  assert (Hl : lift (PyDict.getitem (KeyError reduction) reduction stats1) w1 = (Ok stat, w1)).
  { unfold lift, PyDict.getitem. by rewrite Hstat. }
  rewrite (bind_run _ _ _ _ _ Hl).
  assert (Hgp : get_per_species key reduction w1 = (Ok ps, w1)).
  { unfold get_per_species, PyDict.getitem. rewrite Hp1, Hpss. simpl. by rewrite Hps. }
  rewrite (bind_run _ _ _ _ _ Hgp).
  assert (Hby : exists by_,
    (if truthy ps
     then by_ ← lift (PyDict.getitem (KeyError AtomicDataDict.SPECIES_INDEX_KEY)
                        AtomicDataDict.SPECIES_INDEX_KEY pred);
          mret (Some by_)
     else mret None) w1 = (Ok by_, w1)).
  { destruct (truthy ps); [|by eexists].
    destruct (proj1 (contains_true _ _) (Hsp eq_refl)) as [species Hspecies].
    exists (Some species). unfold mbind, stateE_bind, lift, PyDict.getitem. by rewrite Hspecies. }
  destruct Hby as [by_ Hby]. rewrite (bind_run _ _ _ _ _ Hby).
  destruct (Hacc stat (batch_for stat (truthy ps) error) by_) as [[value stat'] Hres].
  unfold mbind at 1, stateE_bind at 1, emit, modify. simpl.
  unfold mbind at 1, stateE_bind at 1, lift. rewrite Hres.
  set (w2 := {| self_ := self_ w1; metrics_ := metrics_ w1;
                log := log w1 ++ [AccumulateBatch key reduction stat
                                    (batch_for stat (truthy ps) error) by_] |}).
  destruct (set_stat_returns key reduction stat' w2 stats1 Hstats1) as (w3 & Hset & _).
  rewrite (bind_run _ _ _ _ _ Hset). by eexists.
Qed.

Lemma observe_all_returns self0 pred key f error kws items : forall w,
  consistent self0 -> during self0 (self_ w) ->
  (key, f) ∈ funcs self0 -> PyDict.get key (kwargs self0) = Some kws ->
  (forall it, it ∈ items -> it ∈ kws) ->
  (forall reduction params, (reduction, params) ∈ kws ->
     exists rs, RunningStats_init (runstat_kwargs params error) = Ok rs) ->
  (forall stat batch by_, exists res, accumulate_batch stat batch by_ = Ok res) ->
  (forall key pss reduction ps,
     PyDict.get key (per_species self0) = Some pss -> PyDict.get reduction pss = Some ps ->
     truthy ps = true -> PyDict.contains AtomicDataDict.SPECIES_INDEX_KEY pred = true) ->
  exists w', observe_all pred key error items w = (Ok tt, w') /\ during self0 (self_ w').
Proof.
  induction items as [|[red params] items IH]; intros w Hc0 Hd Hf Hkws Hsub Hinit Hacc Hsp; simpl.
  - by exists w.
  - assert (Hin : (red, params) ∈ kws) by (apply Hsub; left).
    assert (Hr : PyDict.contains red kws = true) by by eapply elem_of_contains.
    destruct (during_lookups _ _ _ _ _ _ Hc0 Hd Hf Hkws Hr)
      as ((stats & Hstats) & pss & ps & Hpss & Hps).
    destruct (observe_returns pred key error red params w stats pss ps) as [w1 Hobs]; try done.
    { intros _. by eapply Hinit. }
    { intros Ht. pose proof Hd as (_ & _ & _ & Hp & _). rewrite Hp in Hpss. by eapply Hsp. }
    assert (Hd1 : during self0 (self_ w1)).
    { eapply (keeps_observe self0); [|exact Hd|exact Hobs]. by exists f, kws. }
    destruct (IH w1) as (w' & Hrun & Hd'); try done.
    { intros it Hit. apply Hsub. by right. }
    exists w'. split; [|done]. by rewrite (bind_run _ _ _ _ _ Hobs).
Qed.

Lemma call_keys_returns self0 pred ref items : forall w,
  consistent self0 -> during self0 (self_ w) ->
  (forall it, it ∈ items -> it ∈ funcs self0) ->
  (forall key f, (key, f) ∈ funcs self0 ->
     exists error, call_loss f pred ref key = Ok error /\
       forall kws reduction params,
         PyDict.get key (kwargs self0) = Some kws -> (reduction, params) ∈ kws ->
         exists rs, RunningStats_init (runstat_kwargs params error) = Ok rs) ->
  (forall stat batch by_, exists res, accumulate_batch stat batch by_ = Ok res) ->
  (forall key pss reduction ps,
     PyDict.get key (per_species self0) = Some pss -> PyDict.get reduction pss = Some ps ->
     truthy ps = true -> PyDict.contains AtomicDataDict.SPECIES_INDEX_KEY pred = true) ->
  exists w', call_keys pred ref items w = (Ok tt, w').
Proof.
  induction items as [|[key f] items IH]; intros w Hc0 Hd Hsub Hloss Hacc Hsp; simpl.
  - by exists w.
  - assert (Hf : (key, f) ∈ funcs self0) by (apply Hsub; left).
    destruct (Hloss _ _ Hf) as (error & Herr & Hinit).
    assert (Hkws : exists kws, PyDict.get key (kwargs self0) = Some kws).
    { apply contains_true. destruct Hc0 as (Hal & _). destruct (Hal key) as (H1 & -> & _).
      rewrite <- H1. by eapply elem_of_contains. }
    destruct Hkws as [kws Hkws].
    destruct (observe_all_returns self0 pred key f error kws kws w) as (w1 & Hobs & Hd1);
      try done.
    { intros reduction params Hin. by eapply Hinit. }
    destruct (IH w1) as (w' & Hrun); try done.
    { intros it Hit. apply Hsub. by right. }
    exists w'. unfold mbind at 1, stateE_bind at 1, lift. rewrite Herr.
    unfold mbind at 1, stateE_bind at 1, PyDict.getitem.
    pose proof Hd as (_ & _ & Hk & _). rewrite Hk, Hkws.
    by rewrite (bind_run _ _ _ _ _ Hobs).
Qed.

Lemma during_start self : consistent self -> during self self.
Proof. intros Hc. split; [done|]. split; [done|]. split; [done|]. by split. Qed.

End Engine.
End ProgressFacts.

Module EngineInvariantSpec.
Import Metrics MetricsConfigFacts MetricsInitFacts MetricsCallFacts
       MetricsRunFacts MaintenanceFacts ConsistencyFacts ProgressFacts.

Section Engine.
Context `{Methods}.

(** The invariant [consistent] holds of every engine built by [__init__]
    and is kept by [__call__], [reset] and [to], whether they return or
    raise; [__call__] also leaves [funcs], [kwargs] and [per_species] as
    they are. *)
Theorem engine_stays_consistent :
  (forall components self, __init__ components = Ok self -> consistent self) /\
  (forall self pred ref r w,
     consistent self -> __call__ self pred ref = (r, w) ->
     consistent (self_ w) /\ funcs (self_ w) = funcs self /\
     kwargs (self_ w) = kwargs self /\ per_species (self_ w) = per_species self) /\
  (forall self r self', consistent self -> reset self = (r, self') -> consistent self') /\
  (forall device self r self',
     consistent self -> to device self = (r, self') -> consistent self').
Proof.
  split; [|split; [|split]].
  - intros components self Hrun. eapply add_components_consistent; [|exact Hrun].
    apply consistent_empty.
  - intros self pred ref r w Hc Hrun. unfold __call__ in Hrun.
    destruct (call_keys pred ref (funcs self) {| self_ := self; metrics_ := []; log := [] |})
      as [r1 w1] eqn:Hcall.
    assert (Hd : during self (self_ w1)).
    { exact (keeps_call_keys self pred ref (funcs self) (fun _ Hin => Hin)
               {| self_ := self; metrics_ := []; log := [] |} r1 w1
               (during_start self Hc) Hcall). }
    assert (w = w1) as -> by (destruct r1; by injection Hrun as _ <-).
    by destruct Hd as (? & ? & ? & ? & _).
  - intros self r self' Hc Hrun. by eapply for_each_stat_consistent.
  - intros device self r self' Hc Hrun. by eapply for_each_stat_consistent.
Qed.

End Engine.

Section Call.
Context `{Collaborators}.

(** On a consistent engine [__call__] returns whenever its collaborators
    do: the error function on every key, the constructor of [RunningStats]
    on the arguments of every configured pair, [accumulate_batch], and the
    lookup of "species_index" when some pair groups by species. The
    engine's own lookups never fail. *)
Theorem call_returns_on_consistent_engine self pred ref :
  consistent self ->
  (forall key f, (key, f) ∈ funcs self ->
     exists error, call_loss f pred ref key = Ok error /\
       forall kws reduction params,
         PyDict.get key (kwargs self) = Some kws -> (reduction, params) ∈ kws ->
         exists rs, RunningStats_init (runstat_kwargs params error) = Ok rs) ->
  (forall stat batch accumulate_by,
     exists res, accumulate_batch stat batch accumulate_by = Ok res) ->
  (forall key pss reduction ps,
     PyDict.get key (per_species self) = Some pss -> PyDict.get reduction pss = Some ps ->
     truthy ps = true -> PyDict.contains AtomicDataDict.SPECIES_INDEX_KEY pred = true) ->
  exists metrics w, __call__ self pred ref = (Ok metrics, w).
Proof.
  intros Hc Hloss Hacc Hsp.
  destruct (call_keys_returns self pred ref (funcs self)
              {| self_ := self; metrics_ := []; log := [] |}
              Hc (during_start self Hc) (fun _ Hin => Hin) Hloss Hacc Hsp) as (w & Hrun).
  exists (metrics_ w), w. unfold __call__. by rewrite Hrun.
Qed.

End Call.
End EngineInvariantSpec.

Module MaintenanceSpec.
Import Metrics MetricsConfigFacts MetricsInitFacts MetricsCallFacts
       MetricsRunFacts MaintenanceFacts ConsistencyFacts ProgressFacts Example.

Section Engine.
Context `{Methods}.

Lemma each_key_empty f rs :
  Forall (fun p => p.2 = []) rs -> each_key f rs = (Ok tt, rs).
Proof.
  induction rs as [|[key stats] rs IH]; intros Hall; [done|].
  apply Forall_cons in Hall as [Hs Hall]. simpl in Hs. subst stats. simpl.
  by rewrite (IH Hall).
Qed.

Lemma current_keys_empty rs metrics :
  Forall (fun p => p.2 = []) rs -> current_keys rs metrics = Ok metrics.
Proof.
  induction rs as [|[key stats] rs IH]; intros Hall; [done|].
  apply Forall_cons in Hall as [Hs Hall]. simpl in Hs. subst stats. simpl.
  by apply IH.
Qed.

Lemma init_no_stats components self :
  __init__ components = Ok self -> Forall (fun p => p.2 = []) (running_stats self).
Proof.
  intros Hrun.
  assert (Hc : consistent self).
  { eapply add_components_consistent; [apply consistent_empty | exact Hrun]. }
  destruct Hc as (_ & _ & _ & Hnd & _).
  apply add_components_stats in Hrun as [_ Hempty].
  apply Forall_forall. intros [key stats] Hin. simpl.
  apply (Hempty (fun _ _ Hget => ltac:(discriminate)) key).
  by apply get_NoDup_elem_of.
Qed.

(** [reset] and [to] keep the configuration and the pairs that have a
    statistic, whatever their outcome, and apply the method to every
    statistic when they return; so a call after [reset] constructs no
    statistic for a pair that had one. *)
Theorem reset_and_to_keep_statistics :
  (forall self r self', reset self = (r, self') -> maintained RunningStats_reset self r self') /\
  (forall device self r self',
     to device self = (r, self') ->
     maintained (fun stat => RunningStats_to stat device) self r self') /\
  (forall self r self' pred ref metrics w,
     reset self = (r, self') -> __call__ self' pred ref = (Ok metrics, w) ->
     forall key reduction kw, Construct key reduction kw ∈ log w -> ~ has_stat self key reduction).
Proof.
  split; [|split].
  - intros self r self' Hrun. by apply for_each_stat_spec in Hrun.
  - intros device self r self' Hrun. by apply for_each_stat_spec in Hrun.
  - intros self r self' pred ref metrics w Hrun Hcall key reduction kw Hin Hhas.
    apply for_each_stat_spec in Hrun as (_ & _ & _ & Hst & _).
    apply call_run in Hcall as [Hcall _].
    apply call_keys_stable with (self0 := self') in Hcall as (Hstable & _);
      [|apply stable_start|done].
    destruct Hstable as (_ & _ & _ & _ & _ & Hlog).
    rewrite Forall_forall in Hlog. specialize (Hlog _ Hin). simpl in Hlog.
    destruct Hlog as (f & error & kws & params & _ & _ & _ & _ & Hno & _).
    apply Hno. by apply Hst.
Qed.

(** On an engine just built, [current_result] is the empty dictionary,
    and [reset] and [to] return and change nothing. *)
Theorem new_engine_has_no_results components self :
  __init__ components = Ok self ->
  current_result self = Ok [] /\
  reset self = (Ok tt, self) /\
  forall device, to device self = (Ok tt, self).
Proof.
  intros Hrun. apply init_no_stats in Hrun.
  split; [by apply current_keys_empty|].
  assert (Hloop : forall f, for_each_stat f self = (Ok tt, self)).
  { intros f. unfold for_each_stat. rewrite (each_key_empty f _ Hrun). by destruct self. }
  split; [apply Hloop | intros device; apply Hloop].
Qed.

(** On a consistent engine, [current_result], when it returns, holds
    exactly the pairs that have a statistic, each with the
    [current_result()] of its statistic; all of them are configured
    pairs. *)
Theorem current_result_lists_statistics self metrics :
  consistent self ->
  current_result self = Ok metrics ->
  (forall key reduction,
     PyDict.contains (key, reduction) metrics = true <-> has_stat self key reduction) /\
  (forall key reduction value,
     PyDict.get (key, reduction) metrics = Some value ->
     exists stats stat,
       PyDict.get key (running_stats self) = Some stats /\
       PyDict.get reduction stats = Some stat /\
       RunningStats_current_result stat = Ok value) /\
  (forall key reduction,
     PyDict.contains (key, reduction) metrics = true -> tracked self key reduction).
Proof.
  intros (_ & _ & Hhas & Hnd & Hnds) Hrun. unfold current_result in Hrun.
  apply current_keys_spec in Hrun as [Hkeys Hvals].
  assert (Hiff : forall key reduction,
            PyDict.contains (key, reduction) metrics = true <-> has_stat self key reduction).
  { intros key reduction. rewrite Hkeys. split.
    - intros [? | (stats & Hin & Hr)]; [done|].
      apply contains_true in Hr as [stat Hstat]. exists stats, stat.
      split; [by apply get_NoDup_elem_of | done].
    - intros (stats & stat & Hs & Hr). right. exists stats.
      split; [by apply get_elem_of|]. apply contains_true. eauto. }
  split; [done|]. split.
  - intros key reduction value Hget.
    destruct (Hvals _ _ _ Hget) as [? | (stats & stat & Hin & Hst & Hv)]; [done|].
    assert (Hs : PyDict.get key (running_stats self) = Some stats)
      by by apply get_NoDup_elem_of.
    exists stats, stat. split; [done|]. split; [|done].
    apply get_NoDup_elem_of; [by eapply Hnds | done].
  - intros key reduction Hc. apply Hhas. by apply Hiff.
Qed.

End Engine.
End MaintenanceSpec.

(** ** [Metrics]: the whole of the report *)

Module FlattenMoreFacts.
Import Metrics MetricsFlattenFacts.

Lemma chunks_one n : forall xs,
  n <= length xs ->
  forall i, i < n -> exists x, chunks n 1 xs !! i = Some [x].
Proof.
  induction n as [|n IH]; intros xs Hlen i Hi; [lia|].
  destruct xs as [|x xs]; simpl in Hlen; [lia|]. simpl.
  destruct i as [|i]; simpl; [eauto|].
  rewrite drop_0. apply IH; lia.
Qed.

Lemma iter_flatten value :
  exists comps, iter (flatten value) = Ok comps /\ length comps = length (values value) /\
    forall idx v, comps !! idx = Some v -> exists x, values v = [x].
Proof.
  unfold iter, flatten. simpl. eexists. split; [done|].
  split; [by rewrite length_map, length_chunks|].
  intros idx v Hv. rewrite list_lookup_fmap in Hv.
  destruct (chunks (length (values value)) 1 (values value) !! idx) as [c|] eqn:Hc; [|done].
  injection Hv as <-. simpl.
  assert (Hi : idx < length (values value)).
  { apply lookup_lt_Some in Hc. by rewrite length_chunks in Hc. }
  destruct (chunks_one (length (values value)) (values value) (le_n _) idx Hi) as [x Hx].
  exists x. congruence.
Qed.

Section Engine.
Context `{Collaborators}.

Lemma flatten_components_entries item_name comps : forall flat flat',
  flatten_components item_name comps flat = Ok flat' ->
  forall idx v, (idx, v) ∈ comps ->
    PyDict.contains (suffixed item_name idx) flat' = true.
Proof.
  induction comps as [|[idx0 v0] comps IH]; intros flat flat' Hrun idx v Hin; simpl in Hrun.
  - by apply elem_of_nil in Hin.
  - apply result_bind_Ok in Hrun as (x & _ & Hrun).
    apply elem_of_cons in Hin as [[= -> ->] | Hin]; [|by eapply IH].
    eapply flatten_components_Ok; [exact Hrun|]. apply contains_set_new.
Qed.

(** The names [flatten_vec] appends to [skip_keys]. *)
Lemma flatten_vec_skip ele item_name comps : forall acc acc',
  flatten_vec ele item_name comps acc = Ok acc' ->
  forall n, n ∈ acc'.2 ->
    n ∈ acc.2 \/
    (PyDict.contains n acc'.1 = true /\
     exists idx v, (idx, v) ∈ comps /\ n = suffixed (prefixed ele item_name) idx).
Proof.
  induction comps as [|[idx0 v0] comps IH]; intros acc acc' Hrun n Hn; simpl in Hrun.
  - injection Hrun as <-. by left.
  - apply result_bind_Ok in Hrun as (x & _ & Hrun).
    pose proof (flatten_vec_Ok _ _ _ _ _ Hrun) as (Hmono & _).
    destruct (IH _ _ Hrun n Hn) as [Hold | (Hc & idx & v & Hin & ->)].
    + simpl in Hold. apply elem_of_app in Hold as [? | Hnew]; [by left|].
      apply list_elem_of_singleton in Hnew as ->. right. split.
      * apply Hmono. simpl. apply contains_set_new.
      * exists idx0, v0. split; [left | done].
    + right. split; [done|]. exists idx, v. split; [by right | done].
Qed.

Lemma flatten_species_vec_skip names item_name rows : forall acc acc',
  flatten_species_vec names item_name rows acc = Ok acc' ->
  forall n, n ∈ acc'.2 ->
    n ∈ acc.2 \/
    (PyDict.contains n acc'.1 = true /\
     exists i ele idx, names !! i = Some ele /\ n = suffixed (prefixed ele item_name) idx).
Proof.
  induction rows as [|[i0 vec0] rows IH]; intros acc acc' Hrun n Hn; simpl in Hrun.
  - injection Hrun as <-. by left.
  - apply result_bind_Ok in Hrun as (ele & Hele & Hrun). apply index_Ok in Hele.
    apply result_bind_Ok in Hrun as (comps & Hcomps & Hrun).
    apply result_bind_Ok in Hrun as (acc1 & Hvec & Hrun).
    pose proof (flatten_species_vec_Ok _ _ _ _ _ Hrun) as (Hmono & _).
    destruct (IH _ _ Hrun n Hn) as [Hold | ?]; [|by right].
    destruct (flatten_vec_skip _ _ _ _ _ Hvec n Hold) as [? | (Hc & idx & v & _ & ->)];
      [by left|].
    right. split; [by apply Hmono|]. by exists i0, ele, idx.
Qed.

(** What [flatten_item] reports for a pair, whatever its branch. *)
Lemma flatten_item_skip self allowed_species key reduction value acc acc' :
  flatten_item self allowed_species (key, reduction) value acc = Ok acc' ->
  exists stats stat pss ps,
    PyDict.get key (running_stats self) = Some stats /\
    PyDict.get reduction stats = Some stat /\
    PyDict.get key (per_species self) = Some pss /\
    PyDict.get reduction pss = Some ps /\
    (forall n, n ∈ acc'.2 ->
       n ∈ acc.2 \/
       (PyDict.contains n acc'.1 = true /\ truthy ps = true /\ output_dim stat <> [] /\
        exists ele idx, n = suffixed (prefixed ele (item_name_of key reduction)) idx)) /\
    (truthy ps = false ->
     if bool_decide (output_dim stat = [])
     then PyDict.contains (item_name_of key reduction) acc'.1 = true /\
          length (values value) = 1
     else forall idx, idx < length (values value) ->
            PyDict.contains (suffixed (item_name_of key reduction) idx) acc'.1 = true).
Proof.
  unfold flatten_item. intros Hrun.
  apply result_bind_Ok in Hrun as (stats & Hstats & Hrun). apply dict_getitem_Ok in Hstats.
  apply result_bind_Ok in Hrun as (stat & Hstat & Hrun). apply dict_getitem_Ok in Hstat.
  apply result_bind_Ok in Hrun as (pss & Hpss & Hrun). apply dict_getitem_Ok in Hpss.
  apply result_bind_Ok in Hrun as (ps & Hps & Hrun). apply dict_getitem_Ok in Hps.
  exists stats, stat, pss, ps. split; [done|]. split; [done|]. split; [done|]. split; [done|].
  destruct (truthy ps) eqn:Ht.
  - split; [|discriminate].
    apply result_bind_Ok in Hrun as (names & Hnames & Hrun).
    destruct (bool_decide (output_dim stat = [])) eqn:Hdim.
    + apply result_bind_Ok in Hrun as (rows & Hrows & Hrun).
      apply result_bind_Ok in Hrun as (flat & Hflat & Hrun).
      apply result_bind_Ok in Hrun as (x & _ & [= <-]). simpl. intros n Hn. by left.
    + apply bool_decide_eq_false in Hdim.
      apply result_bind_Ok in Hrun as (rows & Hrows & Hrun).
      intros n Hn.
      destruct (flatten_species_vec_skip _ _ _ _ _ Hrun n Hn)
        as [? | (Hc & i & ele & idx & _ & ->)]; [by left|].
      right. split; [done|]. split; [done|]. split; [done|]. by exists ele, idx.
  - destruct (bool_decide (output_dim stat = [])).
    + apply result_bind_Ok in Hrun as (x & Hx & [= <-]). simpl.
      split; [intros n Hn; by left|]. intros _. split; [apply contains_set_new|].
      unfold item in Hx. by destruct (values value) as [|? [|? ?]].
    + apply result_bind_Ok in Hrun as (comps & Hcomps & Hrun).
      apply result_bind_Ok in Hrun as (flat & Hflat & [= <-]). simpl.
      split; [intros n Hn; by left|]. intros _ idx Hidx.
      destruct (iter_flatten value) as (comps' & Hcomps' & Hlen & _).
      assert (comps' = comps) as -> by congruence.
      destruct (lookup_lt_is_Some_2 comps idx) as [v Hv]; [lia|].
      eapply flatten_components_entries; [exact Hflat|].
      apply elem_of_enumerate. exact Hv.
Qed.

Lemma flatten_items_report self allowed_species items : forall acc acc',
  flatten_items self allowed_species items acc = Ok acc' ->
  (forall n, n ∈ acc'.2 ->
     n ∈ acc.2 \/
     (PyDict.contains n acc'.1 = true /\
      exists key reduction value stats stat pss ps ele idx,
        ((key, reduction), value) ∈ items /\
        PyDict.get key (running_stats self) = Some stats /\
        PyDict.get reduction stats = Some stat /\
        PyDict.get key (per_species self) = Some pss /\
        PyDict.get reduction pss = Some ps /\
        truthy ps = true /\ output_dim stat <> [] /\
        n = suffixed (prefixed ele (item_name_of key reduction)) idx)) /\
  (forall key reduction value, ((key, reduction), value) ∈ items ->
     exists stats stat pss ps,
       PyDict.get key (running_stats self) = Some stats /\
       PyDict.get reduction stats = Some stat /\
       PyDict.get key (per_species self) = Some pss /\
       PyDict.get reduction pss = Some ps /\
       (truthy ps = false ->
        if bool_decide (output_dim stat = [])
        then PyDict.contains (item_name_of key reduction) acc'.1 = true /\
             length (values value) = 1
        else forall idx, idx < length (values value) ->
               PyDict.contains (suffixed (item_name_of key reduction) idx) acc'.1 = true)).
Proof.
  induction items as [|[[key0 red0] value0] items IH]; intros acc acc' Hrun; simpl in Hrun.
  - injection Hrun as <-. split; [intros n Hn; by left|].
    intros ? ? ? Hin. by apply elem_of_nil in Hin.
  - apply result_bind_Ok in Hrun as (acc1 & Hitem & Hrun).
    pose proof (flatten_items_Ok _ _ _ _ _ Hrun) as (Hmono & _).
    apply flatten_item_skip in Hitem
      as (stats0 & stat0 & pss0 & ps0 & Hs0 & Hst0 & Hp0 & Hps0 & Hskip0 & Hwhole0).
    destruct (IH _ _ Hrun) as [Hskip Hwhole]. split.
    + intros n Hn.
      destruct (Hskip n Hn)
        as [Hold | (Hc & k & r & v & st & s & pss & ps & ele & idx & Hin & Hrest)].
      * destruct (Hskip0 n Hold) as [? | (Hc & Ht & Hd & ele & idx & ->)]; [by left|].
        right. split; [by apply Hmono|].
        exists key0, red0, value0, stats0, stat0, pss0, ps0, ele, idx.
        split; [left | done].
      * right. split; [done|]. exists k, r, v, st, s, pss, ps, ele, idx.
        split; [by right | done].
    + intros key reduction value Hin. apply elem_of_cons in Hin as [[= -> -> ->] | Hin].
      * exists stats0, stat0, pss0, ps0. split; [done|]. split; [done|]. split; [done|].
        split; [done|]. intros Ht. specialize (Hwhole0 Ht).
        destruct (bool_decide (output_dim stat0 = [])).
        -- destruct Hwhole0 as [Hc Hl]. split; [by apply Hmono | done].
        -- intros idx Hidx. by apply Hmono, Hwhole0.
      * by apply Hwhole.
Qed.

End Engine.
End FlattenMoreFacts.

Module FlattenMoreSpec.
Import Metrics MetricsFlattenFacts FlattenMoreFacts.
Section Engine.
Context `{Collaborators}.

(** Every name of [skip_keys] is a key of [flat_dict], and is the
    per-component entry "{species}_{abbreviated_key}_{reduction}_{idx}" of a
    pair of [metrics] with per-species grouping whose statistic is not
    scalar. *)
Theorem skip_keys_are_component_entries self metrics allowed_species flat_dict skip_keys n :
  flatten_metrics self metrics allowed_species = Ok (flat_dict, skip_keys) ->
  n ∈ skip_keys ->
  PyDict.contains n flat_dict = true /\
  exists key reduction value stats stat pss ps ele idx,
    ((key, reduction), value) ∈ metrics /\
    PyDict.get key (running_stats self) = Some stats /\
    PyDict.get reduction stats = Some stat /\
    PyDict.get key (per_species self) = Some pss /\
    PyDict.get reduction pss = Some ps /\
    truthy ps = true /\ output_dim stat <> [] /\
    n = (str_label ele ++ "_" ++ item_name_of key reduction ++ "_" ++ str_nat idx)%string.
Proof.
  unfold flatten_metrics. intros Hrun Hn.
  apply flatten_items_report in Hrun as [Hskip _].
  destruct (Hskip n Hn) as [Hnil | (Hc & k & r & v & st & s & pss & ps & ele & idx & Hrest)].
  - by apply elem_of_nil in Hnil.
  - split; [done|]. exists k, r, v, st, s, pss, ps, ele, idx.
    destruct Hrest as (? & ? & ? & ? & ? & ? & ? & ->).
    repeat (split; [done|]). unfold suffixed, prefixed. by rewrite !string_app_assoc.
Qed.

(** [flatten_metrics] returns only if every pair of [metrics] has a
    statistic and a per-species option in the engine. For a pair without
    per-species grouping it reports "{abbreviated_key}_{reduction}" when the
    statistic is scalar, the value then having one element, and
    "{abbreviated_key}_{reduction}_{idx}" for every index of the flattened
    value otherwise. *)
Theorem flatten_metrics_whole_statistic
    self metrics allowed_species flat_dict skip_keys key reduction value :
  flatten_metrics self metrics allowed_species = Ok (flat_dict, skip_keys) ->
  ((key, reduction), value) ∈ metrics ->
  exists stats stat pss ps,
    PyDict.get key (running_stats self) = Some stats /\
    PyDict.get reduction stats = Some stat /\
    PyDict.get key (per_species self) = Some pss /\
    PyDict.get reduction pss = Some ps /\
    (truthy ps = false ->
     if bool_decide (output_dim stat = [])
     then PyDict.contains (item_name_of key reduction) flat_dict = true /\
          length (values value) = 1
     else forall idx, idx < length (values value) ->
            PyDict.contains (item_name_of key reduction ++ "_" ++ str_nat idx)%string
                            flat_dict = true).
Proof.
  unfold flatten_metrics. intros Hrun Hin.
  apply flatten_items_report in Hrun as [_ Hwhole]. exact (Hwhole _ _ _ Hin).
Qed.

End Engine.
End FlattenMoreSpec.

(** ** Further examples *)

Module MoreExamples.
Import Metrics MetricsConfigFacts MetricsInitFacts MetricsCallFacts
       MetricsRunFacts MaintenanceFacts ConsistencyFacts ProgressFacts
       MetricsInitSpec MetricsRunSpec EngineInvariantSpec MaintenanceSpec FlattenMoreSpec
       Example.

Lemma engine_consistent components : @consistent simple_engine (engine components).
Proof.
  unfold engine.
  destruct (@__init__ simple_engine components) as [self|e] eqn:Hinit.
  - eapply add_components_consistent; [apply consistent_empty | exact Hinit].
  - apply consistent_empty.
Qed.

Lemma engine_after_call_consistent components :
  @consistent simple_engine (engine_after_call components).
Proof.
  unfold engine_after_call.
  destruct (@__call__ simple_engine (engine components) pred ref) as [r w] eqn:Hcall.
  unfold __call__ in Hcall.
  destruct (call_keys pred ref (funcs (engine components))
              {| self_ := engine components; metrics_ := []; log := [] |})
    as [r1 w1] eqn:Hkeys.
  assert (Hd : during (engine components) (self_ w1)).
  { exact (keeps_call_keys (engine components) pred ref (funcs (engine components))
             (fun _ Hin => Hin)
             {| self_ := engine components; metrics_ := []; log := [] |} r1 w1
             (during_start _ (engine_consistent components)) Hkeys). }
  assert (w = w1) as -> by (destruct r1; by injection Hcall as _ <-).
  by destruct Hd.
Qed.

(** The RMSE spec of [two_reductions], the last of the list. *)
Lemma rmse_spec_sets_options :
  exists kws pss kw ps,
    PyDict.get "forces" (@kwargs simple_engine (engine two_reductions)) = Some kws /\
    PyDict.get "rmse" kws = Some kw /\
    PyDict.get "forces" (@per_species simple_engine (engine two_reductions)) = Some pss /\
    PyDict.get "rmse" pss = Some ps /\
    PyDict.get "reduction" kw
      = Some (default (to_reduction "rmse")
                (PyDict.get "reduction" [("functional", PStr "MSELoss")])) /\
    (forall k, k <> "functional" -> k <> "PerSpecies" -> k <> "reduction" ->
       PyDict.get k kw = PyDict.get k [("functional", PStr "MSELoss")]) /\
    ps = default (PBool false) (PyDict.get "PerSpecies" [("functional", PStr "MSELoss")]).
Proof.
  apply (@last_spec_sets_options simple_engine
           [CTuple [PStr "forces"; PStr "mae"]]
           (CTuple [PStr "forces"; PStr "rmse"; PDict [("functional", PStr "MSELoss")]])
           (engine two_reductions) "forces" "rmse" [("functional", PStr "MSELoss")]).
  - reflexivity.
  - reflexivity.
Defined.

(** The engine of [two_reductions] has no statistic before its first call. *)
Lemma two_reductions_construct_nothing :
  (forall key, PyDict.contains key (@running_stats simple_engine (engine two_reductions)) = true <->
     exists c, c ∈ two_reductions /\ mentions c = Some key) /\
  (forall key stats,
     PyDict.get key (@running_stats simple_engine (engine two_reductions)) = Some stats ->
     stats = []) /\
  (forall key reduction, ~ has_stat (engine two_reductions) key reduction).
Proof.
  apply (@init_constructs_no_statistic simple_engine two_reductions (engine two_reductions)).
  reflexivity.
Defined.

(** The first call of the engine of [two_reductions] reports its two pairs. *)
Lemma two_reductions_report_both :
  (forall key reduction,
     PyDict.contains (key, reduction) (metrics_of_call two_reductions) = true
     <-> tracked (engine two_reductions) key reduction) /\
  (forall key reduction value,
     PyDict.get (key, reduction) (metrics_of_call two_reductions) = Some value ->
     exists stat batch accumulate_by stat',
       AccumulateBatch key reduction stat batch accumulate_by
         ∈ log (@__call__ simple_engine (engine two_reductions) pred ref).2 /\
       see stat batch accumulate_by = Ok (value, stat')).
Proof.
  apply (@call_reports_every_tracked_pair simple_engine
           (engine two_reductions) pred ref (metrics_of_call two_reductions)
           (@__call__ simple_engine (engine two_reductions) pred ref).2
           (@eq_refl _ (Ok (metrics_of_call two_reductions),
                        (@__call__ simple_engine (engine two_reductions) pred ref).2)
            <: @__call__ simple_engine (engine two_reductions) pred ref
                 = (Ok (metrics_of_call two_reductions),
                    (@__call__ simple_engine (engine two_reductions) pred ref).2))).
Defined.


(** After its first call the engine of [two_reductions] constructs nothing. *)
Lemma second_call_constructs_nothing :
  funcs (engine_after_call two_reductions) = funcs (engine two_reductions) /\
  kwargs (engine_after_call two_reductions) = kwargs (engine two_reductions) /\
  per_species (engine_after_call two_reductions) = per_species (engine two_reductions) /\
  (forall key reduction,
     tracked (engine two_reductions) key reduction ->
     has_stat (engine_after_call two_reductions) key reduction) /\
  (forall key reduction,
     has_stat (engine two_reductions) key reduction ->
     has_stat (engine_after_call two_reductions) key reduction) /\
  forall pred' ref' metrics' w',
    @__call__ simple_engine (engine_after_call two_reductions) pred' ref' = (Ok metrics', w') ->
    forall key reduction kw, Construct key reduction kw ∉ log w'.
Proof.
  apply (@statistics_are_constructed_once simple_engine
           (engine two_reductions) pred ref (metrics_of_call two_reductions)
           (@__call__ simple_engine (engine two_reductions) pred ref).2
           (@eq_refl _ (Ok (metrics_of_call two_reductions),
                        (@__call__ simple_engine (engine two_reductions) pred ref).2)
            <: @__call__ simple_engine (engine two_reductions) pred ref
                 = (Ok (metrics_of_call two_reductions),
                    (@__call__ simple_engine (engine two_reductions) pred ref).2))).
Defined.

(** The call of the engine of [two_reductions] on [pred] and [ref] returns. *)
Lemma two_reductions_call_returns :
  exists metrics w, @__call__ simple_engine (engine two_reductions) pred ref = (Ok metrics, w).
Proof.
  apply (@call_returns_on_consistent_engine simple_engine (engine two_reductions) pred ref).
  - apply engine_consistent.
  - intros key f Hin.
    change (funcs (engine two_reductions)) with [("forces", L1Loss)] in Hin.
    apply list_elem_of_singleton in Hin. injection Hin as -> ->.
    eexists. split; [reflexivity|].
    intros kws reduction params Hkws Hin.
    change (PyDict.get "forces" (kwargs (engine two_reductions)))
      with (Some [("mae", [("reduction", PReduction MEAN)]);
                  ("rmse", [("reduction", PReduction RMS)])]) in Hkws.
    injection Hkws as <-.
    apply elem_of_cons in Hin as [Hin | Hin]; [injection Hin as -> ->; by eexists|].
    apply list_elem_of_singleton in Hin. injection Hin as -> ->. by eexists.
  - intros stat batch accumulate_by. by eexists.
  - intros key pss reduction ps _ _ _. reflexivity.
Defined.

(** The engine of [two_reductions] before its first call. *)
Lemma new_engine_of_two_reductions :
  @current_result simple_engine simple_methods (engine two_reductions) = Ok [] /\
  @reset simple_engine simple_methods (engine two_reductions) = (Ok tt, engine two_reductions) /\
  forall device,
    @to simple_engine simple_methods device (engine two_reductions)
    = (Ok tt, engine two_reductions).
Proof.
  apply (@new_engine_has_no_results simple_engine simple_methods two_reductions
           (engine two_reductions)).
  reflexivity.
Defined.

(** The current results of the engine of [two_reductions] after one call. *)
Lemma results_after_one_call :
  (forall key reduction,
     PyDict.contains (key, reduction)
       (results_of (@current_result simple_engine simple_methods
                      (engine_after_call two_reductions))) = true
     <-> has_stat (engine_after_call two_reductions) key reduction) /\
  (forall key reduction value,
     PyDict.get (key, reduction)
       (results_of (@current_result simple_engine simple_methods
                      (engine_after_call two_reductions))) = Some value ->
     exists stats stat,
       PyDict.get key (running_stats (engine_after_call two_reductions)) = Some stats /\
       PyDict.get reduction stats = Some stat /\
       batches_seen stat = Ok value) /\
  (forall key reduction,
     PyDict.contains (key, reduction)
       (results_of (@current_result simple_engine simple_methods
                      (engine_after_call two_reductions))) = true ->
     tracked (engine_after_call two_reductions) key reduction).
Proof.
  apply (@current_result_lists_statistics simple_engine simple_methods
           (engine_after_call two_reductions)).
  - apply engine_after_call_consistent.
  - reflexivity.
Defined.

(** The name "0_f_rmse_0" of the per-species report by component. *)
Lemma component_skip_key_is_reported :
  PyDict.contains "0_f_rmse_0"
    (report_of (@flatten_metrics simple_engine (engine_after_call per_species_components)
                  (metrics_of_call per_species_components) None)).1 = true /\
  exists key reduction value stats stat pss ps ele idx,
    ((key, reduction), value) ∈ metrics_of_call per_species_components /\
    PyDict.get key (running_stats (engine_after_call per_species_components)) = Some stats /\
    PyDict.get reduction stats = Some stat /\
    PyDict.get key (per_species (engine_after_call per_species_components)) = Some pss /\
    PyDict.get reduction pss = Some ps /\
    truthy ps = true /\ reported stat <> [] /\
    "0_f_rmse_0" = (str_label ele ++ "_" ++ @item_name_of simple_engine key reduction
                      ++ "_" ++ str_nat idx)%string.
Proof.
  apply (@skip_keys_are_component_entries simple_engine
           (engine_after_call per_species_components)
           (metrics_of_call per_species_components) None
           (report_of (@flatten_metrics simple_engine (engine_after_call per_species_components)
                         (metrics_of_call per_species_components) None)).1
           (report_of (@flatten_metrics simple_engine (engine_after_call per_species_components)
                         (metrics_of_call per_species_components) None)).2
           "0_f_rmse_0").
  - reflexivity.
  - left.
Defined.

(** The report of a scalar MAE over the whole batch. *)
Lemma whole_mae_is_reported :
  exists stats stat pss ps,
    PyDict.get "forces" (running_stats (engine_after_call two_reductions)) = Some stats /\
    PyDict.get "mae" stats = Some stat /\
    PyDict.get "forces" (per_species (engine_after_call two_reductions)) = Some pss /\
    PyDict.get "mae" pss = Some ps /\
    (truthy ps = false ->
     if bool_decide (reported stat = [])
     then PyDict.contains (@item_name_of simple_engine "forces" "mae")
            (report_of (@flatten_metrics simple_engine (engine_after_call two_reductions)
                          whole_mae None)).1 = true /\
          length (values {| requires_grad := false; shape := []; values := [0.5%float] |}) = 1
     else forall idx,
            idx < length (values {| requires_grad := false; shape := []; values := [0.5%float] |}) ->
            PyDict.contains (@item_name_of simple_engine "forces" "mae" ++ "_" ++ str_nat idx)%string
              (report_of (@flatten_metrics simple_engine (engine_after_call two_reductions)
                            whole_mae None)).1 = true).
Proof.
  apply (@flatten_metrics_whole_statistic simple_engine
           (engine_after_call two_reductions) whole_mae None
           (report_of (@flatten_metrics simple_engine (engine_after_call two_reductions)
                         whole_mae None)).1
           (report_of (@flatten_metrics simple_engine (engine_after_call two_reductions)
                         whole_mae None)).2
           "forces" "mae"
           {| requires_grad := false; shape := []; values := [0.5%float] |}).
  - reflexivity.
  - left.
Defined.

End MoreExamples.
